(** * Parcels kernel engine: a shallow embedding of [parcels/kernel.py]

    The development follows the layout of the source file:
    - [MD5], [Np], [PyFormat]: the library functions the kernel calls
      ([hashlib.md5], [np.sign], [np.isclose], the [%] conversions);
    - [Indent]: [fix_indentation];
    - the data model: error codes, conditions, particle types, particles,
      and the collaborators the kernel holds but does not implement;
    - [Kernel]: [__init__], [_cache_key], [merge], [__add__], [__radd__];
    - [execute_python], [execute_jit] and [execute];
    - the vocabulary of the statements, and a small runtime on which the
      model runs;
    - the properties: construction and merge, the cache key, the
      interpreted pass, the recovery loop, each followed by runs on
      concrete kernels and populations.

    Python floats are modelled by exact rationals, and every [while] loop
    takes a fuel: a computation that runs out of fuel has no result. *)

From stdpp Require Import gmap strings list fin_maps.
From Stdlib Require Import ZArith QArith Qabs Qminmax Lqa Ascii String List Lia.
Import ListNotations.

Set Warnings "-clear-no-such-hyp".

Local Open Scope Z_scope.

(* ===================================================================== *)
(** ** MD5 ([hashlib.md5(...).hexdigest()]) *)
(* ===================================================================== *)

Module MD5.

(** 32-bit words are integers taken modulo [2^32]. *)
Definition w32 (x : Z) : Z := x mod 2 ^ 32.

Definition rotl (x c : Z) : Z :=
  w32 (Z.lor (Z.shiftl x c) (Z.shiftr x (32 - c))).

Definition not32 (x : Z) : Z := Z.lxor x (2 ^ 32 - 1).

(** [K[i] = floor(2^32 * |sin (i + 1)|)]. *)
Definition K : list Z :=
  [ 3614090360; 3905402710; 606105819; 3250441966;
    4118548399; 1200080426; 2821735955; 4249261313;
    1770035416; 2336552879; 4294925233; 2304563134;
    1804603682; 4254626195; 2792965006; 1236535329;
    4129170786; 3225465664; 643717713; 3921069994;
    3593408605; 38016083; 3634488961; 3889429448;
    568446438; 3275163606; 4107603335; 1163531501;
    2850285829; 4243563512; 1735328473; 2368359562;
    4294588738; 2272392833; 1839030562; 4259657740;
    2763975236; 1272893353; 4139469664; 3200236656;
    681279174; 3936430074; 3572445317; 76029189;
    3654602809; 3873151461; 530742520; 3299628645;
    4096336452; 1126891415; 2878612391; 4237533241;
    1700485571; 2399980690; 4293915773; 2240044497;
    1873313359; 4264355552; 2734768916; 1309151649;
    4149444226; 3174756917; 718787259; 3951481745 ].

(** Per-round left-rotation amounts. *)
Definition R : list Z :=
  [ 7; 12; 17; 22; 7; 12; 17; 22; 7; 12; 17; 22; 7; 12; 17; 22;
    5; 9; 14; 20; 5; 9; 14; 20; 5; 9; 14; 20; 5; 9; 14; 20;
    4; 11; 16; 23; 4; 11; 16; 23; 4; 11; 16; 23; 4; 11; 16; 23;
    6; 10; 15; 21; 6; 10; 15; 21; 6; 10; 15; 21; 6; 10; 15; 21 ].

Definition nthZ (l : list Z) (i : Z) : Z := nth (Z.to_nat i) l 0.

(** Little-endian byte expansion of [x] on [n] bytes. *)
Fixpoint le_bytes (n : nat) (x : Z) : list Z :=
  match n with
  | O => []
  | S n' => (x mod 256) :: le_bytes n' (x / 256)
  end.

Fixpoint le_word (bs : list Z) : Z :=
  match bs with
  | [] => 0
  | b :: bs' => b + 256 * le_word bs'
  end.

(** Padding: a [0x80] byte, zeros up to 56 modulo 64, then the bit
    length on 64 bits. *)
Definition pad (msg : list Z) : list Z :=
  let len := Z.of_nat (length msg) in
  msg ++ [128] ++ repeat 0 (Z.to_nat ((55 - len) mod 64))
      ++ le_bytes 8 ((8 * len) mod 2 ^ 64).

(** Cuts a byte list into blocks of [n] bytes. *)
Fixpoint blocks (fuel n : nat) (bs : list Z) : list (list Z) :=
  match fuel, bs with
  | O, _ | _, [] => []
  | S fuel', _ => firstn n bs :: blocks fuel' n (skipn n bs)
  end.

Definition words (block : list Z) : list Z :=
  List.map le_word (blocks 16 4 block).

Definition state : Type := (Z * Z * Z * Z)%type.

Definition round (M : list Z) (st : state) (i : Z) : state :=
  let '(A, B, C, D) := st in
  let '(F, g) :=
    if i <? 16 then (Z.lor (Z.land B C) (Z.land (not32 B) D), i)
    else if i <? 32 then
      (Z.lor (Z.land D B) (Z.land (not32 D) C), (5 * i + 1) mod 16)
    else if i <? 48 then (Z.lxor B (Z.lxor C D), (3 * i + 5) mod 16)
    else (Z.lxor C (Z.lor B (not32 D)), (7 * i) mod 16) in
  let F' := w32 (F + A + nthZ K i + nthZ M g) in
  (D, w32 (B + rotl F' (nthZ R i)), B, C).

Definition process (h : state) (block : list Z) : state :=
  let '(a0, b0, c0, d0) := h in
  let '(A, B, C, D) :=
    fold_left (round (words block)) (List.map Z.of_nat (seq 0 64)) h in
  (w32 (a0 + A), w32 (b0 + B), w32 (c0 + C), w32 (d0 + D)).

Definition init : state := (1732584193, 4023233417, 2562383102, 271733878).

Definition digest (msg : list Z) : list Z :=
  let p := pad msg in
  let '(a, b, c, d) := fold_left process (blocks (length p) 64 p) init in
  le_bytes 4 a ++ le_bytes 4 b ++ le_bytes 4 c ++ le_bytes 4 d.

Definition hex_digit (d : Z) : ascii :=
  if d <? 10 then ascii_of_nat (Z.to_nat (48 + d))
  else ascii_of_nat (Z.to_nat (87 + d)).

Fixpoint hex (bs : list Z) : string :=
  match bs with
  | [] => EmptyString
  | b :: bs' => String (hex_digit (b / 16)) (String (hex_digit (b mod 16)) (hex bs'))
  end.

(** [key.encode('utf-8')]: a [string] is held as its byte sequence. *)
Fixpoint encode (s : string) : list Z :=
  match s with
  | EmptyString => []
  | String c s' => Z.of_nat (nat_of_ascii c) :: encode s'
  end.

Definition hexdigest (s : string) : string := hex (digest (encode s)).

End MD5.

(* ===================================================================== *)
(** ** Numbers and the [%] conversions *)
(* ===================================================================== *)

(** Python floats ([particle.time], [particle.dt], [endtime], [dt], the
    value of [time.time()]) are modelled by exact rationals: rounding,
    infinities and NaN are outside the model. *)

Module Np.

Local Open Scope Q_scope.

Definition Qlt_bool (a b : Q) : bool := negb (Qle_bool b a).

(** [np.sign]. *)
Definition sign (x : Q) : Q :=
  match x ?= 0 with
  | Lt => -1
  | Eq => 0
  | Gt => 1
  end.

Definition rtol : Q := 1 # 100000.
Definition atol : Q := 1 # 100000000.

(** [np.isclose(a, b)] with its default tolerances:
    [|a - b| <= atol + rtol * |b|]. *)
Definition isclose (a b : Q) : bool :=
  Qle_bool (Qabs (a - b)) (atol + rtol * Qabs b).

End Np.

Module PyFormat.

Definition digit (d : Z) : ascii := ascii_of_nat (Z.to_nat (48 + d)).

Fixpoint digits (fuel : nat) (z : Z) (acc : string) : string :=
  match fuel with
  | O => acc
  | S fuel' =>
      let acc' := String (digit (z mod 10)) acc in
      if z <? 10 then acc' else digits fuel' (z / 10) acc'
  end.

(** ['%d' % z]. *)
Definition d (z : Z) : string :=
  if z <? 0
  then String "-" (digits (S (Z.to_nat (Z.log2 (- z)))) (- z) EmptyString)
  else digits (S (Z.to_nat (Z.log2 z))) z EmptyString.

(** Left padding with zeros up to [width] characters (['%06d']). *)
Definition zfill (width : nat) (s : string) : string :=
  Nat.iter (width - String.length s) (String "0") s.

(** Rounding of a non-negative rational to the nearest integer, ties to
    even, as the C library prints the exact value of a double. *)
Definition round_half_even (q : Q) : Z :=
  let n := Qnum q in
  let m := Zpos (Qden q) in
  let fl := n / m in
  match 2 * (n mod m) ?= m with
  | Lt => fl
  | Gt => fl + 1
  | Eq => if Z.even fl then fl else fl + 1
  end.

(** ['%f' % q]: six digits after the point. *)
Definition f (q : Q) : string :=
  let m := round_half_even (Qabs q * 1000000)%Q in
  ((if Np.Qlt_bool q 0 then "-" else "")
    ++ d (m / 1000000) ++ "." ++ zfill 6 (d (m mod 1000000)))%string.

End PyFormat.

(* ===================================================================== *)
(** ** [fix_indentation] *)
(* ===================================================================== *)

Module Indent.

(** A text is the UTF-8 encoding of a Python [str]: a line break is the
    byte 10, and a character outside ASCII takes several bytes, none of
    them below 128. *)
Definition newline : ascii := ascii_of_nat 10.

(** The characters matched by [\s] in a [str] pattern are those for
    which [str.isspace] holds. In ASCII: U+0009 to U+000D, U+001C to
    U+001F and the blank. *)
Definition is_space (c : ascii) : bool :=
  let n := nat_of_ascii c in
  ((9 <=? n) && (n <=? 13) || (28 <=? n) && (n <=? 32))%nat.

(** In two bytes: U+0085 (bytes 194 133) and U+00A0 (bytes 194 160). *)
Definition is_space2 (a b : ascii) : bool :=
  let a := nat_of_ascii a in
  let b := nat_of_ascii b in
  ((a =? 194) && ((b =? 133) || (b =? 160)))%nat.

(** In three bytes: U+1680 (bytes 225 154 128), U+2000 to U+200A
    (226 128 128 to 226 128 138), U+2028, U+2029 and U+202F (226 128
    168, 169 and 175), U+205F (226 129 159) and U+3000 (227 128 128). *)
Definition is_space3 (a b c : ascii) : bool :=
  let a := nat_of_ascii a in
  let b := nat_of_ascii b in
  let c := nat_of_ascii c in
  ((a =? 225) && (b =? 154) && (c =? 128)
   || (a =? 226) && (b =? 128)
      && ((128 <=? c) && (c <=? 138) || (c =? 168) || (c =? 169) || (c =? 175))
   || (a =? 226) && (b =? 129) && (c =? 159)
   || (a =? 227) && (b =? 128) && (c =? 128))%nat.

(** [string.split('\n')]: never empty. *)
Fixpoint split_lines (s : string) : list string :=
  match s with
  | EmptyString => [EmptyString]
  | String c s' =>
      if Ascii.eqb c newline then EmptyString :: split_lines s'
      else match split_lines s' with
           | [] => [String c EmptyString]
           | l :: ls => String c l :: ls
           end
  end.

(** The group of [re_indent = ^(\s+)] on a line: the white-space
    characters the line starts with. *)
Fixpoint leading_space (s : string) : string :=
  match s with
  | EmptyString => EmptyString
  | String a s1 =>
      if is_space a then String a (leading_space s1)
      else
        match s1 with
        | EmptyString => EmptyString
        | String b s2 =>
            if is_space2 a b then String a (String b (leading_space s2))
            else
              match s2 with
              | EmptyString => EmptyString
              | String c s3 =>
                  if is_space3 a b c
                  then String a (String b (String c (leading_space s3)))
                  else EmptyString
              end
        end
  end.

(** [re_indent.match(line)]: [None] when the line does not start with
    white space. *)
Definition re_indent_match (line : string) : option string :=
  match leading_space line with
  | EmptyString => None
  | ind => Some ind
  end.

Fixpoint drop (n : nat) (s : string) : string :=
  match n, s with
  | O, _ => s
  | S _, EmptyString => EmptyString
  | S n', String _ s' => drop n' s'
  end.

(** [l.replace(old, '', 1)]: the first occurrence of [old] is removed. *)
Fixpoint replace_first (old l : string) : string :=
  if String.prefix old l then drop (String.length old) l
  else match l with
       | EmptyString => EmptyString
       | String c l' => String c (replace_first old l')
       end.

Definition fix_indentation (s : string) : string :=
  let lines := split_lines s in
  let lines :=
    match re_indent_match (hd EmptyString lines) with
    | Some indent => List.map (replace_first indent) lines
    | None => lines
    end in
  String.concat (String newline EmptyString) lines.

End Indent.

(* ===================================================================== *)
(** ** Data model *)
(* ===================================================================== *)

(** [parcels.tools.error.ErrorCode]: the state tags named by [kernel.py]. *)
Module ErrorCode.

Inductive t : Set :=
| Success | Evaluate | Repeat | Delete | StopExecution
| Error | ErrorOutOfBounds | ErrorThroughSurface | ErrorTimeExtrapolation.

#[global] Instance eq_dec : EqDecision t.
Proof. solve_decision. Defined.

Definition to_nat (c : t) : nat :=
  match c with
  | Success => 0 | Evaluate => 1 | Repeat => 2 | Delete => 3
  | StopExecution => 4 | Error => 5 | ErrorOutOfBounds => 6
  | ErrorThroughSurface => 7 | ErrorTimeExtrapolation => 8
  end%nat.

Definition of_nat (n : nat) : option t :=
  match n with
  | 0 => Some Success | 1 => Some Evaluate | 2 => Some Repeat
  | 3 => Some Delete | 4 => Some StopExecution | 5 => Some Error
  | 6 => Some ErrorOutOfBounds | 7 => Some ErrorThroughSurface
  | 8 => Some ErrorTimeExtrapolation | _ => None
  end%nat.

#[global] Instance countable : Countable t.
Proof. apply (inj_countable to_nat of_nat). intros []; reflexivity. Defined.

End ErrorCode.

(** Raised conditions. The three field-access classes of [parcels.field]
    are unrelated classes derived from [Exception]; every other class
    derived from [Exception] is kept by its class name. *)
Inductive PyException : Type :=
| FieldOutOfBoundError (msg : string)
| FieldOutOfBoundSurfaceError (msg : string)
| TimeExtrapolationError (msg : string)
| AssertionError (msg : string)
| AttributeError (msg : string)
| TypeError (msg : string)
| KeyError (key : string)
| OtherException (cls msg : string).

(** The result of evaluating Python code that may raise. *)
Inductive Result (A : Type) : Type :=
| Ok (a : A)
| Raise (e : PyException).
Arguments Ok {A} a.
Arguments Raise {A} e.

(** [parcels.particle.Variable]: only its name is read. *)
Module PVariable.
Record t : Type := { name : string }.
End PVariable.

(** The particle type ([PType]) as far as the kernel reads it. *)
Module PType.
Record t : Type := {
  name : string;
  uses_jit : bool;
  _cache_key : string;
  variables : list PVariable.t
}.
End PType.

(** Values held by particle attributes. *)
Inductive PyVal : Type :=
| VFloat (q : Q)
| VCode (c : ErrorCode.t).

(** A particle object. [time], [dt] and [state] are the attributes the
    engine computes with; [exception] and [_next_dt] are plain attributes
    (not declared variables); every other attribute lives in [vars]. *)
Module Particle.

Record t : Type := {
  time : Q;
  dt : Q;
  state : ErrorCode.t;
  exception : option PyException;
  _next_dt : option Q;
  vars : gmap string Q;
  getPType : PType.t
}.

Definition set_time (q : Q) (p : t) : t :=
  {| time := q; dt := dt p; state := state p; exception := exception p;
     _next_dt := _next_dt p; vars := vars p; getPType := getPType p |}.

Definition set_dt (q : Q) (p : t) : t :=
  {| time := time p; dt := q; state := state p; exception := exception p;
     _next_dt := _next_dt p; vars := vars p; getPType := getPType p |}.

Definition set_state (c : ErrorCode.t) (p : t) : t :=
  {| time := time p; dt := dt p; state := c; exception := exception p;
     _next_dt := _next_dt p; vars := vars p; getPType := getPType p |}.

Definition set_exception (e : PyException) (p : t) : t :=
  {| time := time p; dt := dt p; state := state p; exception := Some e;
     _next_dt := _next_dt p; vars := vars p; getPType := getPType p |}.

Definition set_next_dt (n : option Q) (p : t) : t :=
  {| time := time p; dt := dt p; state := state p; exception := exception p;
     _next_dt := n; vars := vars p; getPType := getPType p |}.

Definition set_vars (m : gmap string Q) (p : t) : t :=
  {| time := time p; dt := dt p; state := state p; exception := exception p;
     _next_dt := _next_dt p; vars := m; getPType := getPType p |}.

(** [getattr(p, name)]; [None] stands for [AttributeError]. *)
Definition getattr (p : t) (name : string) : option PyVal :=
  if decide (name = "time"%string) then Some (VFloat (time p))
  else if decide (name = "dt"%string) then Some (VFloat (dt p))
  else if decide (name = "state"%string) then Some (VCode (state p))
  else VFloat <$> vars p !! name.

(** [setattr(p, name, v)]. The engine only stores values it read from
    the same attribute, so a value of the other kind never reaches the
    typed attributes; such a store leaves the particle as it is. *)
Definition setattr (p : t) (name : string) (v : PyVal) : t :=
  if decide (name = "time"%string) then
    match v with VFloat q => set_time q p | _ => p end
  else if decide (name = "dt"%string) then
    match v with VFloat q => set_dt q p | _ => p end
  else if decide (name = "state"%string) then
    match v with VCode c => set_state c p | _ => p end
  else
    match v with VFloat q => set_vars (<[name := q]> (vars p)) p | _ => p end.

(** Modelled from the spec: the particle class is not among the sources.
    Step 1 of the orchestrator resets every particle's state to
    [Evaluate]. *)
Definition reset_state (p : t) : t := set_state ErrorCode.Evaluate p.

(** Modelled from the spec: a particle without mapped recovery is marked
    [Delete]. *)
Definition delete (p : t) : t := set_state ErrorCode.Delete p.

(** Modelled from the spec: the recovery kernel signals that the
    particle has completed its recovery action. The engine sets the
    state to [Success] just before it calls the recovery kernel, and the
    signal is that the state is still [Success] afterwards. *)
Definition isComputed (p : t) : bool :=
  bool_decide (state p = ErrorCode.Success).

(** Modelled from the spec: recompute the particle's next step size. A
    step size requested for the next step ([_next_dt]) becomes the
    current one. *)
Definition update_next_dt (p : t) : t :=
  match _next_dt p with
  | Some q => set_next_dt None (set_dt q p)
  | None => p
  end.

End Particle.

(* ===================================================================== *)
(** ** Collaborators *)
(* ===================================================================== *)

(** The objects the kernel engine holds but never looks into: the
    statements of a syntax tree ([ast] nodes), the field set, and the
    mutable surroundings a kernel body may read or write when it runs
    (field data, grid chunk markers, the random generator). *)
Class Objects : Type := {
  Stmt : Type;
  FieldSet : Type;
  Env : Type
}.

(** A field argument of the generated code: its name in the C source and
    the class name of its unit converter
    ([field.units.__class__.__name__]). *)
Record Field : Type := {
  ccode_name : string;
  units_class : string
}.

Record VectorField : Type := {
  U : Field;
  V : Field;
  W : option Field
}.

Section Syntax.

Context `{Objects}.

(** [ast.FunctionDef]: the name, the positional parameter names
    ([args.args]) and the statement sequence. *)
Record FunctionDef : Type := {
  def_name : string;
  def_args : list string;
  def_body : list Stmt
}.

(** A function object: its definition, and the text
    [inspect.getsource] finds for its code ([None]: no source, the call
    raises [OSError]). *)
Record PyFunction : Type := {
  fn_def : FunctionDef;
  fn_source : option string
}.

Definition __name__ (f : PyFunction) : string := def_name (fn_def f).

(** [inspect.getfullargspec(f).args]. *)
Definition argspec_args (f : PyFunction) : list string := def_args (fn_def f).

(** What a kernel call leaves behind: the value returned ([None] for a
    body that ends without [return]) or the condition raised. *)
Inductive Outcome : Type :=
| Returns (res : option ErrorCode.t)
| Raises (e : PyException).

(** What [KernelGenerator.generate] leaves on the generator. *)
Record Generated : Type := {
  kernel_ccode : string;
  gen_field_args : list (string * Field);
  gen_vector_field_args : list (string * VectorField);
  gen_const_args : list (string * Q)
}.

(** [mpi4py]'s communicator: this process' rank and what the broadcast
    from rank 0 delivers here. *)
Record Comm : Type := {
  Get_rank : Z;
  bcast : option string -> string
}.

(** The Python runtime and the modules [kernel.py] imports. *)
Class Host : Type := {
  (** [ast.parse(source).body[0]]; [None] when the source does not parse *)
  parse : string -> option FunctionDef;
  (** [f.__code__.co_varnames] *)
  co_varnames : PyFunction -> list string;
  (** calling a function object with (particle, fieldset, time) *)
  py_call : PyFunction -> Env -> Particle.t -> FieldSet -> Q
            -> Env * Particle.t * Outcome;
  (** [pyfunc is AdvectionRK4_3D] *)
  is_AdvectionRK4_3D : PyFunction -> bool;
  (** the scan of [fieldset.W] that decides the orientation warning *)
  W_warning : FieldSet -> bool;
  (** [KernelGenerator(fieldset, ptype).generate(py_ast, funcvars)];
      an exception when a construct is not supported *)
  kernelgen : FieldSet -> PType.t -> FunctionDef -> option (list string)
              -> Result Generated;
  (** [LoopGenerator(fieldset, ptype).generate(...)] *)
  loopgen : FieldSet -> PType.t -> string -> list (string * Field)
            -> list (string * Q) -> string -> string -> string;
  (** the content of a file, when [path.isfile] holds *)
  read_file : string -> option string;
  get_cache_dir : string;
  (** [os.path.join] *)
  path_join : string -> string -> string;
  (** [MPI], [None] when [mpi4py] is not installed *)
  MPI : option Comm;
  (** [platform == 'win32'] *)
  win32 : bool;
  (** the successive values of [time.time()] *)
  clock : nat -> Q
}.

End Syntax.

Arguments FunctionDef {_}.
Arguments PyFunction {_}.
Arguments Host {_}.

(* ===================================================================== *)
(** ** The process state and its monad *)
(* ===================================================================== *)

Section Process.

Context `{Objects}.

(** What the engine does to its surroundings, in order. *)
Inductive Event : Type :=
| Warned (msg : string)
| CodeGenerated (tree : FunctionDef) (funcvars : option (list string))
| KernelCalled (f : PyFunction) (p : Particle.t) (fs : FieldSet) (t : Q)
| RecoveryCalled (f : PyFunction) (p : Particle.t) (fs : FieldSet) (t : Q)
| NativePass (endtime dt : Q)
| OutputWritten (deleted : list (option (list Particle.t))) (endtime : Q).

(** The part of the process a kernel can change: how many times the
    clock has been read, the globals of the user's module (where [exec]
    defines merged functions), the surroundings of kernel bodies, and
    the events so far (most recent last). *)
Record World : Type := {
  clock_reads : nat;
  globals : gmap string PyFunction;
  env : Env;
  log : list Event
}.

Definition M (A : Type) : Type := World -> Result A * World.

Definition ret {A} (a : A) : M A := fun w => (Ok a, w).

Definition raise {A} (e : PyException) : M A := fun w => (Raise e, w).

Definition bind {A B} (c : M A) (k : A -> M B) : M B :=
  fun w =>
    match c w with
    | (Ok a, w') => k a w'
    | (Raise e, w') => (Raise e, w')
    end.

Definition emit (ev : Event) : M unit :=
  fun w => (Ok tt, {| clock_reads := clock_reads w; globals := globals w;
                      env := env w; log := log w ++ [ev] |}).

Definition set_env (e : Env) (w : World) : World :=
  {| clock_reads := clock_reads w; globals := globals w;
     env := e; log := log w |}.

Definition add_event (ev : Event) (w : World) : World :=
  {| clock_reads := clock_reads w; globals := globals w;
     env := env w; log := log w ++ [ev] |}.

(** [exec] of a module holding one definition: binds the name. *)
Definition define (name : string) (f : PyFunction) : M unit :=
  fun w => (Ok tt, {| clock_reads := clock_reads w;
                      globals := <[name := f]> (globals w);
                      env := env w; log := log w |}).

Definition lookup_global (name : string) : M PyFunction :=
  fun w =>
    match globals w !! name with
    | Some f => (Ok f, w)
    | None => (Raise (KeyError name), w)
    end.

(** [time.time()]. *)
Definition time_time `{!Host} : M Q :=
  fun w => (Ok (clock (clock_reads w)),
            {| clock_reads := S (clock_reads w); globals := globals w;
               env := env w; log := log w |}).

End Process.

Notation "x <~ c ;; k" := (bind c (fun x => k))
  (at level 100, c at next level, right associativity).
Notation "c ;;; k" := (bind c (fun _ => k))
  (at level 100, right associativity).

(* ===================================================================== *)
(** ** [class Kernel]: construction, cache key, merge *)
(* ===================================================================== *)

Module Kernel.

Section Construction.

Context `{Objects} `{!Host}.

(** The attributes set on the JIT path only. *)
Record Jit : Type := {
  field_args : list (string * Field);
  vector_field_args : list (string * VectorField);
  const_args : list (string * Q);
  ccode : string;
  src_file : string;
  lib_file : string;
  log_file : string
}.

(** A kernel object. The handle of the loaded library ([_lib]) is not
    part of the model. *)
Record t : Type := {
  fieldset : FieldSet;
  ptype : PType.t;
  delete_cfiles : bool;
  funcname : string;
  funcvars : option (list string);
  funccode : string;
  py_ast : FunctionDef;
  pyfunc : PyFunction;
  name : string;
  jit : option Jit
}.

(** [a or b] on an optional string: [None] and the empty string are
    false. *)
Definition or_else (a : option string) (b : M string) : M string :=
  match a with
  | Some s => if decide (s = EmptyString) then b else ret s
  | None => b
  end.

(** [name in d] and [d[name] = field] for a name that is not in [d]. *)
Definition has_key (d : list (string * Field)) (k : string) : bool :=
  existsb (fun kv => bool_decide (kv.1 = k)) d.

(** Lines 140-145: the components of the vector fields join the field
    arguments under their own names, unless already there. *)
Definition add_component (d : list (string * Field))
    (c : string * option Field) : list (string * Field) :=
  if has_key d c.1 then d
  else if decide (c.1 = "not_defined"%string) then d
  else match c.2 with
       | Some fld => d ++ [(c.1, fld)]
       | None => d
       end.

Definition components (f : VectorField) : list (string * option Field) :=
  let Wname := match W f with
               | Some w => ccode_name w
               | None => "not_defined"%string
               end in
  [ (ccode_name (U f), Some (U f));
    (ccode_name (V f), Some (V f));
    (Wname, W f) ].

Definition add_vector_fields (d : list (string * Field))
    (vs : list (string * VectorField)) : list (string * Field) :=
  fold_left (fun d v => fold_left add_component (components v.2) d) vs d.

(** The string hashed by [_cache_key], and the key. *)
Definition field_keys (fa : list (string * Field)) : string :=
  String.concat "-"
    (List.map (fun nf => (nf.1 ++ ":" ++ units_class nf.2)%string) fa).

Definition key_text (kname : string) (pt : PType.t)
    (fa : list (string * Field)) (now : Q) : string :=
  (kname ++ PType._cache_key pt ++ field_keys fa
         ++ ("TIME:" ++ PyFormat.f now))%string.

Definition cache_key_at (kname : string) (pt : PType.t)
    (fa : list (string * Field)) (now : Q) : string :=
  MD5.hexdigest (key_text kname pt fa now).

(** The property [Kernel._cache_key]: [self.field_args] exists on the
    JIT path only, and every evaluation reads the clock. *)
Definition _cache_key (self : t) : M string :=
  match jit self with
  | None => raise (AttributeError "field_args")
  | Some j =>
      now <~ time_time ;;
      ret (cache_key_at (name self) (ptype self) (field_args j) now)
  end.

(** Lines 155-162 and 196-203: the base name of the three files. *)
Definition basename_of (key : M string) : M string :=
  match MPI with
  | Some comm =>
      let mpi_rank := Get_rank comm in
      b <~ (if (mpi_rank =? 0)%Z
            then (k <~ key ;; ret (Some (path_join get_cache_dir k)))
            else ret None) ;;
      ret (bcast comm b ++ "_" ++ PyFormat.d mpi_rank)%string
  | None =>
      k <~ key ;;
      ret (path_join get_cache_dir (k ++ "_0"))%string
  end.

(** Lines 133-166. *)
Definition generate_jit (fs : FieldSet) (pt : PType.t) (fname : string)
    (tree : FunctionDef) (fvars : option (list string))
    (kname c_include : string) : M Jit :=
  emit (CodeGenerated tree fvars) ;;;
  match kernelgen fs pt tree fvars with
  | Raise e => raise e
  | Ok g =>
      let fa := add_vector_fields (gen_field_args g) (gen_vector_field_args g) in
      let c_include_str := match read_file c_include with
                           | Some text => text
                           | None => c_include
                           end in
      let code := loopgen fs pt fname fa (gen_const_args g)
                          (kernel_ccode g) c_include_str in
      basename <~ basename_of
                    (now <~ time_time ;; ret (cache_key_at kname pt fa now)) ;;
      ret {| field_args := fa;
             vector_field_args := gen_vector_field_args g;
             const_args := gen_const_args g;
             ccode := code;
             src_file := (basename ++ ".c")%string;
             lib_file := (basename ++ "." ++ (if win32 then "dll" else "so"))%string;
             log_file := (basename ++ ".log")%string |}
  end.

Definition arity_message : string :=
  "Since Parcels v2.0, kernels do only take 3 arguments: particle, fieldset, time !! AND !! Argument order in field interpolation is time, depth, lat, lon.".

Definition orientation_message : string :=
  "Note that in AdvectionRK4_3D, vertical velocity is assumed positive towards increasing z.".

(** [Kernel.__init__]. *)
Definition __init__ (fs : FieldSet) (pt : PType.t)
    (pyfunc_arg : option PyFunction) (funcname_arg funccode_arg : option string)
    (py_ast_arg : option FunctionDef) (funcvars_arg : option (list string))
    (c_include : string) (delete_cfiles_arg : bool) : M t :=
  (* self.funcname = funcname or pyfunc.__name__ *)
  fname <~ or_else funcname_arg
             (match pyfunc_arg with
              | Some f => ret (__name__ f)
              | None => raise (AttributeError "__name__")
              end) ;;
  (* if pyfunc is AdvectionRK4_3D: ... logger.warning_once *)
  (match pyfunc_arg with
   | Some f => if is_AdvectionRK4_3D f && W_warning fs
               then emit (Warned orientation_message) else ret tt
   | None => ret tt
   end) ;;;
  let fvars := match funcvars_arg with
               | Some vs => Some vs
               | None => match pyfunc_arg with
                         | Some f => Some (co_varnames f)
                         | None => None
                         end
               end in
  (* self.funccode = funccode or inspect.getsource(pyfunc.__code__) *)
  fcode <~ or_else funccode_arg
             (match pyfunc_arg with
              | Some f => match fn_source f with
                          | Some text => ret text
                          | None => raise (OtherException "OSError" "could not get source code")
                          end
              | None => raise (AttributeError "__code__")
              end) ;;
  (* self.py_ast = py_ast or parse(fix_indentation(self.funccode)).body[0] *)
  tree <~ (match py_ast_arg with
           | Some tr => ret tr
           | None => match parse (Indent.fix_indentation fcode) with
                     | Some tr => ret tr
                     | None => raise (OtherException "SyntaxError" "invalid syntax")
                     end
           end) ;;
  (* if pyfunc is None: exec(...); self.pyfunc = user_ctx[self.funcname] *)
  f <~ (match pyfunc_arg with
        | Some f => ret f
        | None =>
            define (def_name tree) {| fn_def := tree; fn_source := None |} ;;;
            lookup_global fname
        end) ;;
  (* assert numkernelargs == 3 *)
  (if decide (length (argspec_args f) = 3%nat) then ret tt
   else raise (AssertionError arity_message)) ;;;
  let kname := (PType.name pt ++ fname)%string in
  j <~ (if PType.uses_jit pt
        then (j <~ generate_jit fs pt fname tree fvars kname c_include ;; ret (Some j))
        else ret None) ;;
  ret {| fieldset := fs; ptype := pt; delete_cfiles := delete_cfiles_arg;
         funcname := fname; funcvars := fvars; funccode := fcode;
         py_ast := tree; pyfunc := f; name := kname; jit := j |}.

(** [Kernel.merge]. *)
Definition merge (self kernel : t) : M t :=
  let fname := (funcname self ++ funcname kernel)%string in
  let func_ast := {| def_name := fname;
                     def_args := def_args (py_ast self);
                     def_body := def_body (py_ast self) ++ def_body (py_ast kernel) |} in
  let del := delete_cfiles self && delete_cfiles kernel in
  match funcvars self, funcvars kernel with
  | Some vs1, Some vs2 =>
      __init__ (fieldset self) (ptype self) None (Some fname)
               (Some (funccode self ++ funccode kernel)%string)
               (Some func_ast) (Some (vs1 ++ vs2)) EmptyString del
  | _, _ => raise (TypeError "unsupported operand type(s) for +")
  end.

(** [Kernel.__add__] and [Kernel.__radd__]: the other operand is a
    kernel ([inl]) or a plain callable ([inr]). *)
Definition wrap (self : t) (kernel : t + PyFunction) : M t :=
  match kernel with
  | inl k => ret k
  | inr f => __init__ (fieldset self) (ptype self) (Some f) None None None None
                      EmptyString true
  end.

Definition __add__ (self : t) (kernel : t + PyFunction) : M t :=
  k <~ wrap self kernel ;; merge self k.

Definition __radd__ (self : t) (kernel : t + PyFunction) : M t :=
  k <~ wrap self kernel ;; merge k self.

End Construction.

End Kernel.

(* ===================================================================== *)
(** ** Execution: the particle set and the engine's collaborators *)
(* ===================================================================== *)

Section Population.

Context `{Objects} `{!Host}.

(** The particle set: its sub-batches and its field set. Particles are
    objects shared between [pset.particles_a] and every list built from
    it; the model addresses them by position (sub-batch, index). *)
Record PSet : Type := {
  particles_a : list (list Particle.t);
  pset_fieldset : FieldSet
}.

Definition with_particles (ps : list (list Particle.t)) (pset : PSet) : PSet :=
  {| particles_a := ps; pset_fieldset := pset_fieldset pset |}.

(** What [execute] needs from modules that are not the kernel's own. *)
Class Engine : Type := {
  (** [f.data = np.array(f.data)] over the fields of the field set *)
  materialize : FieldSet -> Env -> Env;
  (** lines 405-407: staged chunks become active *)
  stage_chunks : FieldSet -> Env -> Env;
  (** lines 222-256 of [execute_jit]: the grid count assertion and the
      marshalling of grids and fields *)
  prepare_native : Kernel.t -> PSet -> Env -> Result Env;
  (** the compiled [particle_loop] on one sub-batch *)
  particle_loop : Kernel.t -> list Particle.t -> Q -> Q -> Env
                  -> Env * list Particle.t;
  (** [parcels.tools.error.recovery_map] *)
  recovery_base_map : gmap ErrorCode.t PyFunction
}.

End Population.

Arguments PSet {_}.
Arguments Engine {_}.

(** Computations of the execution loops: [None] when the fuel given to a
    [while] loop runs out, otherwise a value or a propagating exception
    together with the world reached. *)
Section Exec.

Context `{Objects}.

Definition E (A : Type) : Type := World -> option (Result A * World).

Definition retE {A} (a : A) : E A := fun w => Some (Ok a, w).

Definition raiseE {A} (e : PyException) : E A := fun w => Some (Raise e, w).

Definition bindE {A B} (c : E A) (k : A -> E B) : E B :=
  fun w =>
    match c w with
    | Some (Ok a, w') => k a w'
    | Some (Raise e, w') => Some (Raise e, w')
    | None => None
    end.

Definition emitE (ev : Event) : E unit := fun w => Some (Ok tt, add_event ev w).

Definition modify_env (g : Env -> Env) : E unit :=
  fun w => Some (Ok tt, set_env (g (env w)) w).

(** [for x in xs], threading an accumulator. *)
Fixpoint for_each {A S} (body : A -> S -> E (A * S)) (xs : list A) (s : S)
    : E (list A * S) :=
  match xs with
  | [] => retE ([], s)
  | x :: xs' =>
      bindE (body x s) (fun r =>
      bindE (for_each body xs' r.2) (fun rs =>
      retE (r.1 :: rs.1, rs.2)))
  end.

End Exec.

Notation "x <- c ;;; k" := (bindE c (fun x => k))
  (at level 100, c at next level, right associativity).
Notation "c ;;;; k" := (bindE c (fun _ => k))
  (at level 100, right associativity).

(* ===================================================================== *)
(** ** [Kernel.execute_python] *)
(* ===================================================================== *)

Section Execution.

Context `{Objects} `{!Host} `{!Engine}.

Local Open Scope Q_scope.

Import ErrorCode.

(** The [except] clauses of lines 316-327, in order. *)
Definition code_of_exception (e : PyException) : ErrorCode.t :=
  match e with
  | FieldOutOfBoundError _ => ErrorOutOfBounds
  | FieldOutOfBoundSurfaceError _ => ErrorThroughSurface
  | TimeExtrapolationError _ => ErrorTimeExtrapolation
  | _ => Error
  end.

(** Lines 300-301: the declared variables are copied into [p_var_back];
    a declared variable the particle does not have raises. *)
Fixpoint backup (vs : list PVariable.t) (p : Particle.t)
    (p_var_back : gmap string PyVal) : Result (gmap string PyVal) :=
  match vs with
  | [] => Ok p_var_back
  | v :: vs' =>
      match Particle.getattr p (PVariable.name v) with
      | Some x => backup vs' p (<[PVariable.name v := x]> p_var_back)
      | None => Raise (AttributeError (PVariable.name v))
      end
  end.

(** Lines 348-350: every declared variable but [dt] and [state] gets its
    backed-up value again. The backup of the same pass has written every
    name that is read here. *)
Fixpoint rollback (vs : list PVariable.t) (p_var_back : gmap string PyVal)
    (p : Particle.t) : Particle.t :=
  match vs with
  | [] => p
  | v :: vs' =>
      let n := PVariable.name v in
      if bool_decide (n ∈ ["dt"; "state"]%string) then rollback vs' p_var_back p
      else match p_var_back !! n with
           | Some x => rollback vs' p_var_back (Particle.setattr p n x)
           | None => rollback vs' p_var_back p
           end
  end.

(** Lines 302-327: the [try] statement. The result is the outcome [res],
    the particle as the call left it, and the world. *)
Definition try_kernel (self : Kernel.t) (fs : FieldSet) (sign_dt dt_pos : Q)
    (p : Particle.t) (w : World) : ErrorCode.t * Particle.t * World :=
  let pdt_prekernels := sign_dt * dt_pos in
  let p := Particle.set_dt pdt_prekernels p in
  let state_prev := Particle.state p in
  let w := add_event (KernelCalled (Kernel.pyfunc self) p fs (Particle.time p)) w in
  match py_call (Kernel.pyfunc self) (env w) p fs (Particle.time p) with
  | (env', p', Returns r) =>
      let res := match r with None => Success | Some c => c end in
      let res := if bool_decide (res = Success)
                    && negb (bool_decide (Particle.state p' = state_prev))
                 then Particle.state p' else res in
      let res := if bool_decide (res = Success)
                    && negb (Np.isclose (Particle.dt p') pdt_prekernels)
                 then Repeat else res in
      (res, p', set_env env' w)
  | (env', p', Raises e) =>
      (code_of_exception e, Particle.set_exception e p', set_env env' w)
  end.

(** The variables of the [while] loop of line 298. *)
Record Loop : Type := {
  cur : Particle.t;
  dt_pos : Q;
  sign_end_part : Q;
  p_var_back : gmap string PyVal
}.

(** Lines 330-344: the outcome is [Success] or [Delete]. The boolean
    tells whether the [break] of line 344 is taken. *)
Definition advance (endtime dt sign_dt : Q) (res : ErrorCode.t)
    (p : Particle.t) (back : gmap string PyVal) : Loop * bool :=
  let p := Particle.set_time (Particle.time p + Particle.dt p) p in
  let p := Particle.update_next_dt p in
  let dt_pos := Qmin (Qabs (Particle.dt p)) (Qabs (endtime - Particle.time p)) in
  let sign_end_part := Np.sign (endtime - Particle.time p) in
  let res := if negb (bool_decide (res = Delete))
                && negb (Np.isclose dt_pos 0)
                && Qeq_bool sign_end_part sign_dt
             then Evaluate else res in
  let dt_pos := if negb (Qeq_bool sign_end_part sign_dt) then 0 else dt_pos in
  let p := Particle.set_state res p in
  ({| cur := p; dt_pos := dt_pos; sign_end_part := sign_end_part;
      p_var_back := back |}, Np.isclose dt 0).

(** Lines 345-356: any other outcome; the loop is left. *)
Definition retreat (ptype : PType.t) (endtime sign_dt : Q) (res : ErrorCode.t)
    (p : Particle.t) (back : gmap string PyVal) : Loop :=
  let p := Particle.set_state res p in
  let p := rollback (PType.variables ptype) back p in
  let dt_pos := Qmin (Qabs (Particle.dt p)) (Qabs (endtime - Particle.time p)) in
  let sign_end_part := Np.sign (endtime - Particle.time p) in
  let dt_pos := if negb (Qeq_bool sign_end_part sign_dt) then 0 else dt_pos in
  {| cur := p; dt_pos := dt_pos; sign_end_part := sign_end_part;
     p_var_back := back |}.

(** One turn of the loop body (lines 300-356); the boolean tells whether
    the loop is left by [break]. *)
Definition loop_body (self : Kernel.t) (fs : FieldSet) (ptype : PType.t)
    (endtime dt sign_dt : Q) (l : Loop) : E (Loop * bool) :=
  fun w =>
    match backup (PType.variables ptype) (cur l) (p_var_back l) with
    | Raise e => Some (Raise e, w)
    | Ok back =>
        let '(res, p, w') := try_kernel self fs sign_dt (dt_pos l) (cur l) w in
        if bool_decide (res ∈ [Success; Delete])
        then Some (Ok (advance endtime dt sign_dt res p back), w')
        else Some (Ok (retreat ptype endtime sign_dt res p back, true), w')
    end.

(** Line 298: [while p.state in [Evaluate, Repeat] or np.isclose(dt, 0)]. *)
Definition loop_guard (dt : Q) (p : Particle.t) : bool :=
  bool_decide (Particle.state p ∈ [Evaluate; Repeat]) || Np.isclose dt 0.

Fixpoint while_loop (fuel : nat) (self : Kernel.t) (fs : FieldSet)
    (ptype : PType.t) (endtime dt sign_dt : Q) (l : Loop) : E Loop :=
  if loop_guard dt (cur l) then
    match fuel with
    | O => fun _ => None
    | S fuel' =>
        r <- loop_body self fs ptype endtime dt sign_dt l ;;;
        if (r.2 : bool) then retE r.1
        else while_loop fuel' self fs ptype endtime dt sign_dt r.1
    end
  else retE l.

(** Lines 285-356: the body of [for p in subfield]. *)
Definition run_particle (fuel : nat) (self : Kernel.t) (fs : FieldSet)
    (endtime dt sign_dt : Q) (p : Particle.t) (back : gmap string PyVal)
    : E (Particle.t * gmap string PyVal) :=
  let ptype := Particle.getPType p in
  let sign_end_part := Np.sign (endtime - Particle.time p) in
  let dt_pos := Qmin (Qabs (Particle.dt p)) (Qabs (endtime - Particle.time p)) in
  if (negb (Qeq_bool sign_end_part sign_dt) || Np.isclose dt_pos 0)
     && negb (Np.isclose dt 0)
  then
    let p := if Qle_bool (Qabs endtime) (Qabs (Particle.time p))
             then Particle.set_state Success p else p in
    retE (p, back)
  else
    l <- while_loop fuel self fs ptype endtime dt sign_dt
           {| cur := p; dt_pos := dt_pos; sign_end_part := sign_end_part;
              p_var_back := back |} ;;;
    retE (cur l, p_var_back l).

(** [Kernel.execute_python]. *)
Definition execute_python (fuel : nat) (self : Kernel.t) (pset : PSet)
    (endtime dt : Q) : E PSet :=
  let sign_dt := Np.sign dt in
  modify_env (materialize (Kernel.fieldset self)) ;;;;
  r <- for_each
         (for_each (run_particle fuel self (pset_fieldset pset) endtime dt sign_dt))
         (particles_a pset) ∅ ;;;
  retE (with_particles r.1 pset).

End Execution.

(* ===================================================================== *)
(** ** [Kernel.execute_jit] and [Kernel.execute] *)
(* ===================================================================== *)

Section Orchestration.

Context `{Objects} `{!Host} `{!Engine}.

Local Open Scope Q_scope.

Import ErrorCode.

(** [Kernel.execute_jit]: the compiled loop runs once per sub-batch. *)
Definition execute_jit (self : Kernel.t) (pset : PSet) (endtime dt : Q)
    : E PSet :=
  fun w =>
    match prepare_native self pset (env w) with
    | Raise e => Some (Raise e, w)
    | Ok env0 =>
        let w := add_event (NativePass endtime dt) (set_env env0 w) in
        let step := fun (acc : list (list Particle.t) * Env) subfield =>
                      let r := particle_loop self subfield endtime dt acc.2 in
                      (acc.1 ++ [r.2], r.1) in
        let r := fold_left step (particles_a pset) ([], env w) in
        Some (Ok (with_particles r.1 pset), set_env r.2 w)
    end.

(** Lines 410-413 and 443-446: one engine pass. *)
Definition engine_pass (fuel : nat) (self : Kernel.t) (pset : PSet)
    (endtime dt : Q) : E PSet :=
  if PType.uses_jit (Kernel.ptype self)
  then execute_jit self pset endtime dt
  else execute_python fuel self pset endtime dt.

(** [enumerate(subfield)] restricted to the particles that signalled
    deletion: their indices and the particles themselves. *)
Fixpoint deleted_from (i : nat) (subfield : list Particle.t)
    : list nat * list Particle.t :=
  match subfield with
  | [] => ([], [])
  | p :: ps =>
      let r := deleted_from (S i) ps in
      if bool_decide (Particle.state p = Delete)
      then (i :: r.1, p :: r.2) else r
  end.

(** Modelled from the spec: the particle container is not among the
    sources. [remove(indices-per-subbatch)] takes the particles at the
    listed indices out of each sub-batch. *)
Fixpoint remove_at (i : nat) (idx : list nat) (subfield : list Particle.t)
    : list Particle.t :=
  match subfield with
  | [] => []
  | p :: ps =>
      if bool_decide (i ∈ idx) then remove_at (S i) idx ps
      else p :: remove_at (S i) idx ps
  end.

Definition pset_remove (indices : list (option (list nat))) (pset : PSet) : PSet :=
  with_particles
    (zip_with (fun idx subfield =>
                 match idx with
                 | Some l => remove_at 0 l subfield
                 | None => subfield
                 end) indices (particles_a pset))
    pset.

(** [remove_deleted] (lines 370-396). [output_file] tells whether an
    output file was given. *)
Definition remove_deleted (output_file : bool) (endtime : Q) (pset : PSet)
    : E PSet :=
  let found := List.map (deleted_from 0) (particles_a pset) in
  let indices := List.map (fun r : list nat * list Particle.t =>
                             if bool_decide (0 < length r.2)%nat
                             then Some r.1 else None) found in
  let dparticles := List.map (fun r : list nat * list Particle.t =>
                                if bool_decide (0 < length r.2)%nat
                                then Some r.2 else None) found in
  (if output_file then emitE (OutputWritten dparticles endtime) else retE tt) ;;;;
  retE (pset_remove indices pset).

(** Lines 398-403: the recovery map of this call. *)
Definition resolve_recovery (recovery : option (gmap ErrorCode.t PyFunction))
    : gmap ErrorCode.t PyFunction :=
  let recovery :=
    match recovery with
    | None => ∅
    | Some r =>
        match r !! ErrorOutOfBounds, r !! ErrorThroughSurface with
        | Some k, None => <[ErrorThroughSurface := k]> r
        | _, _ => r
        end
    end in
  recovery ∪ recovery_base_map.

(** The positions of the particles of lines 420 and 449. *)
Definition is_error (p : Particle.t) : bool :=
  negb (bool_decide (Particle.state p ∈ [Success; Evaluate])).

Fixpoint errors_in (i j : nat) (subfield : list Particle.t) : list (nat * nat) :=
  match subfield with
  | [] => []
  | p :: ps =>
      if is_error p then (i, j) :: errors_in i (S j) ps else errors_in i (S j) ps
  end.

Fixpoint error_positions (i : nat) (ps : list (list Particle.t)) : list (nat * nat) :=
  match ps with
  | [] => []
  | subfield :: rest => errors_in i 0 subfield ++ error_positions (S i) rest
  end.

Definition particle_at (ps : list (list Particle.t)) (pos : nat * nat)
    : option Particle.t :=
  ps !! pos.1 ≫= fun subfield => subfield !! pos.2.

Definition store_at (ps : list (list Particle.t)) (pos : nat * nat)
    (p : Particle.t) : list (list Particle.t) :=
  alter (fun subfield => <[pos.2 := p]> subfield) pos.1 ps.

(** How the recovery [for] loop of line 424 ends: it runs to its end, or
    the [return] of line 426 leaves [execute]. *)
Inductive Flow : Type := Completed | Returned.

(** Lines 425-437 for one error particle; [None] is the [return]. *)
Definition recover (self : Kernel.t) (recovery_map : gmap ErrorCode.t PyFunction)
    (p : Particle.t) : E (option Particle.t) :=
  if bool_decide (Particle.state p = StopExecution) then retE None
  else if bool_decide (Particle.state p = Repeat)
  then retE (Some (Particle.reset_state p))
  else match recovery_map !! Particle.state p with
       | Some recovery_kernel =>
           let p := Particle.set_state Success p in
           fun w =>
             let w := add_event (RecoveryCalled recovery_kernel p
                                   (Kernel.fieldset self) (Particle.time p)) w in
             match py_call recovery_kernel (env w) p (Kernel.fieldset self)
                           (Particle.time p) with
             | (env', p', Returns _) =>
                 Some (Ok (Some (if Particle.isComputed p'
                                 then Particle.reset_state p' else p')),
                       set_env env' w)
             | (env', p', Raises e) => Some (Raise e, set_env env' w)
             end
       | None =>
           emitE (Warned "Deleting particle because of bug in #749 and #737") ;;;;
           retE (Some (Particle.delete p))
       end.

(** Lines 424-437: [for p in error_particles]. *)
Fixpoint recover_all (self : Kernel.t) (recovery_map : gmap ErrorCode.t PyFunction)
    (error_particles : list (nat * nat)) (ps : list (list Particle.t))
    : E (Flow * list (list Particle.t)) :=
  match error_particles with
  | [] => retE (Completed, ps)
  | pos :: rest =>
      match particle_at ps pos with
      | None => recover_all self recovery_map rest ps
      | Some p =>
          r <- recover self recovery_map p ;;;
          match r with
          | None => retE (Returned, ps)
          | Some p' => recover_all self recovery_map rest (store_at ps pos p')
          end
      end
  end.

(** Lines 422-449: [while len(error_particles) > 0]. *)
Fixpoint recovery_loop (fuel : nat) (self : Kernel.t)
    (recovery_map : gmap ErrorCode.t PyFunction) (output_file : bool)
    (endtime dt : Q) (pset : PSet) : E (Flow * PSet) :=
  match error_positions 0 (particles_a pset) with
  | [] => retE (Completed, pset)
  | error_particles =>
      match fuel with
      | O => fun _ => None
      | S fuel' =>
          r <- recover_all self recovery_map error_particles (particles_a pset) ;;;
          match r.1 with
          | Returned => retE (Returned, with_particles r.2 pset)
          | Completed =>
              pset <- remove_deleted output_file endtime (with_particles r.2 pset) ;;;
              pset <- engine_pass fuel self pset endtime dt ;;;
              recovery_loop fuel' self recovery_map output_file endtime dt pset
          end
      end
  end.

Definition small_dt_message : string :=
  "'dt' is too small, causing numerical accuracy limit problems.".

(** [Kernel.execute]. The result tells which way the call returned:
    [Completed] at the end of the body, [Returned] through line 426. *)
Definition execute (fuel : nat) (self : Kernel.t) (pset : PSet) (endtime dt : Q)
    (recovery : option (gmap ErrorCode.t PyFunction))
    (output_file execute_once : bool) : E (Flow * PSet) :=
  let pset := with_particles
                (List.map (List.map Particle.reset_state) (particles_a pset)) pset in
  (if Np.Qlt_bool (Qabs dt) (1 # 1000000) && negb execute_once
   then emitE (Warned small_dt_message) else retE tt) ;;;;
  let recovery_map := resolve_recovery recovery in
  modify_env (stage_chunks (pset_fieldset pset)) ;;;;
  pset <- engine_pass fuel self pset endtime dt ;;;
  pset <- remove_deleted output_file endtime pset ;;;
  recovery_loop fuel self recovery_map output_file endtime dt pset.

End Orchestration.

(* ===================================================================== *)
(** ** The compiled library: [compile], [load_lib], [remove_lib], [__del__] *)
(* ===================================================================== *)

(** The compiler of [parcels.compiler] and the loader of the platform. *)
Class Toolchain : Type := {
  (** [open(path, 'w')] succeeds *)
  writable : string -> bool;
  (** [compiler.compile(src, lib, log)] on the files there are: what it
      raises, if anything, and the files it leaves *)
  compiler_compile : gmap string string -> string -> string -> string
                     -> Result unit * gmap string string;
  (** the loader accepts a file with this content *)
  loadable : string -> bool;
  (** a library with this content exports [particle_loop] *)
  exports_particle_loop : string -> bool
}.

Section Lifecycle.

Context `{Objects} `{!Host} `{!Toolchain}.

(** The process a kernel object lives in: the world of the constructor,
    the files on disk with their contents, the references to loaded
    libraries that are open (each with the file it was loaded from), the
    number of references given out so far, and the lines logged at level
    [info]. *)
Record Process : Type := {
  world : World;
  files : gmap string string;
  libraries : gmap nat string;
  handles : nat;
  infos : list string
}.

Definition with_world (w : World) (p : Process) : Process :=
  {| world := w; files := files p; libraries := libraries p;
     handles := handles p; infos := infos p |}.

Definition with_files (fs : gmap string string) (p : Process) : Process :=
  {| world := world p; files := fs; libraries := libraries p;
     handles := handles p; infos := infos p |}.

(** A kernel object with the attributes its methods assign: [_lib], the
    loaded library or [None], and [_function], unset until [load_lib]
    binds it. The names of the three files are in [Kernel.jit]. *)
Record KernelObject : Type := {
  this : Kernel.t;
  _lib : option nat;
  _function : option nat
}.

(** Line 75: the constructor sets [_lib] to [None]. *)
Definition new (k : Kernel.t) : KernelObject :=
  {| this := k; _lib := None; _function := None |}.

Definition set_lib (l : option nat) (self : KernelObject) : KernelObject :=
  {| this := this self; _lib := l; _function := _function self |}.

Definition set_function (f : option nat) (self : KernelObject) : KernelObject :=
  {| this := this self; _lib := _lib self; _function := f |}.

(** Lines 205-207: the three names over a new base name. *)
Definition rename (basename : string) (self : KernelObject) : KernelObject :=
  match Kernel.jit (this self) with
  | None => self
  | Some j =>
      let j' := {| Kernel.field_args := Kernel.field_args j;
                   Kernel.vector_field_args := Kernel.vector_field_args j;
                   Kernel.const_args := Kernel.const_args j;
                   Kernel.ccode := Kernel.ccode j;
                   Kernel.src_file := (basename ++ ".c")%string;
                   Kernel.lib_file :=
                     (basename ++ "." ++ (if win32 then "dll" else "so"))%string;
                   Kernel.log_file := (basename ++ ".log")%string |} in
      let k := this self in
      {| this := {| Kernel.fieldset := Kernel.fieldset k;
                    Kernel.ptype := Kernel.ptype k;
                    Kernel.delete_cfiles := Kernel.delete_cfiles k;
                    Kernel.funcname := Kernel.funcname k;
                    Kernel.funcvars := Kernel.funcvars k;
                    Kernel.funccode := Kernel.funccode k;
                    Kernel.py_ast := Kernel.py_ast k;
                    Kernel.pyfunc := Kernel.pyfunc k;
                    Kernel.name := Kernel.name k;
                    Kernel.jit := Some j' |};
         _lib := _lib self; _function := _function self |}
  end.

(** [path.isfile]. *)
Definition isfile (fs : gmap string string) (path : string) : bool :=
  bool_decide (is_Some (fs !! path)).

(** [[remove(s) for s in paths]]: [os.remove] raises on a file that is
    not there, and the files before it are gone by then. *)
Fixpoint remove_all (paths : list string) (fs : gmap string string)
    : Result unit * gmap string string :=
  match paths with
  | [] => (Ok tt, fs)
  | s :: rest =>
      match fs !! s with
      | Some _ => remove_all rest (delete s fs)
      | None => (Raise (OtherException "FileNotFoundError" s), fs)
      end
  end.

(** [_ctypes.FreeLibrary(h)] on Windows, [_ctypes.dlclose(h)]
    elsewhere. *)
Definition close_library (h : nat) (p : Process) : Process :=
  {| world := world p; files := files p; libraries := delete h (libraries p);
     handles := handles p; infos := infos p |}.

(** [Kernel.__del__] (lines 168-177). *)
Definition __del__ (self : KernelObject) (p : Process)
    : Result unit * KernelObject * Process :=
  match _lib self with
  | None => (Ok tt, self, p)
  | Some h =>
      let p := close_library h p in
      let self := set_lib None self in
      match Kernel.jit (this self) with
      | None => (Raise (AttributeError "lib_file"), self, p)
      | Some j =>
          if isfile (files p) (Kernel.lib_file j) && Kernel.delete_cfiles (this self)
          then
            let r := remove_all [Kernel.src_file j; Kernel.lib_file j; Kernel.log_file j]
                                (files p) in
            (r.1, self, with_files r.2 p)
          else (Ok tt, self, p)
      end
  end.

(** [Kernel.remove_lib] (lines 186-207). *)
Definition remove_lib (self : KernelObject) (p : Process)
    : Result unit * KernelObject * Process :=
  let sp := match _lib self with
            | Some h => (set_lib None self, close_library h p)
            | None => (self, p)
            end in
  let self := sp.1 in
  let p := sp.2 in
  match Kernel.jit (this self) with
  | None => (Raise (AttributeError "lib_file"), self, p)
  | Some j =>
      if isfile (files p) (Kernel.lib_file j) then
        match remove_all [Kernel.src_file j; Kernel.lib_file j; Kernel.log_file j]
                         (files p) with
        | (Raise e, fs) => (Raise e, self, with_files fs p)
        | (Ok _, fs) =>
            let p := with_files fs p in
            match Kernel.basename_of (Kernel._cache_key (this self)) (world p) with
            | (Raise e, w) => (Raise e, self, with_world w p)
            | (Ok basename, w) => (Ok tt, rename basename self, with_world w p)
            end
        end
      else (Ok tt, self, p)
  end.

(** [Kernel.compile] (lines 209-214). *)
Definition compile (self : KernelObject) (p : Process)
    : Result unit * KernelObject * Process :=
  match Kernel.jit (this self) with
  | None => (Raise (AttributeError "src_file"), self, p)
  | Some j =>
      if writable (Kernel.src_file j) then
        let fs := <[Kernel.src_file j := Kernel.ccode j]> (files p) in
        match compiler_compile fs (Kernel.src_file j) (Kernel.lib_file j)
                               (Kernel.log_file j) with
        | (Raise e, fs') => (Raise e, self, with_files fs' p)
        | (Ok _, fs') =>
            (Ok tt, self,
             {| world := world p; files := fs'; libraries := libraries p;
                handles := handles p;
                infos := infos p ++ [("Compiled " ++ Kernel.name (this self)
                                        ++ " ==> " ++ Kernel.lib_file j)%string] |})
        end
      else (Raise (OtherException "OSError" (Kernel.src_file j)), self, p)
  end.

(** [Kernel.load_lib] (lines 216-218): the library is loaded and
    assigned to [_lib], then its [particle_loop] is looked up. *)
Definition load_lib (self : KernelObject) (p : Process)
    : Result unit * KernelObject * Process :=
  match Kernel.jit (this self) with
  | None => (Raise (AttributeError "lib_file"), self, p)
  | Some j =>
      match files p !! Kernel.lib_file j with
      | None => (Raise (OtherException "OSError" "no file with expected extension"),
                 self, p)
      | Some image =>
          if loadable image then
            let h := handles p in
            let p := {| world := world p; files := files p;
                        libraries := <[h := Kernel.lib_file j]> (libraries p);
                        handles := S h; infos := infos p |} in
            let self := set_lib (Some h) self in
            if exports_particle_loop image
            then (Ok tt, set_function (Some h) self, p)
            else (Raise (AttributeError "particle_loop"), self, p)
          else (Raise (OtherException "OSError" (Kernel.lib_file j)), self, p)
      end
  end.

End Lifecycle.

(* ===================================================================== *)
(** ** [Field.time_index] ([parcels/field.py]) *)
(* ===================================================================== *)

Module FieldData.

Local Open Scope Q_scope.

(** What [time_index] reads and writes of a [Field] object: the time
    axis [self.time], and [self.time_index_cache], an [LRUCache] of size
    one, which holds the last argument with its result, or nothing. The
    module stands beside the record [Field] above, which has what a
    kernel reads of a field. *)
Record t : Type := {
  time : list Q;
  time_index_cache : option (Q * nat)
}.

(** Lines 27 and 39: the time axis given, or one zero, and an empty
    cache. *)
Definition __init__ (time_arg : option (list Q)) : t :=
  {| time := match time_arg with
             | None => [0]
             | Some ts => ts
             end;
     time_index_cache := None |}.

(** The index of the first [True] of a list of booleans. *)
Fixpoint first_true (bs : list bool) : option nat :=
  match bs with
  | [] => None
  | b :: rest => if b then Some O else S <$> first_true rest
  end.

(** [np.argmax(self.time >= time)]: the place of the first greatest
    element, that is of the first [True], or 0 when every element is
    [False]; [np.argmax] raises on an empty array. *)
Definition argmax_ge (ts : list Q) (time : Q) : Result nat :=
  match ts with
  | [] => Raise (OtherException "ValueError"
                   "attempt to get argmax of an empty sequence")
  | _ => Ok (default O (first_true (List.map (fun x => Qle_bool time x) ts)))
  end.

(** [time_index] under [cachedmethod]: the cache is asked first; a
    result that had to be computed replaces what the cache held, and an
    exception leaves the cache as it is. *)
Definition time_index (self : t) (time_arg : Q) : Result nat * t :=
  let compute :=
    match argmax_ge (time self) time_arg with
    | Ok v => (Ok v, {| time := time self; time_index_cache := Some (time_arg, v) |})
    | Raise e => (Raise e, self)
    end in
  match time_index_cache self with
  | Some (k, v) => if Qeq_bool k time_arg then (Ok v, self) else compute
  | None => compute
  end.

End FieldData.

(* ===================================================================== *)
(** ** Vocabulary of the statements about construction *)
(* ===================================================================== *)

Section ConstructionVocabulary.

Context `{Objects} `{!Host}.

(** The error of the arity assertion (the spec's [ArityError]). *)
Definition ArityError : PyException := AssertionError Kernel.arity_message.

(** The calls of the code generator recorded in a log. *)
Definition is_codegen (ev : Event) : bool :=
  match ev with CodeGenerated _ _ => true | _ => false end.

Definition codegen_calls (w : World) : list Event :=
  List.filter is_codegen (log w).

(** What the constructor settles on for a callable [f]: the function
    name (line 79), the free variables (lines 92-97), the source text
    (line 98) and the syntax tree (line 100); [None] when the step
    raises. *)
Definition name_for (f : PyFunction) (funcname : option string) : string :=
  match funcname with
  | Some s => if decide (s = EmptyString) then __name__ f else s
  | None => __name__ f
  end.

Definition funcvars_for (f : PyFunction) (funcvars : option (list string))
    : option (list string) :=
  match funcvars with
  | Some vs => Some vs
  | None => Some (co_varnames f)
  end.

Definition source_for (f : PyFunction) (funccode : option string) : option string :=
  match funccode with
  | Some s => if decide (s = EmptyString) then fn_source f else Some s
  | None => fn_source f
  end.

Definition tree_for (py_ast : option FunctionDef) (text : string)
    : option FunctionDef :=
  match py_ast with
  | Some tr => Some tr
  | None => parse (Indent.fix_indentation text)
  end.

(** The world after the orientation warning of lines 80-91. *)
Definition warned (fs : FieldSet) (f : PyFunction) (w : World) : World :=
  if is_AdvectionRK4_3D f && W_warning fs
  then add_event (Warned Kernel.orientation_message) w else w.

(** The kernel object the constructor assembles. *)
Definition assemble (fs : FieldSet) (pt : PType.t) (del : bool) (fname : string)
    (fvars : option (list string)) (fcode : string) (tree : FunctionDef)
    (f : PyFunction) (j : option Kernel.Jit) : Kernel.t :=
  {| Kernel.fieldset := fs; Kernel.ptype := pt; Kernel.delete_cfiles := del;
     Kernel.funcname := fname; Kernel.funcvars := fvars; Kernel.funccode := fcode;
     Kernel.py_ast := tree; Kernel.pyfunc := f;
     Kernel.name := (PType.name pt ++ fname)%string; Kernel.jit := j |}.

(** Lines 130-166: the constructor after the arity assertion. *)
Definition finish (fs : FieldSet) (pt : PType.t) (del : bool) (fname : string)
    (fvars : option (list string)) (fcode : string) (tree : FunctionDef)
    (f : PyFunction) (c_include : string) (w : World) : Result Kernel.t * World :=
  if PType.uses_jit pt then
    match Kernel.generate_jit fs pt fname tree fvars
                              (PType.name pt ++ fname)%string c_include w with
    | (Ok j, w') => (Ok (assemble fs pt del fname fvars fcode tree f (Some j)), w')
    | (Raise e, w') => (Raise e, w')
    end
  else (Ok (assemble fs pt del fname fvars fcode tree f None), w).

(** The JIT attributes that do not depend on the clock, and the value
    the generators give them. *)
Definition jit_static (j : Kernel.Jit)
    : list (string * Field) * list (string * VectorField) * list (string * Q) * string :=
  (Kernel.field_args j, Kernel.vector_field_args j, Kernel.const_args j,
   Kernel.ccode j).

Definition generated_static (fs : FieldSet) (pt : PType.t) (fname : string)
    (tree : FunctionDef) (fvars : option (list string)) (c_include : string)
    : option (list (string * Field) * list (string * VectorField)
              * list (string * Q) * string) :=
  match kernelgen fs pt tree fvars with
  | Ok g =>
      let fa := Kernel.add_vector_fields (gen_field_args g) (gen_vector_field_args g) in
      Some (fa, gen_vector_field_args g, gen_const_args g,
            loopgen fs pt fname fa (gen_const_args g) (kernel_ccode g)
                    (match read_file c_include with
                     | Some text => text
                     | None => c_include
                     end))
  | Raise _ => None
  end.

(** The code generator accepts the tree whenever it is asked to. *)
Definition jit_ready (fs : FieldSet) (pt : PType.t) (tree : FunctionDef)
    (fvars : option (list string)) : Prop :=
  PType.uses_jit pt = true -> exists g, kernelgen fs pt tree fvars = Ok g.

(** The function object [exec] makes of a definition. *)
Definition compiled (tree : FunctionDef) : PyFunction :=
  {| fn_def := tree; fn_source := None |}.

(** The tree [merge] builds (lines 452-455). *)
Definition merged_def (a b : Kernel.t) : FunctionDef :=
  {| def_name := (Kernel.funcname a ++ Kernel.funcname b)%string;
     def_args := def_args (Kernel.py_ast a);
     def_body := def_body (Kernel.py_ast a) ++ def_body (Kernel.py_ast b) |}.

Definition merged_vars (a b : Kernel.t) : option (list string) :=
  match Kernel.funcvars a, Kernel.funcvars b with
  | Some va, Some vb => Some (va ++ vb)
  | _, _ => None
  end.

(** The conditions under which every step of [a.merge(b)] goes
    through: both free-variable lists exist, the joined name and source
    are not empty, the left operand's tree has three parameters, and
    the code generator accepts the merged tree. *)
Definition mergeable (a b : Kernel.t) : Prop :=
  is_Some (merged_vars a b)
  /\ (Kernel.funcname a ++ Kernel.funcname b)%string <> EmptyString
  /\ (Kernel.funccode a ++ Kernel.funccode b)%string <> EmptyString
  /\ length (def_args (Kernel.py_ast a)) = 3%nat
  /\ jit_ready (Kernel.fieldset a) (Kernel.ptype a) (merged_def a b) (merged_vars a b).

(** The tree and the free variables of a merge of three kernels. *)
Definition merged_def3 (a b c : Kernel.t) : FunctionDef :=
  {| def_name := (Kernel.funcname a ++ Kernel.funcname b ++ Kernel.funcname c)%string;
     def_args := def_args (Kernel.py_ast a);
     def_body := def_body (Kernel.py_ast a) ++ def_body (Kernel.py_ast b)
                   ++ def_body (Kernel.py_ast c) |}.

Definition merged_vars3 (a b c : Kernel.t) : option (list string) :=
  match Kernel.funcvars a, Kernel.funcvars b, Kernel.funcvars c with
  | Some va, Some vb, Some vc => Some (va ++ vb ++ vc)
  | _, _, _ => None
  end.

(** The kernel that wraps a callable [f] over the field set and the
    particle type of [k] (lines 463-464 and 468-469), given the source
    text of [f], its tree and the JIT attributes. *)
Definition wrapped (k : Kernel.t) (f : PyFunction) (text : string)
    (tree : FunctionDef) (j : option Kernel.Jit) : Kernel.t :=
  assemble (Kernel.fieldset k) (Kernel.ptype k) true (__name__ f)
           (Some (co_varnames f)) text tree f j.

(** The names and unit tags of the field arguments, in order. *)
Definition field_tags (j : Kernel.Jit) : list (string * string) :=
  List.map (fun nf : string * Field => (nf.1, units_class nf.2)) (Kernel.field_args j).

(** Two kernels with the same definition: everything but the names of
    the files, which carry the time of construction. *)
Definition same_definition (k1 k2 : Kernel.t) : Prop :=
  Kernel.name k1 = Kernel.name k2
  /\ Kernel.funcname k1 = Kernel.funcname k2
  /\ Kernel.funccode k1 = Kernel.funccode k2
  /\ Kernel.py_ast k1 = Kernel.py_ast k2
  /\ Kernel.funcvars k1 = Kernel.funcvars k2
  /\ Kernel.pyfunc k1 = Kernel.pyfunc k2
  /\ Kernel.fieldset k1 = Kernel.fieldset k2
  /\ Kernel.ptype k1 = Kernel.ptype k2
  /\ Kernel.delete_cfiles k1 = Kernel.delete_cfiles k2
  /\ jit_static <$> Kernel.jit k1 = jit_static <$> Kernel.jit k2.

End ConstructionVocabulary.

(* ===================================================================== *)
(** ** Vocabulary of the statements about execution *)
(* ===================================================================== *)

Section ExecutionVocabulary.

Context `{Objects}.

(** [n] is the name of a variable the particle type declares. *)
Definition declared (ptype : PType.t) (n : string) : Prop :=
  n ∈ List.map PVariable.name (PType.variables ptype).

#[global] Instance declared_dec (ptype : PType.t) (n : string) :
  Decision (declared ptype n).
Proof. unfold declared. apply _. Defined.

(** The particle has every variable its type declares. *)
Definition has_declared (ptype : PType.t) (p : Particle.t) : Prop :=
  forall n, declared ptype n -> is_Some (Particle.getattr p n).

(** The events of the recovery [for] loop: calls of recovery kernels and
    the diagnostic of a particle without recovery. *)
Definition is_recovery_event (ev : Event) : bool :=
  match ev with
  | RecoveryCalled _ _ _ _ | Warned _ => true
  | _ => false
  end.

(** [l'] extends [l] by events of the recovery loop only. *)
Definition recovery_only (l l' : list Event) : Prop :=
  exists evs, l' = l ++ evs /\ forallb is_recovery_event evs = true.

(** [l'] extends [l] by at most [n] events, all of the recovery loop. *)
Definition recovery_within (n : nat) (l l' : list Event) : Prop :=
  exists evs, l' = l ++ evs /\ forallb is_recovery_event evs = true
              /\ (length evs <= n)%nat.

(** The population [ps'] has the shape of [ps], and differs from it at
    most at the positions [errs], and at none where the particle's state
    is [StopExecution]. *)
Definition untouched_outside (errs : list (nat * nat))
    (ps ps' : list (list Particle.t)) : Prop :=
  List.map (@length _) ps' = List.map (@length _) ps
  /\ (forall pos, pos ∉ errs -> particle_at ps' pos = particle_at ps pos)
  /\ (forall pos p, particle_at ps pos = Some p ->
        Particle.state p = ErrorCode.StopExecution ->
        particle_at ps' pos = Some p).

(** The kind of value an attribute holds. *)
Definition typed (n : string) (x : PyVal) : Prop :=
  match x with
  | VFloat _ => n <> "state"%string
  | VCode _ => n = "state"%string
  end.

(** The particles the deletion sweep keeps. *)
Definition survives (p : Particle.t) : bool :=
  negb (bool_decide (Particle.state p = ErrorCode.Delete)).

End ExecutionVocabulary.

(* ===================================================================== *)
(** ** Vocabulary of further statements *)
(* ===================================================================== *)

Section MoreVocabulary.

Context `{Objects} `{!Host}.

(** The particles the deletion sweep takes out. *)
Definition deleted (p : Particle.t) : bool :=
  bool_decide (Particle.state p = ErrorCode.Delete).

(** What the sweep hands to the output file for one sub-batch: the
    deleted particles, or [None] when there is none. *)
Definition report (subfield : list Particle.t) : option (list Particle.t) :=
  match List.filter deleted subfield with
  | [] => None
  | ds => Some ds
  end.

(** The names under which a dictionary of field arguments has entries. *)
Definition keys {A} (d : list (string * A)) : list string := List.map fst d.


(** Every particle of the population satisfies [P]. *)
Definition all_particles (P : Particle.t -> Prop) (ps : list (list Particle.t)) : Prop :=
  forall subfield p, subfield ∈ ps -> p ∈ subfield -> P p.

(** The sub-batches of [ps'] are as many as those of [ps], and none is
    longer than its counterpart. *)
Definition no_larger (ps' ps : list (list Particle.t)) : Prop :=
  Forall2 (fun s' s : list Particle.t => (length s' <= length s)%nat) ps' ps.

(** [w'] is [w] after calls of the kernel function [f] on the field set
    [fs] and nothing else: the clock has not been read, the globals are
    the same, and the log has grown by calls of [f] on [fs] only. *)
Definition kernel_calls_only (f : PyFunction) (fs : FieldSet) (w w' : World) : Prop :=
  clock_reads w' = clock_reads w /\ globals w' = globals w
  /\ exists evs, log w' = log w ++ evs
       /\ Forall (fun ev => exists p t, ev = KernelCalled f p fs t) evs.

End MoreVocabulary.

Section TextVocabulary.

(** The text has no line break. *)
Fixpoint no_newline (s : string) : bool :=
  match s with
  | EmptyString => true
  | String c s' => negb (Ascii.eqb c Indent.newline) && no_newline s'
  end.

(** The text consists of white space. *)
Definition all_space (s : string) : bool :=
  bool_decide (Indent.leading_space s = s).

(** [lines[0]] of a text. *)
Definition first_line (s : string) : string :=
  hd EmptyString (Indent.split_lines s).

(** ["\n".join(lines)]. *)
Definition join_lines (lines : list string) : string :=
  String.concat (String Indent.newline EmptyString) lines.

End TextVocabulary.

Section LifecycleVocabulary.

Context `{Objects} `{!Host} `{!Toolchain}.

(** The three files of [j] are named over [base]. *)
Definition files_of (base : string) (j : Kernel.Jit) : Prop :=
  Kernel.src_file j = (base ++ ".c")%string
  /\ Kernel.lib_file j = (base ++ "." ++ (if win32 then "dll" else "so"))%string
  /\ Kernel.log_file j = (base ++ ".log")%string.

(** The files of [j] taken off the disk. *)
Definition without_files (j : Kernel.Jit) (fs : gmap string string)
    : gmap string string :=
  delete (Kernel.log_file j) (delete (Kernel.lib_file j) (delete (Kernel.src_file j) fs)).

End LifecycleVocabulary.

Section CallVocabulary.

Context `{Objects} `{!Host}.





End CallVocabulary.

Section FieldVocabulary.

(** The cache of a field holds what [np.argmax] gives on its time
    axis. *)
Definition coherent (f : FieldData.t) : Prop :=
  forall k v, FieldData.time_index_cache f = Some (k, v) ->
              FieldData.argmax_ge (FieldData.time f) k = Ok v.

End FieldVocabulary.

(* ===================================================================== *)
(** ** A small runtime on which the model runs *)
(* ===================================================================== *)

(** Kernel bodies over a handful of statements, with their interpreter:
    enough Python to run the engine on concrete populations. *)
Module Toy.

Inductive stmt : Type :=
| Assign (attr : string) (q : Q)        (* particle.attr = q *)
| SetState (c : ErrorCode.t)            (* particle.state = c *)
| Return (c : ErrorCode.t)              (* return c *)
| RaiseStmt (e : PyException).          (* raise e *)

#[export] Instance objects : Objects :=
  {| Stmt := stmt; FieldSet := nat; Env := nat |}.

Fixpoint run (body : list stmt) (p : Particle.t) : Particle.t * Outcome :=
  match body with
  | [] => (p, Returns None)
  | Assign attr q :: rest => run rest (Particle.setattr p attr (VFloat q))
  | SetState c :: rest => run rest (Particle.set_state c p)
  | Return c :: _ => (p, Returns (Some c))
  | RaiseStmt e :: _ => (p, Raises e)
  end.

Definition mk_def (name : string) (args : list string) (body : list stmt)
    : FunctionDef :=
  {| def_name := name; def_args := args; def_body := body |}.

(** A function defined in a file: its source is its name, and the
    parser knows the definitions of [library]. *)
Definition mk_fn (name : string) (args : list string) (body : list stmt)
    : PyFunction :=
  {| fn_def := mk_def name args body; fn_source := Some name |}.

Definition pft : list string := ["particle"; "fieldset"; "time"]%string.

Definition move : PyFunction := mk_fn "move" pft [Assign "lon" 1].
Definition age : PyFunction := mk_fn "age" pft [Assign "age" 2].
Definition sink : PyFunction := mk_fn "sink" pft [Assign "depth" 3].
Definition two_args : PyFunction :=
  mk_fn "two_args" ["particle"; "fieldset"]%string [Assign "lon" 1].
Definition out_of_bounds : PyFunction :=
  mk_fn "out_of_bounds" pft
        [Assign "lon" 7; Assign "time" 9; RaiseStmt (FieldOutOfBoundError "lon")].
Definition DeleteParticle : PyFunction :=
  mk_fn "DeleteParticle" pft [SetState ErrorCode.Delete].
Definition delete_late : PyFunction :=
  mk_fn "delete_late" pft [Assign "dt" 5; SetState ErrorCode.Delete].
Definition repeat_me : PyFunction :=
  mk_fn "repeat_me" pft [Return ErrorCode.Repeat].

(** Another function called [move], with another body. *)
Definition move_north : PyFunction :=
  {| fn_def := mk_def "move" pft [Assign "lat" 5]; fn_source := Some "move_north" |}.

Definition library : list PyFunction :=
  [move; age; sink; two_args; out_of_bounds; DeleteParticle; delete_late;
   repeat_me; move_north].

Definition toy_parse (source : string) : option FunctionDef :=
  fn_def <$> List.find (fun f => bool_decide (fn_source f = Some source)) library.

Definition UV : VectorField :=
  {| U := {| ccode_name := "U"; units_class := "GeographicPolar" |};
     V := {| ccode_name := "V"; units_class := "Geographic" |};
     W := None |}.

#[export] Instance host : Host :=
  {| parse := toy_parse;
     co_varnames := fun f => def_args (fn_def f);
     py_call := fun f e p _ _ => let r := run (def_body (fn_def f)) p in
                                 (S e, r.1, r.2);
     is_AdvectionRK4_3D := fun _ => false;
     W_warning := fun _ => false;
     kernelgen := fun _ _ tree _ =>
       Ok {| kernel_ccode := def_name tree;
             gen_field_args := [];
             gen_vector_field_args := [("UV"%string, UV)];
             gen_const_args := [] |};
     loopgen := fun _ _ fname _ _ code _ => (fname ++ ":" ++ code)%string;
     read_file := fun _ => None;
     get_cache_dir := "/tmp/parcels-0";
     path_join := fun a b => (a ++ "/" ++ b)%string;
     MPI := None;
     win32 := false;
     clock := fun n => (1730678400 + (Z.of_nat n # 1000000))%Q |}.

#[export] Instance engine : Engine :=
  {| materialize := fun _ e => e;
     stage_chunks := fun _ e => e;
     prepare_native := fun _ _ e => Ok e;
     particle_loop := fun _ ps _ _ e => (e, ps);
     recovery_base_map := ∅ |}.

Definition scipy : PType.t :=
  {| PType.name := "ScipyParticle"; PType.uses_jit := false;
     PType._cache_key := "ScipyParticle-lon:lat:depth:time:dt:state";
     PType.variables :=
       List.map PVariable.Build_t ["lon"; "lat"; "depth"; "time"; "dt"; "state"]%string |}.

Definition jit : PType.t :=
  {| PType.name := "JITParticle"; PType.uses_jit := true;
     PType._cache_key := "JITParticle-lon:lat:depth:time:dt:state";
     PType.variables := PType.variables scipy |}.

Definition particle (pt : PType.t) (t0 step : Q) (c : ErrorCode.t) : Particle.t :=
  {| Particle.time := t0; Particle.dt := step; Particle.state := c;
     Particle.exception := None; Particle._next_dt := None;
     Particle.vars := list_to_map [("lon"%string, 0%Q); ("lat"%string, 0%Q); ("depth"%string, 0%Q)];
     Particle.getPType := pt |}.

Definition world0 : World :=
  {| clock_reads := 0; globals := ∅; env := 0%nat; log := [] |}.

(** The kernel that [Kernel(fieldset, ptype, pyfunc=f)] builds in
    [world0]; the arguments are such that the constructor succeeds. *)
Definition kernel_of (fs : nat) (pt : PType.t) (f : PyFunction) : Kernel.t :=
  match Kernel.__init__ fs pt (Some f) None None None None EmptyString true world0 with
  | (Ok k, _) => k
  | (Raise _, _) =>
      {| Kernel.fieldset := fs; Kernel.ptype := pt; Kernel.delete_cfiles := true;
         Kernel.funcname := __name__ f; Kernel.funcvars := None;
         Kernel.funccode := EmptyString; Kernel.py_ast := fn_def f;
         Kernel.pyfunc := f; Kernel.name := EmptyString; Kernel.jit := None |}
  end.

Definition k_move : Kernel.t := kernel_of 0 scipy move.
Definition k_age_elsewhere : Kernel.t := kernel_of 1 jit age.
Definition jit_move : Kernel.t := kernel_of 0 jit move.
Definition jit_age : Kernel.t := kernel_of 0 jit age.
Definition jit_sink : Kernel.t := kernel_of 0 jit sink.
Definition jit_move_north : Kernel.t := kernel_of 0 jit move_north.

Definition k_out_of_bounds : Kernel.t := kernel_of 0 scipy out_of_bounds.
Definition k_delete : Kernel.t := kernel_of 0 scipy DeleteParticle.
Definition k_delete_late : Kernel.t := kernel_of 0 scipy delete_late.
Definition k_repeat : Kernel.t := kernel_of 0 scipy repeat_me.

(** A population of one sub-batch over the field set [0]. *)
Definition pop (ps : list Particle.t) : PSet :=
  {| particles_a := [ps]; pset_fieldset := 0%nat |}.

(** A particle at time 0 with a step of 1, and the loop variables with
    which the interpreted pass enters its loop for it when [endtime] is
    10 and [dt] is 1. *)
Definition fresh : Particle.t := particle scipy 0 1 ErrorCode.Evaluate.

Definition loop0 : Loop :=
  {| cur := fresh; dt_pos := 1; sign_end_part := 1; p_var_back := ∅ |}.

(** Particles as an engine pass may leave them, and two recovery maps:
    one whose kernel repairs the particle, one whose kernel deletes it. *)
Definition p_oob : Particle.t := particle scipy 0 1 ErrorCode.ErrorOutOfBounds.
Definition p_stop : Particle.t := particle scipy 0 1 ErrorCode.StopExecution.
Definition p_done : Particle.t := particle scipy 10 1 ErrorCode.Success.

Definition rmap_repair : gmap ErrorCode.t PyFunction :=
  {[ ErrorCode.ErrorOutOfBounds := move ]}.

Definition rmap_delete : gmap ErrorCode.t PyFunction :=
  {[ ErrorCode.ErrorOutOfBounds := DeleteParticle ]}.

Definition is_recovery_call (ev : Event) : bool :=
  match ev with RecoveryCalled _ _ _ _ => true | _ => false end.

(** The constructor given the function together with its tree, for
    functions that are not in a file of [library]. *)
Definition kernel_from (fs : nat) (pt : PType.t) (f : PyFunction) : Kernel.t :=
  match Kernel.__init__ fs pt (Some f) None None (Some (fn_def f)) None
                        EmptyString true world0 with
  | (Ok k, _) => k
  | (Raise _, _) => kernel_of fs pt f
  end.

(** A kernel function that moves the particle and asks for a longer
    step. *)
Definition hurry : PyFunction := mk_fn "hurry" pft [Assign "lon" 4; Assign "dt" 5].

Definition k_hurry : Kernel.t := kernel_from 0 scipy hurry.

(** Particles in [Repeat], in an error state without recovery kernel,
    and beyond the horizon 10. *)
Definition p_repeat : Particle.t := particle scipy 0 1 ErrorCode.Repeat.
Definition p_error : Particle.t := particle scipy 0 1 ErrorCode.Error.
Definition p_late : Particle.t := particle scipy 12 1 ErrorCode.Evaluate.
Definition p_gone : Particle.t := particle scipy 3 1 ErrorCode.Delete.


(** A compiler that turns a source file into a library and a log, and a
    loader that accepts what this compiler produces. *)
#[export] Instance toolchain : Toolchain :=
  {| writable := fun _ => true;
     compiler_compile := fun fs src lib log =>
       match fs !! src with
       | Some code =>
           (Ok tt, <[log := "ok"%string]> (<[lib := ("lib:" ++ code)%string]> fs))
       | None => (Raise (OtherException "CompilationError" src), fs)
       end;
     loadable := fun image => String.prefix "lib:" image;
     exports_particle_loop := fun _ => true |}.

(** The process in which [jit_move] has just been built: the clock has
    been read once, the disk is empty and no library is loaded. *)
Definition process0 : Process :=
  {| world := (Kernel.__init__ 0%nat jit (Some move) None None None None EmptyString
                               true world0).2;
     files := ∅; libraries := ∅; handles := 0; infos := [] |}.

(** The compiled attributes of [jit_move] and the base name of its
    files. *)
Definition j_move : Kernel.Jit :=
  match Kernel.jit jit_move with
  | Some j => j
  | None =>
      {| Kernel.field_args := []; Kernel.vector_field_args := [];
         Kernel.const_args := []; Kernel.ccode := EmptyString;
         Kernel.src_file := EmptyString; Kernel.lib_file := EmptyString;
         Kernel.log_file := EmptyString |}
  end.

Definition base_move : string :=
  path_join get_cache_dir
    (Kernel.cache_key_at (Kernel.name jit_move) jit (Kernel.field_args j_move)
       (clock 0) ++ "_0")%string.

(** The files the compiler leaves when [jit_move] is compiled in
    [process0]. *)
Definition fs_move : gmap string string :=
  (compiler_compile (<[Kernel.src_file j_move := Kernel.ccode j_move]> (files process0))
                    (Kernel.src_file j_move) (Kernel.lib_file j_move)
                    (Kernel.log_file j_move)).2.

(** [jit_move] after [compile] and [load_lib] in [process0]. *)
Definition loaded_move : KernelObject * Process :=
  let c := compile (new jit_move) process0 in
  let l := load_lib c.1.2 c.2 in
  (l.1.2, l.2).

End Toy.

(* ===================================================================== *)
(** ** Proof steps used more than once *)
(* ===================================================================== *)

(** Unfolds the monadic plumbing of a construction step. *)
Ltac run_m :=
  unfold bind, ret, raise, emit, define, lookup_global, time_time,
         Kernel.or_else in *;
  simpl in *.

(** Discharges [mergeable] on kernels of the small runtime, whose code
    generator accepts every tree. *)
Ltac toy_mergeable :=
  unfold mergeable; split; [|split; [|split; [|split]]];
  [ eexists; vm_compute; reflexivity
  | vm_compute; discriminate
  | vm_compute; discriminate
  | vm_compute; reflexivity
  | intros _; eexists; reflexivity ].


(* ===================================================================== *)
(** ** The library functions on known values *)
(* ===================================================================== *)

Example md5_empty : MD5.hexdigest "" = "d41d8cd98f00b204e9800998ecf8427e"%string.
Proof. vm_compute. reflexivity. Qed.

Example md5_abc : MD5.hexdigest "abc" = "900150983cd24fb0d6963f7d28e17f72"%string.
Proof. vm_compute. reflexivity. Qed.

Example md5_two_blocks :
  MD5.hexdigest "xxxxxxxxxxxxxxxxxxxxxxxxxxxxxxxxxxxxxxxxxxxxxxxxxxxxxxxx"
  = "668a72d5ba17f08e62dabcafad6db14b"%string.
Proof. vm_compute. reflexivity. Qed.

Example format_f_time :
  PyFormat.f (1730678400123456789 # 1000000000000) = "1730678.400123"%string.
Proof. vm_compute. reflexivity. Qed.

Example format_f_tie :
  PyFormat.f (5 # 10000000) = "0.000000"%string
  /\ PyFormat.f (15 # 10000000) = "0.000002"%string
  /\ PyFormat.f (- (3 # 2)) = "-1.500000"%string.
Proof. vm_compute. repeat split; reflexivity. Qed.

Example format_d_rank : PyFormat.d 12 = "12"%string /\ PyFormat.d 0 = "0"%string.
Proof. vm_compute. split; reflexivity. Qed.

Example fix_indentation_inline :
  Indent.fix_indentation
    (String.concat (String Indent.newline EmptyString)
       ["    def k(p, f, t):"; "        p.lon += 1"; "x    y"])%string
  = String.concat (String Indent.newline EmptyString)
      ["def k(p, f, t):"; "    p.lon += 1"; "xy"]%string.
Proof. vm_compute. reflexivity. Qed.

Section EngineOnToy.

Import Toy.

(** The engine on a population of three particles, horizon 10, step 1,
    with a kernel that never fails: every particle ends in [Success] at
    time 10, after ten calls of the kernel each. *)
Example three_particles_reach_the_horizon :
  match execute 20 Toy.k_move (Toy.pop [Toy.fresh; Toy.fresh; Toy.fresh]) 10 1
                None false false Toy.world0 with
  | Some (Ok (flow, pset), w) =>
      flow = Completed
      /\ List.map (List.map (fun p => (Particle.time p, Particle.state p)))
                  (particles_a pset)
         = [[(10%Q, ErrorCode.Success); (10%Q, ErrorCode.Success);
             (10%Q, ErrorCode.Success)]]
      /\ length (log w) = 30%nat
  | _ => False
  end.
Proof. vm_compute. repeat split; reflexivity. Qed.

(** A particle whose error has no entry in the recovery map is deleted
    and reported to the output file once, in the second sweep. *)
Example unmapped_error_is_deleted :
  match execute 20 Toy.k_out_of_bounds (Toy.pop [Toy.fresh]) 10 1
                None true false Toy.world0 with
  | Some (Ok (flow, pset), w) =>
      flow = Completed /\ particles_a pset = [[]]
      /\ List.map (fun ev => match ev with
                             | OutputWritten d _ => List.map (option_map (@length _)) d
                             | _ => []
                             end)
                  (List.filter (fun ev => match ev with
                                          | OutputWritten _ _ => true
                                          | _ => false
                                          end) (log w))
         = [[None]; [Some 1%nat]]
  | _ => False
  end.
Proof. vm_compute. repeat split; reflexivity. Qed.

End EngineOnToy.

(* ===================================================================== *)
(** ** Properties of construction *)
(* ===================================================================== *)

Section ConstructionProperties.

Context `{Objects} `{!Host}.

(** The constructor on a callable, step by step. *)
Lemma init_callable fs pt f fname fcode tree_arg fvars c_include del w :
  Kernel.__init__ fs pt (Some f) fname fcode tree_arg fvars c_include del w =
  let w1 := warned fs f w in
  match source_for f fcode with
  | None => (Raise (OtherException "OSError" "could not get source code"), w1)
  | Some text =>
      match tree_for tree_arg text with
      | None => (Raise (OtherException "SyntaxError" "invalid syntax"), w1)
      | Some tree =>
          if decide (length (argspec_args f) = 3%nat)
          then finish fs pt del (name_for f fname) (funcvars_for f fvars)
                      text tree f c_include w1
          else (Raise ArityError, w1)
      end
  end.
Proof.
  unfold Kernel.__init__, source_for, tree_for, funcvars_for, name_for,
         warned, finish, add_event.
  run_m.
  destruct fname as [s|]; [destruct (decide (s = EmptyString))|];
    (destruct (is_AdvectionRK4_3D f && W_warning fs); simpl);
    (destruct fcode as [c|]; [destruct (decide (c = EmptyString))|]; simpl);
    try (destruct (fn_source f) as [src|]; simpl; [|reflexivity]);
    (destruct tree_arg as [tr|]; simpl);
    repeat match goal with
      | |- context [parse ?x] =>
          destruct (parse x) as [tr|]; simpl; [|reflexivity]
      | |- context [decide (length ?x = 3%nat)] =>
          destruct (decide (length x = 3%nat)); simpl; [|reflexivity]
      | |- context [PType.uses_jit pt] =>
          destruct (PType.uses_jit pt); simpl; [|reflexivity]
      | |- context [Kernel.generate_jit ?a ?b ?c ?d ?e ?f ?g ?w] =>
          destruct (Kernel.generate_jit a b c d e f g w) as [[?|?] ?];
          simpl; reflexivity
      end; try reflexivity.
Qed.

(** The constructor on a tree ([pyfunc=None]), as [merge] calls it. *)
Lemma init_merged fs pt fname fcode tree fvars c_include del w :
  fname <> EmptyString -> fcode <> EmptyString -> def_name tree = fname ->
  Kernel.__init__ fs pt None (Some fname) (Some fcode) (Some tree) fvars
                  c_include del w =
  let w1 := {| clock_reads := clock_reads w;
               globals := <[fname := compiled tree]> (globals w);
               env := env w; log := log w |} in
  if decide (length (def_args tree) = 3%nat)
  then finish fs pt del fname fvars fcode tree (compiled tree) c_include w1
  else (Raise ArityError, w1).
Proof.
  intros Hn Hc Hd. unfold Kernel.__init__, finish. run_m.
  destruct fvars as [vs|];
    (destruct (decide (fname = EmptyString)); [contradiction|];
     destruct (decide (fcode = EmptyString)); [contradiction|]; simpl;
     rewrite Hd, lookup_insert_eq; simpl; unfold argspec_args, compiled; simpl;
     destruct (decide (length (def_args tree) = 3%nat)); simpl; [|reflexivity];
     destruct (PType.uses_jit pt); simpl; [|reflexivity];
     destruct (Kernel.generate_jit _ _ _ _ _ _ _ _) as [[?|?] ?]; reflexivity).
Qed.

(** The code generation step always records its call, and touches
    neither the globals nor the surroundings. *)
Lemma generate_jit_world fs pt fname tree fvars kname c_include w :
  let w' := (Kernel.generate_jit fs pt fname tree fvars kname c_include w).2 in
  log w' = log w ++ [CodeGenerated tree fvars]
  /\ globals w' = globals w /\ env w' = env w.
Proof.
  unfold Kernel.generate_jit, Kernel.basename_of. run_m.
  destruct (kernelgen fs pt tree fvars) as [g|e]; simpl; [|auto].
  destruct MPI as [comm|]; simpl; [|auto].
  destruct (Get_rank comm =? 0)%Z; auto.
Qed.

Lemma generate_jit_result fs pt fname tree fvars kname c_include w :
  match Kernel.generate_jit fs pt fname tree fvars kname c_include w with
  | (Ok j, _) =>
      generated_static fs pt fname tree fvars c_include = Some (jit_static j)
  | (Raise e, _) => kernelgen fs pt tree fvars = Raise e
  end.
Proof.
  unfold Kernel.generate_jit, Kernel.basename_of, generated_static, jit_static.
  run_m.
  destruct (kernelgen fs pt tree fvars) as [g|e]; simpl; [|reflexivity].
  destruct MPI as [comm|]; simpl; [|reflexivity].
  destruct (Get_rank comm =? 0)%Z; reflexivity.
Qed.

Lemma finish_ok fs pt del fname fvars fcode tree f c_include w :
  jit_ready fs pt tree fvars ->
  exists j w',
    finish fs pt del fname fvars fcode tree f c_include w
    = (Ok (assemble fs pt del fname fvars fcode tree f j), w')
    /\ jit_static <$> j
       = (if PType.uses_jit pt
          then generated_static fs pt fname tree fvars c_include else None)
    /\ globals w' = globals w.
Proof.
  intros Hready. unfold finish. destruct (PType.uses_jit pt) eqn:Hjit.
  - destruct (Hready Hjit) as [g Hg].
    pose proof (generate_jit_result fs pt fname tree fvars
                  (PType.name pt ++ fname)%string c_include w) as Hres.
    pose proof (generate_jit_world fs pt fname tree fvars
                  (PType.name pt ++ fname)%string c_include w) as (_ & Hglob & _).
    destruct (Kernel.generate_jit _ _ _ _ _ _ _ _) as [[j|e] w'].
    + exists (Some j), w'. simpl. rewrite Hres. auto.
    + rewrite Hg in Hres. discriminate.
  - exists None, w. auto.
Qed.

Lemma finish_codegen fs pt del fname fvars fcode tree f c_include w :
  codegen_calls (finish fs pt del fname fvars fcode tree f c_include w).2
  = codegen_calls w
    ++ (if PType.uses_jit pt then [CodeGenerated tree fvars] else []).
Proof.
  unfold finish. destruct (PType.uses_jit pt).
  - pose proof (generate_jit_world fs pt fname tree fvars
                  (PType.name pt ++ fname)%string c_include w) as (Hlog & _).
    destruct (Kernel.generate_jit _ _ _ _ _ _ _ _) as [[j|e] w']; simpl in *;
      unfold codegen_calls; rewrite Hlog, List.filter_app; reflexivity.
  - simpl. rewrite app_nil_r. reflexivity.
Qed.

Lemma warned_codegen fs f w : codegen_calls (warned fs f w) = codegen_calls w.
Proof.
  unfold warned, codegen_calls, add_event.
  destruct (is_AdvectionRK4_3D f && W_warning fs); simpl; [|reflexivity].
  rewrite List.filter_app. simpl. apply app_nil_r.
Qed.

(** C2 (amended) — a callable whose parameter count is not three makes
    the constructor fail: no kernel is returned and the code generator
    is not called. The error is the arity assertion whenever the steps
    that come before it succeed, that is, when the source of the
    callable is found and parses; otherwise it is the error of that
    earlier step. A callable with three parameters gets past the
    assertion: on the JIT path the next thing that happens is the call
    of the code generator, otherwise the kernel is returned. *)
Theorem arity_check fs pt f fname fcode tree_arg fvars c_include del w :
  let r := Kernel.__init__ fs pt (Some f) fname fcode tree_arg fvars
                           c_include del w in
  (length (argspec_args f) <> 3%nat ->
     (forall k, r.1 <> Ok k)
     /\ codegen_calls r.2 = codegen_calls w
     /\ (forall text tree, source_for f fcode = Some text ->
           tree_for tree_arg text = Some tree -> r.1 = Raise ArityError))
  /\ (length (argspec_args f) = 3%nat ->
      forall text tree, source_for f fcode = Some text ->
        tree_for tree_arg text = Some tree ->
        if PType.uses_jit pt
        then codegen_calls r.2
             = codegen_calls w ++ [CodeGenerated tree (funcvars_for f fvars)]
        else r.1 = Ok (assemble fs pt del (name_for f fname) (funcvars_for f fvars)
                                text tree f None)).
Proof.
  intros r. subst r. rewrite init_callable. cbv zeta. split; intros Hlen.
  - destruct (source_for f fcode) as [text|] eqn:Htext; simpl;
      [destruct (tree_for tree_arg text) as [tree|] eqn:Htree; simpl;
       [destruct (decide (length (argspec_args f) = 3%nat)); [contradiction|]; simpl|]|];
      rewrite warned_codegen; repeat split; intros; simplify_eq; done.
  - intros text tree Htext Htree. rewrite Htext, Htree.
    destruct (decide (length (argspec_args f) = 3%nat)); [|contradiction].
    pose proof (finish_codegen fs pt del (name_for f fname) (funcvars_for f fvars)
                  text tree f c_include (warned fs f w)) as Hgen.
    destruct (PType.uses_jit pt) eqn:Hjit.
    + rewrite Hgen, warned_codegen. reflexivity.
    + unfold finish. rewrite Hjit. reflexivity.
Qed.


(** *** Merge *)

Lemma string_app_assoc (s t u : string) : ((s ++ t) ++ u = s ++ t ++ u)%string.
Proof.
  induction s as [|c s IH]; [reflexivity|].
  change (String c ((s ++ t) ++ u) = String c (s ++ t ++ u))%string.
  f_equal. exact IH.
Qed.

Lemma string_app_empty (s t : string) :
  (s ++ t)%string = EmptyString -> s = EmptyString /\ t = EmptyString.
Proof. destruct s; [auto | discriminate]. Qed.

(** [merge], step by step. *)
Lemma merge_eq (a b : Kernel.t) (w : World) :
  Kernel.merge a b w =
  let fname := (Kernel.funcname a ++ Kernel.funcname b)%string in
  let fcode := (Kernel.funccode a ++ Kernel.funccode b)%string in
  match merged_vars a b with
  | None => (Raise (TypeError "unsupported operand type(s) for +"), w)
  | Some vs =>
      if decide (fname = EmptyString) then (Raise (AttributeError "__name__"), w)
      else if decide (fcode = EmptyString) then (Raise (AttributeError "__code__"), w)
      else
        let w1 := {| clock_reads := clock_reads w;
                     globals := <[fname := compiled (merged_def a b)]> (globals w);
                     env := env w; log := log w |} in
        if decide (length (def_args (Kernel.py_ast a)) = 3%nat)
        then finish (Kernel.fieldset a) (Kernel.ptype a)
                    (Kernel.delete_cfiles a && Kernel.delete_cfiles b)
                    fname (Some vs) fcode (merged_def a b)
                    (compiled (merged_def a b)) EmptyString w1
        else (Raise ArityError, w1)
  end.
Proof.
  unfold Kernel.merge, merged_vars. cbv zeta.
  destruct (Kernel.funcvars a) as [va|]; [|reflexivity].
  destruct (Kernel.funcvars b) as [vb|]; [|reflexivity].
  destruct (decide ((Kernel.funcname a ++ Kernel.funcname b)%string = EmptyString))
    as [Hn|Hn].
  { unfold Kernel.__init__. run_m. rewrite Hn. reflexivity. }
  destruct (decide ((Kernel.funccode a ++ Kernel.funccode b)%string = EmptyString))
    as [Hc|Hc].
  { unfold Kernel.__init__. run_m.
    destruct (decide ((Kernel.funcname a ++ Kernel.funcname b)%string = EmptyString));
      [contradiction|].
    simpl. rewrite Hc. reflexivity. }
  rewrite (init_merged _ _ _ _ (merged_def a b)); auto.
Qed.

(** A merge whose every step goes through returns the merged kernel. *)
Lemma merge_ok (a b : Kernel.t) (w : World) :
  mergeable a b ->
  exists j w',
    Kernel.merge a b w
    = (Ok (assemble (Kernel.fieldset a) (Kernel.ptype a)
             (Kernel.delete_cfiles a && Kernel.delete_cfiles b)
             (Kernel.funcname a ++ Kernel.funcname b)%string (merged_vars a b)
             (Kernel.funccode a ++ Kernel.funccode b)%string (merged_def a b)
             (compiled (merged_def a b)) j), w')
    /\ jit_static <$> j
       = (if PType.uses_jit (Kernel.ptype a)
          then generated_static (Kernel.fieldset a) (Kernel.ptype a)
                 (Kernel.funcname a ++ Kernel.funcname b)%string (merged_def a b)
                 (merged_vars a b) EmptyString
          else None).
Proof.
  intros ([vs Hvs] & Hn & Hc & Hargs & Hready).
  rewrite merge_eq. cbv zeta. rewrite Hvs in *.
  destruct (decide _); [contradiction|].
  destruct (decide _); [contradiction|].
  destruct (decide _); [|contradiction].
  edestruct finish_ok as (j & w' & Hfin & Hstatic & _); [exact Hready|].
  exists j, w'. split; [exact Hfin | exact Hstatic].
Qed.

(** A merge that returns a kernel returns the merged kernel. *)
Lemma merge_inv (a b k : Kernel.t) (w w' : World) :
  Kernel.merge a b w = (Ok k, w') ->
  exists j,
    k = assemble (Kernel.fieldset a) (Kernel.ptype a)
          (Kernel.delete_cfiles a && Kernel.delete_cfiles b)
          (Kernel.funcname a ++ Kernel.funcname b)%string (merged_vars a b)
          (Kernel.funccode a ++ Kernel.funccode b)%string (merged_def a b)
          (compiled (merged_def a b)) j.
Proof.
  rewrite merge_eq. cbv zeta.
  destruct (merged_vars a b) as [vs|]; [|discriminate].
  destruct (decide _); [discriminate|].
  destruct (decide _); [discriminate|].
  destruct (decide _); [|discriminate].
  unfold finish. destruct (PType.uses_jit (Kernel.ptype a)).
  - destruct (Kernel.generate_jit _ _ _ _ _ _ _ _) as [[j|?] w2]; [|discriminate].
    intros [= <- _]. eauto.
  - intros [= <- _]. eauto.
Qed.


Lemma merged_vars_is_Some (a b : Kernel.t) :
  is_Some (merged_vars a b) <->
  is_Some (Kernel.funcvars a) /\ is_Some (Kernel.funcvars b).
Proof.
  unfold merged_vars.
  destruct (Kernel.funcvars a), (Kernel.funcvars b);
    (split; [intros [x Hx] | intros [[x Hx] [y Hy]]]);
    try discriminate; eauto.
Qed.

(** C3 (amended) — [merge] compares neither the particle types nor the
    field sets of its operands: whenever every step of the merge goes
    through, it returns a new kernel that carries the field set and the
    particle type of the left operand, whatever those of the right
    operand are, and an error it raises is never about them. *)
Theorem merge_unchecked (a b : Kernel.t) (w : World) :
  mergeable a b ->
  exists k w',
    Kernel.merge a b w = (Ok k, w')
    /\ Kernel.fieldset k = Kernel.fieldset a
    /\ Kernel.ptype k = Kernel.ptype a
    /\ Kernel.funcname k = (Kernel.funcname a ++ Kernel.funcname b)%string
    /\ def_body (Kernel.py_ast k)
       = def_body (Kernel.py_ast a) ++ def_body (Kernel.py_ast b).
Proof.
  intros Hm. destruct (merge_ok a b w Hm) as (j & w' & Hmerge & _).
  eexists _, w'. split; [exact Hmerge|]. simpl. auto.
Qed.

(** C9 — [merge] is associative: when the merges of [a] with [b] and of
    [b] with [c] go through (and the code generator accepts the tree of
    the three), [(a+b)+c] and [a+(b+c)] are both built and have the same
    name, source text, tree (name, parameters, statement sequence),
    free variables, function object, field set, particle type and
    generated source. The order of the operands is kept, so the merge is
    not commutative: [b+a] differs from [a+b] as soon as the names or
    the statement sequences do not commute. *)
Theorem merge_assoc (a b c : Kernel.t) (w : World) :
  mergeable a b -> mergeable b c ->
  jit_ready (Kernel.fieldset a) (Kernel.ptype a) (merged_def3 a b c)
            (merged_vars3 a b c) ->
  exists kab w1 k1 w2 kbc w3 k2 w4,
    Kernel.merge a b w = (Ok kab, w1) /\ Kernel.merge kab c w1 = (Ok k1, w2)
    /\ Kernel.merge b c w = (Ok kbc, w3) /\ Kernel.merge a kbc w3 = (Ok k2, w4)
    /\ same_definition k1 k2
    /\ Kernel.funcname k1
       = (Kernel.funcname a ++ Kernel.funcname b ++ Kernel.funcname c)%string
    /\ Kernel.funccode k1
       = (Kernel.funccode a ++ Kernel.funccode b ++ Kernel.funccode c)%string
    /\ def_body (Kernel.py_ast k1)
       = def_body (Kernel.py_ast a) ++ def_body (Kernel.py_ast b)
           ++ def_body (Kernel.py_ast c)
    /\ Kernel.funcvars k1 = merged_vars3 a b c
    /\ (forall kba w5, Kernel.merge b a w = (Ok kba, w5) ->
          ((Kernel.funcname a ++ Kernel.funcname b)%string
             <> (Kernel.funcname b ++ Kernel.funcname a)%string
           \/ def_body (Kernel.py_ast a) ++ def_body (Kernel.py_ast b)
                <> def_body (Kernel.py_ast b) ++ def_body (Kernel.py_ast a)) ->
          ~ same_definition kab kba).
Proof.
  intros Hab Hbc Hready.
  destruct (merge_ok a b w Hab) as (jab & w1 & Hmab & _).
  destruct (merge_ok b c w Hbc) as (jbc & w3 & Hmbc & _).
  set (kab := assemble _ _ _ _ _ _ _ _ jab) in Hmab.
  set (kbc := assemble _ _ _ _ _ _ _ _ jbc) in Hmbc.
  destruct Hab as (Hvab & Hnab & Hcab & Hargs & _).
  destruct Hbc as (Hvbc & Hnbc & Hcbc & _ & _).
  apply merged_vars_is_Some in Hvab as [[va Hva] [vb Hvb]].
  apply merged_vars_is_Some in Hvbc as [_ [vc Hvc]].
  assert (Hdl : merged_def kab c = merged_def3 a b c).
  { unfold merged_def, merged_def3, kab. simpl.
    rewrite string_app_assoc, <- app_assoc. reflexivity. }
  assert (Hdr : merged_def a kbc = merged_def3 a b c) by reflexivity.
  assert (Hvl : merged_vars kab c = merged_vars3 a b c).
  { unfold merged_vars, merged_vars3, kab. simpl. unfold merged_vars.
    rewrite Hva, Hvb, Hvc, <- app_assoc. reflexivity. }
  assert (Hvr : merged_vars a kbc = merged_vars3 a b c).
  { unfold merged_vars, merged_vars3, kbc. simpl. unfold merged_vars.
    rewrite Hva, Hvb, Hvc. reflexivity. }
  assert (Hl : mergeable kab c).
  { unfold mergeable. rewrite Hdl, Hvl. unfold merged_vars3.
    rewrite Hva, Hvb, Hvc. simpl. repeat split; eauto.
    - intros E. apply string_app_empty in E as [E _]. contradiction.
    - intros E. apply string_app_empty in E as [E _]. contradiction.
    - unfold merged_vars3 in Hready. rewrite Hva, Hvb, Hvc in Hready. exact Hready. }
  assert (Hr : mergeable a kbc).
  { unfold mergeable. rewrite Hdr, Hvr. unfold merged_vars3.
    rewrite Hva, Hvb, Hvc. simpl. repeat split; eauto.
    - intros E. apply string_app_empty in E as [_ E]. contradiction.
    - intros E. apply string_app_empty in E as [_ E]. contradiction.
    - unfold merged_vars3 in Hready. rewrite Hva, Hvb, Hvc in Hready. exact Hready. }
  destruct (merge_ok kab c w1 Hl) as (j1 & w2 & Hm1 & Hs1).
  destruct (merge_ok a kbc w3 Hr) as (j2 & w4 & Hm2 & Hs2).
  eexists kab, w1, _, w2, kbc, w3, _, w4.
  split; [exact Hmab|]. split; [exact Hm1|].
  split; [exact Hmbc|]. split; [exact Hm2|].
  rewrite Hdl, Hvl in *. rewrite Hdr, Hvr in *. simpl in *.
  split.
  { unfold same_definition. simpl.
    rewrite !string_app_assoc, Hs1, Hs2, andb_assoc, !string_app_assoc.
    repeat split; reflexivity. }
  split; [apply string_app_assoc|]. split; [apply string_app_assoc|].
  split; [reflexivity|]. split; [reflexivity|].
  intros kba w5 Hba Hne (_ & Hfn & _ & Hast & _).
  apply merge_inv in Hba as [jba ->]. simpl in Hfn, Hast.
  destruct Hne as [Hne|Hne]; [contradiction|].
  apply Hne. unfold merged_def in Hast. congruence.
Qed.


Lemma mergeable_jit (a a' b : Kernel.t) :
  Kernel.funcvars a' = Kernel.funcvars a ->
  Kernel.funcname a' = Kernel.funcname a ->
  Kernel.funccode a' = Kernel.funccode a ->
  Kernel.py_ast a' = Kernel.py_ast a ->
  Kernel.fieldset a' = Kernel.fieldset a ->
  Kernel.ptype a' = Kernel.ptype a ->
  mergeable a b -> mergeable a' b.
Proof.
  unfold mergeable, merged_vars, merged_def.
  intros -> -> -> -> -> ->. auto.
Qed.

(** C10 — [f + k] for a plain callable [f] of three parameters and a
    kernel [k] is [k.__radd__(f)]: [f] is wrapped into a kernel over the
    field set and the particle type of [k], and the result is
    [wrap(f).merge(k)], the same kernel as when both operands are
    kernels; the statements of [f] come before those of [k] and the
    name of [f] before the name of [k]. *)
Theorem radd_callable (k : Kernel.t) (f : PyFunction) (text : string)
    (tree : FunctionDef) (w : World) :
  fn_source f = Some text ->
  parse (Indent.fix_indentation text) = Some tree ->
  length (argspec_args f) = 3%nat ->
  jit_ready (Kernel.fieldset k) (Kernel.ptype k) tree (Some (co_varnames f)) ->
  mergeable (wrapped k f text tree None) k ->
  exists j w1 k' w',
    let kf := wrapped k f text tree j in
    Kernel.wrap k (inr f) w = (Ok kf, w1)
    /\ Kernel.__radd__ k (inr f) w = Kernel.merge kf k w1
    /\ Kernel.merge kf k w1 = (Ok k', w')
    /\ Kernel.__radd__ k (inl kf) w1 = (Ok k', w')
    /\ Kernel.__add__ kf (inl k) w1 = (Ok k', w')
    /\ Kernel.funcname k' = (__name__ f ++ Kernel.funcname k)%string
    /\ Kernel.name k'
       = (PType.name (Kernel.ptype k) ++ __name__ f ++ Kernel.funcname k)%string
    /\ def_body (Kernel.py_ast k') = def_body tree ++ def_body (Kernel.py_ast k)
    /\ Kernel.fieldset k' = Kernel.fieldset k
    /\ Kernel.ptype k' = Kernel.ptype k.
Proof.
  intros Hsrc Hparse Hlen Hready Hm.
  assert (Hwrap : exists j w1,
             Kernel.wrap k (inr f) w = (Ok (wrapped k f text tree j), w1)).
  { unfold Kernel.wrap. rewrite init_callable. cbv zeta.
    unfold source_for, tree_for. rewrite Hsrc, Hparse.
    destruct (decide _); [|contradiction].
    edestruct finish_ok as (j & w1 & Hfin & _); [exact Hready|].
    exists j, w1. exact Hfin. }
  destruct Hwrap as (j & w1 & Hwrap).
  assert (Hm' : mergeable (wrapped k f text tree j) k).
  { eapply mergeable_jit; [..|exact Hm]; reflexivity. }
  destruct (merge_ok _ k w1 Hm') as (j' & w' & Hmerge & _).
  exists j, w1. eexists _, w'. cbv zeta.
  split; [exact Hwrap|].
  split. { unfold Kernel.__radd__, bind. rewrite Hwrap. reflexivity. }
  split; [exact Hmerge|].
  split. { unfold Kernel.__radd__, bind. simpl. exact Hmerge. }
  split. { unfold Kernel.__add__, bind. simpl. exact Hmerge. }
  simpl. auto.
Qed.

(** *** The cache key *)

Lemma field_keys_tags (j1 j2 : Kernel.Jit) :
  field_tags j1 = field_tags j2 ->
  Kernel.field_keys (Kernel.field_args j1) = Kernel.field_keys (Kernel.field_args j2).
Proof.
  unfold field_tags, Kernel.field_keys. intros Htags. f_equal.
  generalize dependent (Kernel.field_args j2).
  induction (Kernel.field_args j1) as [|[n1 f1] l1 IH]; intros [|[n2 f2] l2] Htags;
    simpl in *; try discriminate; [reflexivity|].
  injection Htags as -> -> Htl. f_equal. apply IH. exact Htl.
Qed.

(** C1 (amended) — the cache identity is the MD5 digest of the kernel
    name, the cache key of the particle type, the names and unit tags of
    the field arguments in order, and the time of the evaluation printed
    with six decimals. Every evaluation reads the clock once; two
    evaluations that agree on the name, the particle-type key, the field
    tags and the printed time yield the same identity. The syntax tree
    takes no part in it. *)
Theorem cache_key_determined (k1 k2 : Kernel.t) (j1 j2 : Kernel.Jit)
    (w1 w2 : World) :
  Kernel.jit k1 = Some j1 -> Kernel.jit k2 = Some j2 ->
  Kernel.name k1 = Kernel.name k2 ->
  PType._cache_key (Kernel.ptype k1) = PType._cache_key (Kernel.ptype k2) ->
  field_tags j1 = field_tags j2 ->
  PyFormat.f (clock (clock_reads w1)) = PyFormat.f (clock (clock_reads w2)) ->
  exists key,
    (Kernel._cache_key k1 w1).1 = Ok key
    /\ (Kernel._cache_key k2 w2).1 = Ok key
    /\ key = MD5.hexdigest
               (Kernel.name k1 ++ PType._cache_key (Kernel.ptype k1)
                  ++ Kernel.field_keys (Kernel.field_args j1)
                  ++ "TIME:" ++ PyFormat.f (clock (clock_reads w1)))%string
    /\ clock_reads (Kernel._cache_key k1 w1).2 = S (clock_reads w1)
    /\ clock_reads (Kernel._cache_key k2 w2).2 = S (clock_reads w2).
Proof.
  intros Hj1 Hj2 Hname Hpt Htags Htime.
  unfold Kernel._cache_key. rewrite Hj1, Hj2. run_m.
  unfold Kernel.cache_key_at, Kernel.key_text.
  rewrite <- Hname, <- Hpt, <- Htime, <- (field_keys_tags j1 j2 Htags).
  eexists. repeat split; reflexivity.
Qed.

End ConstructionProperties.

(* ===================================================================== *)
(** ** Construction on concrete kernels *)
(* ===================================================================== *)

Section ConstructionOnToy.

Import Toy.

(** A function of two parameters is refused with the arity error before
    any code is generated, also for a JIT particle type; a function of
    three parameters reaches the code generator. *)
Lemma arity_check_witness :
  length (argspec_args Toy.two_args) <> 3%nat
  /\ (Kernel.__init__ 0%nat Toy.jit (Some Toy.two_args) None None None None
        EmptyString true Toy.world0).1 = Raise ArityError
  /\ codegen_calls
       (Kernel.__init__ 0%nat Toy.jit (Some Toy.two_args) None None None None
          EmptyString true Toy.world0).2 = []
  /\ codegen_calls
       (Kernel.__init__ 0%nat Toy.jit (Some Toy.move) None None None None
          EmptyString true Toy.world0).2
     = [CodeGenerated (fn_def Toy.move) (Some Toy.pft)].
Proof.
  assert (Hlen : length (argspec_args Toy.two_args) <> 3%nat)
    by (vm_compute; discriminate).
  destruct (@arity_check Toy.objects Toy.host 0%nat Toy.jit Toy.two_args None None None None
              EmptyString true Toy.world0) as [Hbad _].
  destruct (Hbad Hlen) as (_ & Hgen & Herr).
  destruct (@arity_check Toy.objects Toy.host 0%nat Toy.jit Toy.move None None None None
              EmptyString true Toy.world0) as [_ Hgood].
  split; [exact Hlen|].
  split; [apply (Herr "two_args"%string (fn_def Toy.two_args)); reflexivity|].
  split; [exact Hgen|].
  apply (Hgood eq_refl "move"%string (fn_def Toy.move)); reflexivity.
Defined.

(** C2, as stated, fails: the arity assertion is not the first step that
    can fail. A function of two parameters whose source cannot be
    fetched makes the constructor fail with the [OSError] of
    [inspect.getsource] (line 98), before its parameters are counted
    (line 127). No kernel is returned and the code generator is not
    called, but the error is not the arity assertion. *)
Lemma arity_counterexample :
  length (argspec_args (compiled (fn_def Toy.two_args))) = 2%nat
  /\ (Kernel.__init__ 0%nat Toy.jit (Some (compiled (fn_def Toy.two_args)))
        None None None None EmptyString true Toy.world0).1
     = Raise (OtherException "OSError" "could not get source code")
  /\ (Kernel.__init__ 0%nat Toy.jit (Some (compiled (fn_def Toy.two_args)))
        None None None None EmptyString true Toy.world0).1
     <> Raise ArityError
  /\ codegen_calls
       (Kernel.__init__ 0%nat Toy.jit (Some (compiled (fn_def Toy.two_args)))
          None None None None EmptyString true Toy.world0).2 = [].
Proof.
  split; [reflexivity|]. split; [vm_compute; reflexivity|].
  split; [vm_compute; discriminate|vm_compute; reflexivity].
Defined.

(** C3, as stated, fails: two kernels over different field sets and
    different particle types merge into a kernel, which silently takes
    the field set and the particle type of the left operand. *)
Lemma merge_counterexample :
  Kernel.fieldset Toy.k_move <> Kernel.fieldset Toy.k_age_elsewhere
  /\ Kernel.ptype Toy.k_move <> Kernel.ptype Toy.k_age_elsewhere
  /\ exists k,
       (Kernel.merge Toy.k_move Toy.k_age_elsewhere Toy.world0).1 = Ok k
       /\ Kernel.fieldset k = 0%nat /\ Kernel.ptype k = Toy.scipy.
Proof.
  split; [vm_compute; discriminate|].
  split; [vm_compute; discriminate|].
  eexists. split; [vm_compute; reflexivity|]. split; reflexivity.
Defined.

Lemma merge_unchecked_witness :
  mergeable Toy.k_move Toy.k_age_elsewhere
  /\ exists k w',
       Kernel.merge Toy.k_move Toy.k_age_elsewhere Toy.world0 = (Ok k, w')
       /\ Kernel.fieldset k = Kernel.fieldset Toy.k_move
       /\ Kernel.ptype k = Kernel.ptype Toy.k_move
       /\ Kernel.funcname k = "moveage"%string.
Proof.
  assert (Hm : mergeable Toy.k_move Toy.k_age_elsewhere) by toy_mergeable.
  split; [exact Hm|].
  destruct (merge_unchecked Toy.k_move Toy.k_age_elsewhere Toy.world0 Hm)
    as (k & w' & Hmerge & Hfs & Hpt & Hname & _).
  exists k, w'. repeat split; assumption.
Defined.

Lemma merge_assoc_witness :
  mergeable Toy.jit_move Toy.jit_age /\ mergeable Toy.jit_age Toy.jit_sink
  /\ exists k1 k2,
       same_definition k1 k2
       /\ Kernel.funcname k1 = "moveagesink"%string
       /\ def_body (Kernel.py_ast k2)
          = [Toy.Assign "lon" 1; Toy.Assign "age" 2; Toy.Assign "depth" 3].
Proof.
  assert (Hab : mergeable Toy.jit_move Toy.jit_age) by toy_mergeable.
  assert (Hbc : mergeable Toy.jit_age Toy.jit_sink) by toy_mergeable.
  assert (Hready : jit_ready (Kernel.fieldset Toy.jit_move) (Kernel.ptype Toy.jit_move)
                     (merged_def3 Toy.jit_move Toy.jit_age Toy.jit_sink)
                     (merged_vars3 Toy.jit_move Toy.jit_age Toy.jit_sink))
    by (intros _; eexists; reflexivity).
  split; [exact Hab|]. split; [exact Hbc|].
  destruct (merge_assoc Toy.jit_move Toy.jit_age Toy.jit_sink Toy.world0 Hab Hbc Hready)
    as (kab & w1 & k1 & w2 & kbc & w3 & k2 & w4 & _ & _ & _ & _ & Hsame & Hname
        & _ & Hbody & _).
  exists k1, k2. split; [exact Hsame|]. split; [exact Hname|].
  destruct Hsame as (_ & _ & _ & Hast & _). rewrite <- Hast. exact Hbody.
Defined.

Lemma radd_callable_witness :
  exists k',
    (Kernel.__radd__ Toy.jit_age (inr Toy.move) Toy.world0).1 = Ok k'
    /\ Kernel.funcname k' = "moveage"%string
    /\ Kernel.name k' = "JITParticlemoveage"%string
    /\ def_body (Kernel.py_ast k') = [Toy.Assign "lon" 1; Toy.Assign "age" 2].
Proof.
  assert (Hm : mergeable (wrapped Toy.jit_age Toy.move "move" (fn_def Toy.move) None)
                         Toy.jit_age) by toy_mergeable.
  assert (Hready : jit_ready (Kernel.fieldset Toy.jit_age) (Kernel.ptype Toy.jit_age)
                     (fn_def Toy.move) (Some (co_varnames Toy.move)))
    by (intros _; eexists; reflexivity).
  assert (Hparse : parse (Indent.fix_indentation "move") = Some (fn_def Toy.move))
    by (vm_compute; reflexivity).
  destruct (radd_callable Toy.jit_age Toy.move "move" (fn_def Toy.move) Toy.world0
              eq_refl Hparse eq_refl Hready Hm)
    as (j & w1 & k' & w' & _ & Hradd & Hmerge & _ & _ & Hname & Hfull & Hbody & _).
  exists k'. rewrite Hradd, Hmerge. repeat split; assumption.
Defined.

(** C1, as stated, fails twice. Two evaluations of the identity of one
    kernel in one process differ, since the clock has moved on; and two
    kernels with different syntax trees, evaluated at the same reading of
    the clock, share their identity, since the tree takes no part in it. *)
Lemma cache_key_counterexample :
  (exists key1 key2 w1,
     Kernel._cache_key Toy.jit_move Toy.world0 = (Ok key1, w1)
     /\ (Kernel._cache_key Toy.jit_move w1).1 = Ok key2
     /\ key1 <> key2)
  /\ Kernel.py_ast Toy.jit_move <> Kernel.py_ast Toy.jit_move_north
  /\ (Kernel._cache_key Toy.jit_move Toy.world0).1
     = (Kernel._cache_key Toy.jit_move_north Toy.world0).1.
Proof.
  split.
  - eexists _, _, _. split; [vm_compute; reflexivity|].
    split; [vm_compute; reflexivity|]. discriminate.
  - split; [vm_compute; discriminate | vm_compute; reflexivity].
Defined.

Lemma cache_key_determined_witness :
  exists key,
    (Kernel._cache_key Toy.jit_move Toy.world0).1 = Ok key
    /\ (Kernel._cache_key Toy.jit_move_north Toy.world0).1 = Ok key
    /\ key = "5a41237c98bb5fcdd3c8d5dbd6d5d715"%string.
Proof.
  edestruct (cache_key_determined Toy.jit_move Toy.jit_move_north)
    with (w1 := Toy.world0) (w2 := Toy.world0)
    as (key & Hk1 & Hk2 & Hkey & _);
    [vm_compute; reflexivity | vm_compute; reflexivity | vm_compute; reflexivity
    | vm_compute; reflexivity | vm_compute; reflexivity | reflexivity |].
  exists key. split; [exact Hk1|]. split; [exact Hk2|].
  rewrite Hkey. vm_compute. reflexivity.
Defined.

End ConstructionOnToy.

(* ===================================================================== *)
(** ** Particle attributes, backup and rollback *)
(* ===================================================================== *)

Section Attributes.

Import ErrorCode.

Lemma getattr_typed (p : Particle.t) (n : string) (x : PyVal) :
  Particle.getattr p n = Some x -> typed n x.
Proof.
  unfold Particle.getattr, typed.
  repeat case_decide; subst; intros Hx; simplify_eq; try done.
  destruct (Particle.vars p !! n); simplify_eq/=. done.
Qed.

Lemma getattr_setattr_eq (p : Particle.t) (n : string) (x : PyVal) :
  typed n x -> Particle.getattr (Particle.setattr p n x) n = Some x.
Proof.
  unfold Particle.getattr, Particle.setattr, typed.
  destruct x as [q|c]; intros Hn; repeat case_decide; subst; simpl; try done.
  rewrite lookup_insert_eq. done.
Qed.

Lemma getattr_setattr_ne (p : Particle.t) (n m : string) (x : PyVal) :
  n <> m -> Particle.getattr (Particle.setattr p n x) m = Particle.getattr p m.
Proof.
  unfold Particle.getattr, Particle.setattr.
  intros Hnm. destruct x as [q|c]; repeat case_decide; subst; simpl; try done.
  rewrite lookup_insert_ne; done.
Qed.

(** A store under a name other than [dt] and [state] leaves the state,
    the step, the exception and the type of the particle alone. *)
Lemma setattr_frame (p : Particle.t) (n : string) (x : PyVal) :
  n ∉ ["dt"; "state"]%string ->
  Particle.state (Particle.setattr p n x) = Particle.state p
  /\ Particle.dt (Particle.setattr p n x) = Particle.dt p
  /\ Particle.exception (Particle.setattr p n x) = Particle.exception p
  /\ Particle._next_dt (Particle.setattr p n x) = Particle._next_dt p
  /\ Particle.getPType (Particle.setattr p n x) = Particle.getPType p.
Proof.
  intros Hn. unfold Particle.setattr.
  destruct x as [q|c]; repeat case_decide; subst; simpl; try done;
    exfalso; apply Hn; set_solver.
Qed.

Lemma setattr_time (p : Particle.t) (n : string) (x : PyVal) :
  n <> "time"%string -> Particle.time (Particle.setattr p n x) = Particle.time p.
Proof.
  intros Hn. unfold Particle.setattr.
  destruct x as [q|c]; repeat case_decide; subst; simpl; done.
Qed.

(** What the backup holds: the attributes of the particle under the
    declared names, and what it held before under the other names. *)
Lemma backup_lookup (vs : list PVariable.t) (p : Particle.t)
    (b0 back : gmap string PyVal) (n : string) :
  backup vs p b0 = Ok back ->
  back !! n = if decide (n ∈ List.map PVariable.name vs)
              then Particle.getattr p n else b0 !! n.
Proof.
  revert b0. induction vs as [|v vs IH]; intros b0 Hb; simpl in Hb; cbn [List.map].
  - injection Hb as <-. rewrite decide_False by set_solver. done.
  - destruct (Particle.getattr p (PVariable.name v)) as [x|] eqn:Hx; [|done].
    rewrite (IH _ Hb).
    destruct (decide (n = PVariable.name v)) as [->|Hne].
    + rewrite lookup_insert_eq. repeat case_decide; try done; set_solver.
    + rewrite lookup_insert_ne by done.
      repeat case_decide; try done; set_solver.
Qed.

Lemma backup_ok (vs : list PVariable.t) (p : Particle.t) (b0 : gmap string PyVal) :
  (forall n, n ∈ List.map PVariable.name vs -> is_Some (Particle.getattr p n)) ->
  exists back, backup vs p b0 = Ok back.
Proof.
  revert b0. induction vs as [|v vs IH]; intros b0 Hall; simpl.
  - eauto.
  - destruct (Hall (PVariable.name v)) as [x ->]; [set_solver|].
    apply IH. intros n Hn. apply Hall. set_solver.
Qed.

Lemma backup_defined (vs : list PVariable.t) (p : Particle.t)
    (b0 back : gmap string PyVal) (m : string) :
  backup vs p b0 = Ok back -> m ∈ List.map PVariable.name vs ->
  is_Some (Particle.getattr p m).
Proof.
  revert b0. induction vs as [|v vs IH]; intros b0 Hb Hm; [set_solver|].
  simpl in Hb.
  destruct (Particle.getattr p (PVariable.name v)) as [x|] eqn:Hx; [|done].
  simpl in Hm. apply elem_of_cons in Hm as [->|Hm]; [eauto|].
  eapply IH; eauto.
Qed.

(** The rollback does not touch the state, the step or the exception. *)
Lemma rollback_frame (vs : list PVariable.t) (back : gmap string PyVal)
    (p : Particle.t) :
  Particle.state (rollback vs back p) = Particle.state p
  /\ Particle.dt (rollback vs back p) = Particle.dt p
  /\ Particle.exception (rollback vs back p) = Particle.exception p
  /\ Particle._next_dt (rollback vs back p) = Particle._next_dt p
  /\ Particle.getPType (rollback vs back p) = Particle.getPType p.
Proof.
  revert p. induction vs as [|v vs IH]; intros p; simpl; [done|].
  case_bool_decide as Hn; [apply IH|].
  destruct (back !! PVariable.name v) as [x|]; [|apply IH].
  destruct (IH (Particle.setattr p (PVariable.name v) x)) as (-> & -> & -> & -> & ->).
  apply setattr_frame. exact Hn.
Qed.

(** The attributes after the rollback: the backed-up value under every
    declared name but [dt] and [state], the current value elsewhere. *)
Lemma rollback_getattr (vs : list PVariable.t) (back : gmap string PyVal)
    (p : Particle.t) (n : string) :
  (forall m, m ∈ List.map PVariable.name vs ->
     exists x, back !! m = Some x /\ typed m x) ->
  Particle.getattr (rollback vs back p) n
  = if decide (n ∈ List.map PVariable.name vs /\ n ∉ ["dt"; "state"]%string)
    then back !! n else Particle.getattr p n.
Proof.
  revert p. induction vs as [|v vs IH]; intros p Hback; cbn [rollback List.map].
  - rewrite decide_False; [done|]. intros [Hc _]. set_solver.
  - assert (Hback' : forall m, m ∈ List.map PVariable.name vs ->
                        exists x, back !! m = Some x /\ typed m x).
    { intros m Hm. apply Hback. set_solver. }
    case_bool_decide as Hn.
    + rewrite (IH p Hback').
      repeat case_decide; try done; exfalso; set_solver.
    + destruct (Hback (PVariable.name v)) as (x & Hx & Htyped); [set_solver|].
      rewrite Hx, (IH _ Hback').
      destruct (decide (n = PVariable.name v)) as [->|Hne].
      * rewrite getattr_setattr_eq by done.
        repeat case_decide; try done; exfalso; set_solver.
      * rewrite getattr_setattr_ne by done.
        repeat case_decide; try done; exfalso; set_solver.
Qed.

(** After a backup of the particle [p0], a rollback of any later state of
    the particle gives every declared variable but [dt] and [state] the
    value it had in [p0]. *)
Lemma rollback_restores (vs : list PVariable.t) (p0 p : Particle.t)
    (b0 back : gmap string PyVal) (n : string) :
  backup vs p0 b0 = Ok back ->
  n ∈ List.map PVariable.name vs -> n ∉ ["dt"; "state"]%string ->
  Particle.getattr (rollback vs back p) n = Particle.getattr p0 n.
Proof.
  intros Hb Hn Hds.
  assert (Hall : forall m, m ∈ List.map PVariable.name vs ->
                   exists x, back !! m = Some x /\ typed m x).
  { intros m Hm. pose proof (backup_lookup vs p0 b0 back m Hb) as Hl.
    rewrite decide_True in Hl by done.
    destruct (backup_defined vs p0 b0 back m Hb Hm) as [x Hx]. exists x. split; [congruence|].
    eapply getattr_typed; eauto. }
  rewrite (rollback_getattr vs back p n Hall), decide_True by done.
  rewrite (backup_lookup vs p0 b0 back n Hb), decide_True by done. done.
Qed.

Lemma rollback_time (vs : list PVariable.t) (p0 p : Particle.t)
    (b0 back : gmap string PyVal) :
  backup vs p0 b0 = Ok back ->
  Particle.time (rollback vs back p)
  = if decide ("time"%string ∈ List.map PVariable.name vs)
    then Particle.time p0 else Particle.time p.
Proof.
  intros Hb. case_decide as Ht.
  - pose proof (rollback_restores vs p0 p b0 back "time" Hb Ht) as Hr.
    unfold Particle.getattr in Hr. simpl in Hr.
    assert (Hds : "time"%string ∉ ["dt"; "state"]%string) by (intros Hin; set_solver).
    specialize (Hr Hds). congruence.
  - clear Hb. revert p. induction vs as [|v vs IH]; intros p; simpl; [done|].
    assert (Hv : PVariable.name v <> "time"%string) by (intros E; set_solver).
    assert (Hvs : "time"%string ∉ List.map PVariable.name vs) by set_solver.
    case_bool_decide; [apply IH; done|].
    destruct (back !! PVariable.name v); [|apply IH; done].
    rewrite IH by done. apply setattr_time. done.
Qed.

End Attributes.

(* ===================================================================== *)
(** ** Properties of the interpreted pass *)
(* ===================================================================== *)

Section Numbers.

Local Open Scope Q_scope.

Lemma sign_zero (x : Q) : x == 0 -> Np.sign x = 0.
Proof. intros Hx. unfold Np.sign. apply Qeq_alt in Hx. rewrite Hx. reflexivity. Qed.

Lemma sign_zero_inv (x : Q) : Qeq_bool (Np.sign x) 0 = true -> x == 0.
Proof.
  unfold Np.sign. destruct (x ?= 0) eqn:Hc; intros Hs.
  - apply Qeq_alt. exact Hc.
  - discriminate.
  - discriminate.
Qed.

Lemma isclose_zero (x : Q) : x == 0 -> Np.isclose x 0 = true.
Proof.
  intros Hx. unfold Np.isclose. apply Qle_bool_iff.
  rewrite Hx. vm_compute. discriminate.
Qed.

Lemma Qmin_abs_zero (a b : Q) : b == 0 -> Qmin (Qabs a) (Qabs b) == 0.
Proof.
  intros Hb. apply Qle_antisym.
  - apply Qle_trans with (Qabs b); [apply Q.le_min_r|].
    rewrite Hb. vm_compute. discriminate.
  - apply Q.min_glb; apply Qabs_nonneg.
Qed.

End Numbers.

Section PythonPass.

Context `{Objects} `{!Host} `{!Engine}.

Local Open Scope Q_scope.

Import ErrorCode.

(** The [try] statement calls the kernel once, on the particle whose step
    is the clamped sub-step, and records nothing else. *)
Lemma try_kernel_log self fs sign_dt dt_pos p w :
  log (try_kernel self fs sign_dt dt_pos p w).2
  = log w ++ [KernelCalled (Kernel.pyfunc self)
                (Particle.set_dt (sign_dt * dt_pos) p) fs (Particle.time p)].
Proof.
  unfold try_kernel. simpl.
  destruct (py_call _ _ _ _ _) as [[env' p'] [r|e]]; reflexivity.
Qed.



(** The loop body on an outcome other than [Success] and [Delete]. *)
Lemma loop_body_retreat self fs ptype endtime dt sign_dt l w back res p' w' :
  backup (PType.variables ptype) (cur l) (p_var_back l) = Ok back ->
  try_kernel self fs sign_dt (dt_pos l) (cur l) w = (res, p', w') ->
  res ∉ [Success; Delete] ->
  loop_body self fs ptype endtime dt sign_dt l w
  = Some (Ok (retreat ptype endtime sign_dt res p' back, true), w').
Proof.
  intros Hb Ht Hres. unfold loop_body. rewrite Hb, Ht.
  rewrite bool_decide_eq_false_2 by exact Hres. reflexivity.
Qed.

(** The loop body on the outcomes [Success] and [Delete]. *)
Lemma loop_body_advance self fs ptype endtime dt sign_dt l w back res p' w' :
  backup (PType.variables ptype) (cur l) (p_var_back l) = Ok back ->
  try_kernel self fs sign_dt (dt_pos l) (cur l) w = (res, p', w') ->
  res ∈ [Success; Delete] ->
  loop_body self fs ptype endtime dt sign_dt l w
  = Some (Ok (advance endtime dt sign_dt res p' back), w').
Proof.
  intros Hb Ht Hres. unfold loop_body. rewrite Hb, Ht.
  rewrite bool_decide_eq_true_2 by exact Hres. reflexivity.
Qed.

(** A turn that ends in [break] ends the loop. *)
Lemma while_loop_break fuel self fs ptype endtime dt sign_dt l w l' w' :
  loop_guard dt (cur l) = true ->
  loop_body self fs ptype endtime dt sign_dt l w = Some (Ok (l', true), w') ->
  while_loop (S fuel) self fs ptype endtime dt sign_dt l w = Some (Ok l', w').
Proof.
  intros Hg Hbody. simpl. rewrite Hg. unfold bindE. rewrite Hbody. reflexivity.
Qed.

(** The particle after the retreat of lines 345-356. *)
Lemma retreat_particle ptype endtime sign_dt res p0 p' b0 back :
  backup (PType.variables ptype) p0 b0 = Ok back ->
  let q := cur (retreat ptype endtime sign_dt res p' back) in
  Particle.state q = res
  /\ Particle.dt q = Particle.dt p'
  /\ Particle.exception q = Particle.exception p'
  /\ (forall n, declared ptype n -> n ∉ ["dt"; "state"]%string ->
        Particle.getattr q n = Particle.getattr p0 n)
  /\ Particle.time q = if decide (declared ptype "time")
                       then Particle.time p0 else Particle.time p'.
Proof.
  intros Hb q. subst q. unfold retreat. simpl.
  destruct (rollback_frame (PType.variables ptype) back (Particle.set_state res p'))
    as (Hs & Hd & He & _).
  rewrite Hs, Hd, He. simpl. repeat split.
  - intros n Hn Hds. eapply rollback_restores; eauto.
  - rewrite (rollback_time _ p0 _ b0 back Hb). unfold declared.
    destruct (decide _); reflexivity.
Qed.

(** C7 — when the outcome of a kernel invocation is neither [Success]
    nor [Delete], the turn ends in [break], so the loop over this particle
    stops; every variable the particle type declares, except [dt] and
    [state], has again the value it had just before the invocation, and so
    has [particle.time], which is one of them. *)
Theorem rollback_on_failure self fs ptype endtime dt sign_dt l w res p' w' :
  has_declared ptype (cur l) ->
  try_kernel self fs sign_dt (dt_pos l) (cur l) w = (res, p', w') ->
  res ∉ [Success; Delete] ->
  exists l',
    loop_body self fs ptype endtime dt sign_dt l w = Some (Ok (l', true), w')
    /\ (forall fuel, loop_guard dt (cur l) = true ->
          while_loop (S fuel) self fs ptype endtime dt sign_dt l w = Some (Ok l', w'))
    /\ (forall n, declared ptype n -> n ∉ ["dt"; "state"]%string ->
          Particle.getattr (cur l') n = Particle.getattr (cur l) n)
    /\ (declared ptype "time" -> Particle.time (cur l') = Particle.time (cur l))
    /\ Particle.state (cur l') = res
    /\ Particle.dt (cur l') = Particle.dt p'.
Proof.
  intros Hdecl Htry Hres.
  destruct (backup_ok (PType.variables ptype) (cur l) (p_var_back l) Hdecl)
    as [back Hb].
  pose proof (loop_body_retreat self fs ptype endtime dt sign_dt l w back res p' w'
                Hb Htry Hres) as Hbody.
  destruct (retreat_particle ptype endtime sign_dt res (cur l) p' (p_var_back l) back Hb)
    as (Hs & Hd & _ & Hvars & Htime).
  eexists. split; [exact Hbody|].
  split. { intros fuel Hg. eapply while_loop_break; eauto. }
  split; [exact Hvars|].
  split. { intros Ht. rewrite Htime, decide_True by exact Ht. reflexivity. }
  split; assumption.
Qed.



(** *** A step size of zero *)

Lemma update_next_dt_time (p : Particle.t) :
  Particle.time (Particle.update_next_dt p) = Particle.time p.
Proof. unfold Particle.update_next_dt. destruct (Particle._next_dt p); reflexivity. Qed.

(** With [sign_dt = 0] the outcome of lines 330-344 is never turned into
    [Evaluate], and the time has grown by the step the kernel left. *)
Lemma advance_zero endtime dt res p back :
  let q := cur (advance endtime dt 0 res p back).1 in
  Particle.state q = res /\ Particle.time q = Particle.time p + Particle.dt p.
Proof.
  unfold advance. cbv zeta. cbn [fst cur Particle.set_state Particle.state Particle.time].
  set (p1 := Particle.update_next_dt _).
  split.
  - destruct (Qeq_bool (Np.sign (endtime - Particle.time p1)) 0) eqn:Hs.
    + apply sign_zero_inv in Hs.
      rewrite (isclose_zero _ (Qmin_abs_zero (Particle.dt p1) _ Hs)).
      rewrite andb_false_r. reflexivity.
    + rewrite andb_false_r. reflexivity.
  - subst p1. rewrite update_next_dt_time. reflexivity.
Qed.

(** One particle in a pass with [dt = 0]: the interpreted pass calls the kernel
    exactly once on a particle, whatever the fuel, with the particle's
    step set to zero, and then leaves the loop. The particle's state is
    then the outcome of that one call: [Success], [Delete], or whatever
    other outcome the kernel produced. On [Success] and [Delete] the time
    has grown by the step the kernel left on the particle; on another
    outcome the time is the backed-up one. So the time is unchanged
    whenever the kernel body leaves [time] as it is and [dt] at zero. *)
Theorem zero_dt_single_pass fuel self fs endtime dt p back w res pk wk :
  dt == 0 ->
  has_declared (Particle.getPType p) p ->
  try_kernel self fs (Np.sign dt)
             (Qmin (Qabs (Particle.dt p)) (Qabs (endtime - Particle.time p))) p w
  = (res, pk, wk) ->
  exists p' back',
    run_particle (S fuel) self fs endtime dt (Np.sign dt) p back w
    = Some (Ok (p', back'), wk)
    /\ (exists p_in,
          log wk = log w ++ [KernelCalled (Kernel.pyfunc self) p_in fs (Particle.time p)]
          /\ Particle.dt p_in == 0 /\ Particle.time p_in = Particle.time p)
    /\ Particle.state p' = res
    /\ (res ∈ [Success; Delete] ->
        Particle.time p' = Particle.time pk + Particle.dt pk)
    /\ (res ∉ [Success; Delete] -> declared (Particle.getPType p) "time" ->
        Particle.time p' = Particle.time p)
    /\ (Particle.time pk = Particle.time p -> Particle.dt pk == 0 ->
        Particle.time p' == Particle.time p).
Proof.
  intros Hdt Hdecl Htry.
  pose proof (isclose_zero dt Hdt) as Hclose.
  pose proof (sign_zero dt Hdt) as Hsign.
  set (dt_pos0 := Qmin (Qabs (Particle.dt p)) (Qabs (endtime - Particle.time p))) in *.
  set (l := {| cur := p; dt_pos := dt_pos0;
               sign_end_part := Np.sign (endtime - Particle.time p);
               p_var_back := back |}).
  destruct (backup_ok (PType.variables (Particle.getPType p)) p back Hdecl)
    as [bk Hb].
  assert (Hlog : exists p_in,
             log wk = log w ++ [KernelCalled (Kernel.pyfunc self) p_in fs (Particle.time p)]
             /\ Particle.dt p_in == 0 /\ Particle.time p_in = Particle.time p).
  { exists (Particle.set_dt (Np.sign dt * dt_pos0) p).
    pose proof (try_kernel_log self fs (Np.sign dt) dt_pos0 p w) as Hl.
    rewrite Htry in Hl. simpl in Hl. split; [exact Hl|].
    split; [|reflexivity]. simpl. rewrite Hsign. ring. }
  assert (Hguard : loop_guard dt p = true).
  { unfold loop_guard. rewrite Hclose. apply orb_true_r. }
  assert (Hrun : forall l', loop_body self fs (Particle.getPType p) endtime dt
                              (Np.sign dt) l w = Some (Ok (l', true), wk) ->
                 run_particle (S fuel) self fs endtime dt (Np.sign dt) p back w
                 = Some (Ok (cur l', p_var_back l'), wk)).
  { intros l' Hbody. unfold run_particle. fold dt_pos0. fold l.
    rewrite Hclose. rewrite andb_false_r. unfold bindE.
    rewrite (while_loop_break fuel _ _ _ _ _ _ l w l' wk Hguard Hbody).
    reflexivity. }
  destruct (decide (res ∈ [Success; Delete])) as [Hres|Hres].
  - pose proof (loop_body_advance self fs (Particle.getPType p) endtime dt (Np.sign dt)
                  l w bk res pk wk Hb Htry Hres) as Hbody.
    assert (Hbreak : (advance endtime dt (Np.sign dt) res pk bk).2 = true)
      by (unfold advance; simpl; exact Hclose).
    destruct (advance endtime dt (Np.sign dt) res pk bk) as [l' brk] eqn:Hadv.
    simpl in Hbreak. subst brk.
    pose proof (advance_zero endtime dt res pk bk) as [Hs Ht].
    rewrite <- Hsign, Hadv in Hs, Ht. simpl in Hs, Ht.
    exists (cur l'), (p_var_back l').
    split; [apply Hrun; exact Hbody|].
    split; [exact Hlog|]. split; [exact Hs|].
    split; [intros _; exact Ht|].
    split; [intros Hno; contradiction|].
    intros Htk Hdk. rewrite Ht, Htk, Hdk. ring.
  - pose proof (loop_body_retreat self fs (Particle.getPType p) endtime dt (Np.sign dt)
                  l w bk res pk wk Hb Htry Hres) as Hbody.
    destruct (retreat_particle (Particle.getPType p) endtime (Np.sign dt) res p pk
                back bk Hb) as (Hs & _ & _ & _ & Ht).
    eexists _, _.
    split; [apply Hrun; exact Hbody|].
    split; [exact Hlog|]. split; [exact Hs|].
    split; [intros Hyes; contradiction|].
    split.
    + intros _ Hd. rewrite Ht, decide_True by exact Hd. reflexivity.
    + intros Htk _. rewrite Ht. destruct (decide _); [reflexivity|].
      rewrite Htk. reflexivity.
Qed.

End PythonPass.

(* ===================================================================== *)
(** ** The interpreted pass on concrete particles *)
(* ===================================================================== *)

Section PythonPassOnToy.

Import Toy.

Lemma fresh_has_declared : has_declared scipy fresh.
Proof.
  intros n Hn. unfold declared in Hn. simpl in Hn.
  repeat (apply elem_of_cons in Hn as [->|Hn]); try (vm_compute; eauto; fail).
  apply elem_of_nil in Hn. destruct Hn.
Defined.

(** The kernel sets [lon] and [time] and then raises: both have their
    old values again, and the loop over the particle is left. *)
Lemma rollback_on_failure_witness :
  exists l' w',
    while_loop 1 k_out_of_bounds 0%nat scipy 10 1 1 loop0 world0 = Some (Ok l', w')
    /\ Particle.state (cur l') = ErrorCode.ErrorOutOfBounds
    /\ Particle.time (cur l') = Particle.time fresh
    /\ Particle.getattr (cur l') "lon" = Particle.getattr fresh "lon".
Proof.
  edestruct (@rollback_on_failure Toy.objects Toy.host k_out_of_bounds 0%nat scipy
               10 1 1 loop0 world0)
    as (l' & Hbody & Hloop & Hvars & Htime & Hstate & _);
    [exact fresh_has_declared | vm_compute; reflexivity
    | intros Hin; repeat (apply elem_of_cons in Hin as [Hin|Hin]; [discriminate|]);
      apply elem_of_nil in Hin; destruct Hin |].
  eexists l', _. split; [apply (Hloop 0%nat); vm_compute; reflexivity|].
  split; [exact Hstate|].
  split.
  - apply Htime. unfold declared. simpl. set_solver.
  - apply Hvars; [unfold declared; simpl; set_solver|].
    intros Hin; repeat (apply elem_of_cons in Hin as [Hin|Hin]; [discriminate|]).
    apply elem_of_nil in Hin. destruct Hin.
Defined.


(** With [dt = 0] a kernel that only moves the particle is called once;
    the particle ends in [Success] at the time it started from. *)
Lemma zero_dt_single_pass_witness :
  exists p' back' w',
    run_particle 1 k_move 0%nat 10 0 (Np.sign 0) fresh ∅ world0
    = Some (Ok (p', back'), w')
    /\ Particle.state p' = ErrorCode.Success
    /\ (Particle.time p' == Particle.time fresh)%Q
    /\ length (log w') = 1%nat.
Proof.
  edestruct (@zero_dt_single_pass Toy.objects Toy.host 0%nat k_move 0%nat 10 0
               fresh ∅ world0)
    as (p' & back' & Hrun & (p_in & Hlog & _) & Hstate & _ & _ & Htime);
    [reflexivity | exact fresh_has_declared | vm_compute; reflexivity |].
  eexists p', back', _. split; [exact Hrun|].
  split; [exact Hstate|].
  split; [apply Htime; vm_compute; reflexivity|].
  rewrite Hlog. reflexivity.
Defined.

(** What one pass with [dt = 0] can leave. A kernel that deletes the
    particle leaves it in [Delete], and a kernel that returns [Repeat]
    leaves it in [Repeat]: neither [Success] nor an error state. A kernel
    that sets [particle.dt] to 5 before it deletes the particle has the
    engine advance [particle.time] from 0 to 5. *)
Lemma zero_dt_pass_outcomes :
  (exists p' w',
     execute_python 1 k_delete (pop [fresh]) 10 0 world0 = Some (Ok (pop [p']), w')
     /\ Particle.state p' = ErrorCode.Delete)
  /\ (exists p' w',
        execute_python 1 k_repeat (pop [fresh]) 10 0 world0 = Some (Ok (pop [p']), w')
        /\ Particle.state p' = ErrorCode.Repeat)
  /\ (exists p' w',
        execute_python 1 k_delete_late (pop [fresh]) 10 0 world0
        = Some (Ok (pop [p']), w')
        /\ Particle.time fresh = 0%Q /\ Particle.time p' = 5%Q
        /\ ~ (Particle.time p' == Particle.time fresh)%Q).
Proof.
  split; [|split].
  - eexists _, _. split; [vm_compute; reflexivity|]. reflexivity.
  - eexists _, _. split; [vm_compute; reflexivity|]. reflexivity.
  - eexists _, _. split; [vm_compute; reflexivity|].
    split; [reflexivity|]. split; [reflexivity|].
    intros Heq. vm_compute in Heq. discriminate Heq.
Defined.

End PythonPassOnToy.

(* ===================================================================== *)
(** ** Properties of the recovery loop *)
(* ===================================================================== *)

Section Positions.

(** Reading and writing the population by position. *)
Lemma particle_at_store_eq (ps : list (list Particle.t)) (pos : nat * nat)
    (p q : Particle.t) :
  particle_at ps pos = Some p -> particle_at (store_at ps pos q) pos = Some q.
Proof.
  unfold particle_at, store_at. intros Hp.
  rewrite list_lookup_alter_eq.
  destruct (ps !! pos.1) as [sub|]; simpl in *; [|done].
  apply list_lookup_insert_eq. eapply lookup_lt_Some; eauto.
Qed.

Lemma particle_at_store_ne (ps : list (list Particle.t)) (pos pos' : nat * nat)
    (q : Particle.t) :
  pos <> pos' -> particle_at (store_at ps pos q) pos' = particle_at ps pos'.
Proof.
  unfold particle_at, store_at. intros Hne.
  destruct (decide (pos.1 = pos'.1)) as [E|E].
  - rewrite <- E, list_lookup_alter_eq.
    destruct (ps !! pos.1) as [sub|]; simpl; [|done].
    apply list_lookup_insert_ne. intros E2. apply Hne.
    destruct pos, pos'; simpl in *; congruence.
  - rewrite list_lookup_alter_ne by done. done.
Qed.

Lemma store_at_lengths (ps : list (list Particle.t)) (pos : nat * nat)
    (q : Particle.t) :
  List.map (@length _) (store_at ps pos q) = List.map (@length _) ps.
Proof.
  unfold store_at. destruct pos as [i j]. simpl. revert i.
  induction ps as [|sub ps IH]; intros [|i]; simpl; try done.
  - rewrite length_insert. done.
  - f_equal. apply IH.
Qed.

(** The positions of the error particles of a sub-batch and of a
    population. *)
Lemma elem_of_errors_in (i j : nat) (sub : list Particle.t) (pos : nat * nat) :
  pos ∈ errors_in i j sub <->
  pos.1 = i /\ (j <= pos.2)%nat
  /\ exists p, sub !! (pos.2 - j)%nat = Some p /\ is_error p = true.
Proof.
  revert j. induction sub as [|q sub IH]; intros j; simpl.
  - split; [intros Hin; inversion Hin | intros (_ & _ & p & Hp & _); done].
  - assert (Hrest : pos ∈ errors_in i (S j) sub <->
                    pos.1 = i /\ (j < pos.2)%nat
                    /\ exists p, (q :: sub) !! (pos.2 - j)%nat = Some p
                                 /\ is_error p = true).
    { rewrite IH. split.
      - intros (Hi & Hj & p & Hp & He). repeat split; [done|lia|].
        exists p. split; [|done].
        replace (pos.2 - j)%nat with (S (pos.2 - S j)) by lia. done.
      - intros (Hi & Hj & p & Hp & He). repeat split; [done|lia|].
        exists p. split; [|done].
        replace (pos.2 - j)%nat with (S (pos.2 - S j)) in Hp by lia. done. }
    assert (Hhead : pos = (i, j) ->
                    (q :: sub) !! (pos.2 - j)%nat = Some q).
    { intros ->. simpl. replace (j - j)%nat with 0%nat by lia. done. }
    destruct (is_error q) eqn:Hq.
    + rewrite elem_of_cons, Hrest. split.
      * intros [->|(Hi & Hj & Hp)]; [|repeat split; [done|lia|done]].
        simpl. repeat split; [lia|]. exists q.
        replace (j - j)%nat with 0%nat by lia. done.
      * intros (Hi & Hj & p & Hp & He).
        destruct (decide (pos.2 = j)) as [E|E].
        -- left. destruct pos; simpl in *; congruence.
        -- right. repeat split; [done|lia|eauto].
    + rewrite Hrest. split.
      * intros (Hi & Hj & Hp). repeat split; [done|lia|done].
      * intros (Hi & Hj & p & Hp & He). repeat split; [done| |eauto].
        destruct (decide (pos.2 = j)) as [E|E]; [|lia].
        rewrite E in Hp. replace (j - j)%nat with 0%nat in Hp by lia.
        simpl in Hp. congruence.
Qed.

Lemma elem_of_error_positions (i : nat) (ps : list (list Particle.t))
    (pos : nat * nat) :
  pos ∈ error_positions i ps <->
  (i <= pos.1)%nat
  /\ exists p, particle_at ps ((pos.1 - i)%nat, pos.2) = Some p /\ is_error p = true.
Proof.
  revert i. induction ps as [|sub ps IH]; intros i; simpl.
  - split; [intros Hin; inversion Hin | intros (_ & p & Hp & _); done].
  - rewrite elem_of_app, elem_of_errors_in, IH. unfold particle_at. simpl. split.
    + intros [(Hi & _ & p & Hp & He)|(Hi & p & Hp & He)].
      * split; [lia|]. exists p. rewrite Hi.
        replace (i - i)%nat with 0%nat by lia. simpl.
        replace (pos.2 - 0)%nat with pos.2 in Hp by lia. done.
      * split; [lia|]. exists p.
        replace (pos.1 - i)%nat with (S (pos.1 - S i)) by lia. done.
    + intros (Hi & p & Hp & He).
      destruct (decide (pos.1 = i)) as [E|E].
      * left. repeat split; [done|lia|]. exists p.
        rewrite E in Hp. replace (i - i)%nat with 0%nat in Hp by lia. simpl in Hp.
        replace (pos.2 - 0)%nat with pos.2 by lia. done.
      * right. split; [lia|]. exists p.
        replace (pos.1 - i)%nat with (S (pos.1 - S i)) in Hp by lia. done.
Qed.

(** A particle in an error state sits at one of the error positions. *)
Lemma error_position (ps : list (list Particle.t)) (pos : nat * nat)
    (p : Particle.t) :
  particle_at ps pos = Some p -> is_error p = true ->
  pos ∈ error_positions 0 ps.
Proof.
  intros Hp He. apply elem_of_error_positions. split; [lia|].
  exists p. replace (pos.1 - 0)%nat with pos.1 by lia.
  destruct pos. done.
Qed.

Lemma errors_in_NoDup (i j : nat) (sub : list Particle.t) :
  base.NoDup (errors_in i j sub).
Proof.
  revert j. induction sub as [|q sub IH]; intros j; simpl; [constructor|].
  destruct (is_error q); [|apply IH].
  apply list.NoDup_cons. split; [|apply IH].
  rewrite elem_of_errors_in. simpl. intros (_ & Hj & _). lia.
Qed.

Lemma error_positions_NoDup (i : nat) (ps : list (list Particle.t)) :
  base.NoDup (error_positions i ps).
Proof.
  revert i. induction ps as [|sub ps IH]; intros i; simpl; [constructor|].
  apply list.NoDup_app.
  split; [apply errors_in_NoDup|]. split; [|apply IH].
  intros pos Hin Hin'. apply elem_of_errors_in in Hin as (Hi & _).
  apply elem_of_error_positions in Hin' as (Hi' & _). lia.
Qed.

End Positions.

Section RecoveryLoop.

Context `{Objects} `{!Host} `{!Engine}.

Import ErrorCode.

Lemma recovery_only_refl (l : list Event) : recovery_only l l.
Proof. exists []. rewrite app_nil_r. done. Qed.

Lemma recovery_only_trans (l1 l2 l3 : list Event) :
  recovery_only l1 l2 -> recovery_only l2 l3 -> recovery_only l1 l3.
Proof.
  intros (e1 & -> & H1') (e2 & -> & H2'). exists (e1 ++ e2).
  rewrite <- app_assoc, forallb_app, H1', H2'. done.
Qed.

Lemma recovery_within_refl (n : nat) (l : list Event) : recovery_within n l l.
Proof. exists []. rewrite app_nil_r. simpl. repeat split; try done; simpl; lia. Qed.

Lemma recovery_within_event (l : list Event) (ev : Event) :
  is_recovery_event ev = true -> recovery_within 1 l (l ++ [ev]).
Proof. intros Hev. exists [ev]. simpl. rewrite Hev. repeat split; try done; simpl; lia. Qed.



Lemma recovery_within_only (n : nat) (l l' : list Event) :
  recovery_within n l l' -> recovery_only l l'.
Proof. intros (evs & -> & Hev & _). exists evs. done. Qed.

(** Lines 429-434: the branch of a particle with a mapped recovery. *)
Lemma recover_mapped self rmap p rk w :
  Particle.state p <> StopExecution -> Particle.state p <> Repeat ->
  rmap !! Particle.state p = Some rk ->
  recover self rmap p w =
  let p1 := Particle.set_state Success p in
  let w1 := add_event (RecoveryCalled rk p1 (Kernel.fieldset self) (Particle.time p)) w in
  match py_call rk (env w) p1 (Kernel.fieldset self) (Particle.time p) with
  | (env', p', Returns _) =>
      Some (Ok (Some (if Particle.isComputed p' then Particle.reset_state p' else p')),
            set_env env' w1)
  | (env', p', Raises e) => Some (Raise e, set_env env' w1)
  end.
Proof.
  intros Hstop Hrep Hrk. unfold recover.
  rewrite !bool_decide_eq_false_2 by done. rewrite Hrk. reflexivity.
Qed.

(** One error particle: the step always ends, records events of the
    recovery loop only, and is the [return] of line 426 exactly for a
    particle in [StopExecution]. *)
Lemma recover_total self rmap p w :
  exists r w',
    recover self rmap p w = Some (r, w')
    /\ recovery_within 1 (log w) (log w')
    /\ (r = Ok None <-> Particle.state p = StopExecution).
Proof.
  unfold recover.
  case_bool_decide as Hstop.
  { exists (Ok None), w. split; [done|]. split; [apply recovery_within_refl|done]. }
  case_bool_decide as Hrep.
  { eexists _, w. split; [done|]. split; [apply recovery_within_refl|].
    split; [discriminate|contradiction]. }
  destruct (rmap !! Particle.state p) as [rk|].
  - destruct (py_call rk (env w) (Particle.set_state Success p) (Kernel.fieldset self)
                (Particle.time p)) as [[env' p'] [r|e]] eqn:Hcall.
    + eexists _, _. simpl. rewrite Hcall. split; [done|].
      split; [apply recovery_within_event; done|]. split; [discriminate|contradiction].
    + eexists _, _. simpl. rewrite Hcall. split; [done|].
      split; [apply recovery_within_event; done|]. split; [discriminate|contradiction].
  - eexists _, _. unfold bindE, emitE, retE. split; [done|].
    split; [apply recovery_within_event; done|]. split; [discriminate|contradiction].
Qed.

Lemma untouched_outside_refl errs (ps : list (list Particle.t)) :
  untouched_outside errs ps ps.
Proof. repeat split; auto. Qed.

(** The recovery [for] loop always ends; it records events of the
    recovery loop only, keeps the shape of the population, and changes no
    particle outside the error positions and none in [StopExecution]. *)
Lemma recover_all_result self rmap errs ps w :
  exists r w',
    recover_all self rmap errs ps w = Some (r, w')
    /\ recovery_only (log w) (log w')
    /\ match r with
       | Ok (_, ps') => untouched_outside errs ps ps'
       | Raise _ => True
       end.
Proof.
  revert ps w. induction errs as [|pos errs IH]; intros ps w; simpl.
  - eexists _, w. split; [done|]. split; [apply recovery_only_refl|].
    apply untouched_outside_refl.
  - destruct (particle_at ps pos) as [p|] eqn:Hp.
    + destruct (recover_total self rmap p w) as (r & w1 & Hrec & Hlog & Hstop).
      apply recovery_within_only in Hlog.
      unfold bindE. rewrite Hrec. destruct r as [[p'|]|e].
      * destruct (IH (store_at ps pos p') w1) as (r2 & w2 & Hall & Hlog2 & Hun).
        exists r2, w2. split; [exact Hall|].
        split; [eapply recovery_only_trans; eauto|].
        destruct r2 as [[flow ps']|e]; [|done].
        destruct Hun as (Hlen & Hout & Hkeep). repeat split.
        -- rewrite Hlen. apply store_at_lengths.
        -- intros pos' Hnot. rewrite Hout by set_solver.
           apply particle_at_store_ne. set_solver.
        -- intros pos' q Hq Hs. apply Hkeep; [|done].
           rewrite particle_at_store_ne; [done|].
           intros ->. rewrite Hp in Hq. injection Hq as ->.
           assert (Hnone : @Ok (option Particle.t) (Some p') = Ok None)
             by (apply Hstop; exact Hs).
           discriminate.
      * eexists _, w1. split; [done|]. split; [exact Hlog|].
        apply untouched_outside_refl.
      * eexists _, w1. split; [done|]. split; [exact Hlog|]. done.
    + destruct (IH ps w) as (r2 & w2 & Hall & Hlog2 & Hun).
      exists r2, w2. split; [exact Hall|]. split; [exact Hlog2|].
      destruct r2 as [[flow ps']|e]; [|done].
      destruct Hun as (Hlen & Hout & Hkeep). repeat split; [done| |done].
      intros pos' Hnot. apply Hout. set_solver.
Qed.



(** One turn of the [while] loop of line 422. *)
Lemma recovery_loop_turn fuel self rmap output_file endtime dt pset w :
  error_positions 0 (particles_a pset) <> [] ->
  recovery_loop (S fuel) self rmap output_file endtime dt pset w
  = bindE (recover_all self rmap (error_positions 0 (particles_a pset))
                       (particles_a pset))
          (fun r =>
             match r.1 with
             | Returned => retE (Returned, with_particles r.2 pset)
             | Completed =>
                 bindE (remove_deleted output_file endtime (with_particles r.2 pset))
                       (fun pset1 =>
                          bindE (engine_pass (S fuel) self pset1 endtime dt)
                                (fun pset2 =>
                                   recovery_loop fuel self rmap output_file
                                                 endtime dt pset2))
             end) w.
Proof.
  intros Hne. cbn [recovery_loop].
  destruct (error_positions 0 (particles_a pset)); [contradiction|reflexivity].
Qed.


(** *** The deletion sweep *)

Lemma deleted_from_bound (i : nat) (sub : list Particle.t) (k : nat) :
  k ∈ (deleted_from i sub).1 -> (i <= k)%nat.
Proof.
  revert i. induction sub as [|q sub IH]; intros i; simpl; [set_solver|].
  case_bool_decide; simpl.
  - intros [->|Hk]%elem_of_cons; [lia|]. apply IH in Hk. lia.
  - intros Hk. apply IH in Hk. lia.
Qed.

Lemma remove_at_drop_low (i j : nat) (idx : list nat) (sub : list Particle.t) :
  (j < i)%nat -> remove_at i (j :: idx) sub = remove_at i idx sub.
Proof.
  revert i. induction sub as [|q sub IH]; intros i Hj; simpl; [done|].
  rewrite IH by lia.
  destruct (decide (i ∈ idx)) as [Hin|Hin].
  - rewrite !bool_decide_eq_true_2 by set_solver. done.
  - rewrite !bool_decide_eq_false_2; [done|done|].
    intros [E|E]%elem_of_cons; [lia|done].
Qed.

(** [pset.remove] on the indices found by [remove_deleted] keeps exactly
    the particles that are not in [Delete]. *)
Lemma remove_at_deleted (i : nat) (sub : list Particle.t) :
  remove_at i (deleted_from i sub).1 sub = List.filter survives sub.
Proof.
  revert i. induction sub as [|q sub IH]; intros i; [done|].
  cbn [deleted_from List.filter]. unfold survives at 1.
  destruct (decide (Particle.state q = ErrorCode.Delete)) as [Hq|Hq].
  - rewrite (bool_decide_eq_true_2 _ Hq). cbn [fst negb remove_at].
    rewrite bool_decide_eq_true_2 by set_solver.
    rewrite remove_at_drop_low by lia. apply IH.
  - rewrite (bool_decide_eq_false_2 _ Hq). cbn [negb remove_at].
    rewrite bool_decide_eq_false_2.
    + f_equal. apply IH.
    + intros Hin. apply deleted_from_bound in Hin. lia.
Qed.

Lemma deleted_from_none (i : nat) (sub : list Particle.t) :
  (deleted_from i sub).2 = [] -> List.filter survives sub = sub.
Proof.
  revert i. induction sub as [|q sub IH]; intros i; [done|].
  cbn [deleted_from List.filter]. unfold survives at 1.
  destruct (decide (Particle.state q = ErrorCode.Delete)) as [Hq|Hq].
  - rewrite (bool_decide_eq_true_2 _ Hq). discriminate.
  - rewrite (bool_decide_eq_false_2 _ Hq). cbn [negb].
    intros Hnone. f_equal. eapply IH; eauto.
Qed.

Lemma remove_deleted_filter output_file endtime pset w :
  exists pset' w',
    remove_deleted output_file endtime pset w = Some (Ok pset', w')
    /\ particles_a pset' = List.map (List.filter survives) (particles_a pset)
    /\ pset_fieldset pset' = pset_fieldset pset.
Proof.
  unfold remove_deleted, bindE, retE, emitE.
  assert (Hzip : forall ps : list (list Particle.t),
             zip_with (fun (idx : option (list nat)) subfield =>
                         match idx with
                         | Some l => remove_at 0 l subfield
                         | None => subfield
                         end)
               (List.map (fun r : list nat * list Particle.t =>
                            if bool_decide (0 < length r.2)%nat then Some r.1 else None)
                         (List.map (deleted_from 0) ps)) ps
             = List.map (List.filter survives) ps).
  { induction ps as [|sub ps IH]; simpl; [done|]. rewrite IH. f_equal.
    case_bool_decide as Hlen.
    - apply remove_at_deleted.
    - symmetry. apply (deleted_from_none 0).
      destruct (deleted_from 0 sub).2; [done|simpl in Hlen; lia]. }
  destruct output_file; eexists _, _; (split; [reflexivity|]);
    unfold pset_remove; simpl; rewrite Hzip; done.
Qed.

(** *** The recovery step *)

(** In a recovery [for] loop that runs to its end, every error particle
    has been through lines 425-437 once, in the state in which the loop
    found it. *)
Lemma recover_all_completed self rmap errs ps w ps' w' pos p :
  base.NoDup errs ->
  recover_all self rmap errs ps w = Some (Ok (Completed, ps'), w') ->
  pos ∈ errs -> particle_at ps pos = Some p ->
  exists wb q wa pre post,
    recover self rmap p wb = Some (Ok (Some q), wa)
    /\ particle_at ps' pos = Some q
    /\ log wb = log w ++ pre /\ log w' = log wa ++ post.
Proof.
  revert ps w. induction errs as [|pos0 errs IH]; intros ps w Hnd Hall Hin Hp;
    [set_solver|].
  apply list.NoDup_cons in Hnd as [Hfresh Hnd].
  simpl in Hall. destruct (particle_at ps pos0) as [p0|] eqn:Hp0.
  - destruct (recover_total self rmap p0 w) as (r0 & w1 & Hrec & (ev1 & Hlog1 & _) & _).
    unfold bindE in Hall. rewrite Hrec in Hall.
    destruct r0 as [[p0'|]|e]; [|discriminate|discriminate].
    destruct (decide (pos = pos0)) as [->|Hne].
    + rewrite Hp in Hp0. injection Hp0 as <-.
      destruct (recover_all_result self rmap errs (store_at ps pos0 p0') w1)
        as (r2 & w2 & Hall2 & (ev2 & Hlog2 & _) & Hun).
      rewrite Hall in Hall2. injection Hall2 as <- <-.
      destruct Hun as (_ & Hout & _).
      exists w, p0', w1, [], ev2. split; [exact Hrec|].
      split; [|split; [rewrite app_nil_r; done|exact Hlog2]].
      rewrite Hout by done. eapply particle_at_store_eq; eauto.
    + destruct (IH (store_at ps pos0 p0') w1 Hnd Hall) as
        (wb & q & wa & pre & post & Hrecq & Hq & Hpre & Hpost);
        [set_solver | rewrite particle_at_store_ne; done |].
      exists wb, q, wa, (ev1 ++ pre), post. split; [exact Hrecq|].
      split; [exact Hq|]. split; [|exact Hpost].
      rewrite Hpre, Hlog1, app_assoc. done.
  - apply (IH ps w Hnd Hall); [|done].
    apply elem_of_cons in Hin as [->|Hin]; [congruence|done].
Qed.

(** C4 (amended) — in a recovery step that runs to its end, every error
    particle whose state has an entry in the recovery map (and is not
    [Repeat]) has had the mapped recovery kernel called on it, with its
    state set to [Success], the kernel's field set and the particle's
    time. Its state is then reset to [Evaluate] only if it is still
    [Success] after the recovery kernel; otherwise the particle is kept
    as the recovery kernel left it. The deletion sweep that follows keeps
    exactly the particles that are not in [Delete], so a particle left in
    [Delete] is removed instead of waiting for another recovery. *)
Theorem recovery_step self rmap ps w ps' w' pos p rk :
  recover_all self rmap (error_positions 0 ps) ps w = Some (Ok (Completed, ps'), w') ->
  particle_at ps pos = Some p -> is_error p = true ->
  Particle.state p <> Repeat -> rmap !! Particle.state p = Some rk ->
  exists wb enva pr r,
    py_call rk (env wb) (Particle.set_state Success p) (Kernel.fieldset self)
            (Particle.time p) = (enva, pr, Returns r)
    /\ (exists pre post,
          log w' = log w ++ pre
                     ++ [RecoveryCalled rk (Particle.set_state Success p)
                           (Kernel.fieldset self) (Particle.time p)] ++ post)
    /\ particle_at ps' pos
       = Some (if Particle.isComputed pr then Particle.reset_state pr else pr)
    /\ (Particle.state pr = Success ->
        exists q, particle_at ps' pos = Some q /\ Particle.state q = Evaluate)
    /\ (Particle.state pr <> Success -> particle_at ps' pos = Some pr)
    /\ (forall output_file endtime pset,
          exists pset2 w2,
            remove_deleted output_file endtime (with_particles ps' pset) w'
            = Some (Ok pset2, w2)
            /\ particles_a pset2 = List.map (List.filter survives) ps').
Proof.
  intros Hall Hp Herr Hrep Hrk.
  destruct (recover_all_completed self rmap _ ps w ps' w' pos p
              (error_positions_NoDup 0 ps) Hall (error_position _ _ _ Hp Herr) Hp)
    as (wb & q & wa & pre & post & Hrec & Hq & Hpre & Hpost).
  assert (Hstop : Particle.state p <> StopExecution).
  { intros Hs. unfold recover in Hrec. rewrite bool_decide_eq_true_2 in Hrec by done.
    discriminate. }
  rewrite (recover_mapped self rmap p rk wb Hstop Hrep Hrk) in Hrec. cbv zeta in Hrec.
  destruct (py_call rk (env wb) (Particle.set_state Success p) (Kernel.fieldset self)
              (Particle.time p)) as [[enva pr] [r|e]] eqn:Hcall; [|discriminate].
  injection Hrec as <- <-.
  exists wb, enva, pr, r. split; [exact Hcall|].
  split. { exists pre, post. rewrite Hpost. simpl. rewrite Hpre, <- !app_assoc. done. }
  split; [exact Hq|].
  split. { intros Hs. eexists. split; [exact Hq|].
           unfold Particle.isComputed. rewrite bool_decide_eq_true_2 by done. done. }
  split. { intros Hs. rewrite Hq. unfold Particle.isComputed.
           rewrite bool_decide_eq_false_2 by done. done. }
  intros output_file endtime pset.
  destruct (remove_deleted_filter output_file endtime (with_particles ps' pset) w')
    as (pset2 & w2 & Hrem & Hps & _).
  exists pset2, w2. split; [exact Hrem | exact Hps].
Qed.

End RecoveryLoop.

(* ===================================================================== *)
(** ** The recovery loop on concrete populations *)
(* ===================================================================== *)

Section RecoveryOnToy.

Import Toy.


(** A recovery kernel that leaves the state at [Success]: the particle is
    reset to [Evaluate]. *)
Lemma recovery_step_witness :
  exists ps' w' q,
    recover_all k_out_of_bounds rmap_repair (error_positions 0 [[p_oob]])
                [[p_oob]] world0 = Some (Ok (Completed, ps'), w')
    /\ particle_at ps' (0, 0)%nat = Some q
    /\ Particle.state q = ErrorCode.Evaluate
    /\ List.filter is_recovery_call (log w')
       = [RecoveryCalled move (Particle.set_state ErrorCode.Success p_oob) 0%nat 0].
Proof.
  assert (Hall : exists ps' w',
             recover_all k_out_of_bounds rmap_repair (error_positions 0 [[p_oob]])
                         [[p_oob]] world0 = Some (Ok (Completed, ps'), w'))
    by (eexists _, _; vm_compute; reflexivity).
  destruct Hall as (ps' & w' & Hall).
  destruct (@recovery_step Toy.objects Toy.host k_out_of_bounds rmap_repair
              [[p_oob]] world0 ps' w' (0, 0)%nat p_oob move Hall eq_refl eq_refl)
    as (wb & enva & pr & r & Hcall & _ & _ & Hreset & _);
    [discriminate | vm_compute; reflexivity |].
  unfold py_call in Hcall. simpl in Hcall. injection Hcall as _ <- _.
  destruct Hreset as (q & Hq & Hstate); [reflexivity|].
  exists ps', w', q. split; [exact Hall|].
  split; [exact Hq|]. split; [exact Hstate|].
  pose proof Hall as Hval. vm_compute in Hval. injection Hval as _ <-.
  vm_compute. reflexivity.
Defined.

(** C4, as stated, fails twice. A recovery kernel that deletes the
    particle does not signal completion, and the particle is not reset
    to [Evaluate]; but it does not stay in the error set either: the
    deletion sweep removes it, the next error set is empty, and the
    whole call ends after this one recovery. And an error particle with
    an entry in the recovery map is not recovered at all when a particle
    in [StopExecution] comes before it: the call returns there, no
    recovery kernel has been called, and the particle is as it was. *)
Lemma recovery_counterexample :
  (exists ps' w' p' pset2 w2,
     recover_all k_out_of_bounds rmap_delete (error_positions 0 [[p_oob]])
                 [[p_oob]] world0 = Some (Ok (Completed, ps'), w')
     /\ particle_at ps' (0, 0)%nat = Some p'
     /\ Particle.isComputed p' = false
     /\ Particle.state p' <> ErrorCode.Evaluate
     /\ remove_deleted false 10 (pop (concat ps')) w' = Some (Ok pset2, w2)
     /\ particles_a pset2 = [[]]
     /\ error_positions 0 (particles_a pset2) = [])
  /\ (exists w',
        execute 5 k_out_of_bounds (pop [fresh]) 10 1 (Some rmap_delete)
                false false world0 = Some (Ok (Completed, pop []), w')
        /\ length (List.filter is_recovery_call (log w')) = 1%nat)
  /\ (rmap_repair !! Particle.state p_oob = Some move
      /\ recover_all k_out_of_bounds rmap_repair
                     (error_positions 0 [[p_stop; p_oob]]) [[p_stop; p_oob]] world0
         = Some (Ok (Returned, [[p_stop; p_oob]]), world0)
      /\ recovery_loop 5 k_out_of_bounds rmap_repair false 10 1
                       (pop [p_stop; p_oob]) world0
         = Some (Ok (Returned, pop [p_stop; p_oob]), world0)).
Proof.
  split; [|split].
  - eexists _, _, _, _, _. split; [vm_compute; reflexivity|].
    split; [reflexivity|]. split; [reflexivity|]. split; [discriminate|].
    split; [vm_compute; reflexivity|]. split; reflexivity.
  - eexists. split; [vm_compute; reflexivity|]. reflexivity.
  - split; [vm_compute; reflexivity|]. split; vm_compute; reflexivity.
Defined.

End RecoveryOnToy.

(* ===================================================================== *)
(** ** Further properties of [execute] *)
(* ===================================================================== *)

Section MoreOrchestration.

Context `{Objects} `{!Host} `{!Engine}.

Import ErrorCode.

(** X1 — the recovery map of a call. An entry given by the caller wins
    over the default one; the caller's out-of-bounds kernel also serves
    the through-surface error when the caller gives none for it, and then
    wins over the default through-surface entry; every other state keeps
    its default; without a caller's map the defaults are used as they
    are. *)
Theorem recovery_map_resolution (r : gmap ErrorCode.t PyFunction) :
  (forall c k, r !! c = Some k -> resolve_recovery (Some r) !! c = Some k)
  /\ (forall k, r !! ErrorOutOfBounds = Some k -> r !! ErrorThroughSurface = None ->
        resolve_recovery (Some r) !! ErrorThroughSurface = Some k)
  /\ (forall c, r !! c = None ->
        c <> ErrorThroughSurface \/ r !! ErrorOutOfBounds = None ->
        resolve_recovery (Some r) !! c = recovery_base_map !! c)
  /\ resolve_recovery None = recovery_base_map.
Proof.
  unfold resolve_recovery. repeat split.
  - intros c k Hc. apply lookup_union_Some_l.
    destruct (r !! ErrorOutOfBounds) as [k0|] eqn:Hoob; [|done].
    destruct (r !! ErrorThroughSurface) as [k1|] eqn:Hets; [done|].
    rewrite lookup_insert_ne; [done|]. intros <-. congruence.
  - intros k Hoob Hets. rewrite Hoob, Hets.
    apply lookup_union_Some_l. apply lookup_insert_eq.
  - intros c Hc Hcase. apply lookup_union_r.
    destruct (r !! ErrorOutOfBounds) as [k0|] eqn:Hoob; [|done].
    destruct (r !! ErrorThroughSurface) as [k1|] eqn:Hets; [done|].
    destruct Hcase as [Hne|Hno]; [|done].
    rewrite lookup_insert_ne; done.
  - apply (left_id_L ∅ (∪)).
Qed.

(** *** The deletion sweep *)

Lemma deleted_from_particles (i : nat) (sub : list Particle.t) :
  (deleted_from i sub).2 = List.filter deleted sub.
Proof.
  revert i. induction sub as [|q sub IH]; intros i; [done|].
  cbn [deleted_from List.filter]. unfold deleted at 1.
  destruct (bool_decide (Particle.state q = Delete)); cbn [snd]; [f_equal|]; apply IH.
Qed.

Lemma survives_deleted (p : Particle.t) : survives p = negb (deleted p).
Proof. reflexivity. Qed.

Lemma filter_partition (sub : list Particle.t) :
  Permutation sub (List.filter deleted sub ++ List.filter survives sub).
Proof.
  induction sub as [|q sub IH]; [done|].
  cbn [List.filter]. rewrite survives_deleted. destruct (deleted q); simpl.
  - constructor. exact IH.
  - rewrite <- Permutation_middle. constructor. exact IH.
Qed.

(** X2 — the deletion sweep. Every particle in [Delete] is handed to the
    output file, when there is one, in one write made before the removal
    (a sub-batch without deleted particles contributes [None]); the
    population then holds exactly the other particles, in their order, so
    each particle is either reported or kept, and none that is kept is in
    [Delete]. *)
Theorem sweep_reports_then_removes output_file endtime pset w :
  exists pset',
    remove_deleted output_file endtime pset w
    = Some (Ok pset',
            if output_file
            then add_event (OutputWritten (List.map report (particles_a pset)) endtime) w
            else w)
    /\ particles_a pset' = List.map (List.filter survives) (particles_a pset)
    /\ pset_fieldset pset' = pset_fieldset pset
    /\ Forall2 (fun sub kept => Permutation sub (List.filter deleted sub ++ kept))
               (particles_a pset) (particles_a pset')
    /\ all_particles (fun p => Particle.state p <> Delete) (particles_a pset').
Proof.
  destruct (remove_deleted_filter output_file endtime pset w)
    as (pset' & w' & Hrem & Hps & Hfs).
  exists pset'.
  assert (Hw : w' = if output_file
                    then add_event (OutputWritten (List.map report (particles_a pset))
                                                  endtime) w
                    else w).
  { unfold remove_deleted, bindE, emitE, retE in Hrem.
    destruct output_file; injection Hrem as _ <-; [|done].
    f_equal. f_equal. rewrite List.map_map. apply List.map_ext. intros sub.
    rewrite deleted_from_particles. unfold report.
    destruct (List.filter deleted sub); reflexivity. }
  rewrite <- Hw. split; [exact Hrem|]. split; [exact Hps|]. split; [exact Hfs|].
  rewrite Hps. clear. split.
  - induction (particles_a pset) as [|sub ps IH]; simpl; constructor; [|exact IH].
    apply filter_partition.
  - intros sub p Hsub Hp.
    apply list_elem_of_In, List.in_map_iff in Hsub as (sub0 & <- & _).
    apply list_elem_of_In, List.filter_In in Hp as [_ Hsurv].
    unfold survives in Hsurv. apply negb_true_iff, bool_decide_eq_false in Hsurv.
    exact Hsurv.
Qed.


(** *** How [execute] ends *)

Lemma no_error_positions (ps : list (list Particle.t)) :
  error_positions 0 ps = [] ->
  all_particles (fun p => Particle.state p ∈ [Success; Evaluate]) ps.
Proof.
  intros Hnil sub p Hsub Hp.
  apply list_elem_of_lookup in Hsub as [i Hi].
  apply list_elem_of_lookup in Hp as [j Hj].
  destruct (is_error p) eqn:Herr.
  - assert (Hpos : (i, j) ∈ error_positions 0 ps).
    { apply (error_position ps (i, j) p); [|exact Herr].
      unfold particle_at. cbn [fst snd]. rewrite Hi. exact Hj. }
    rewrite Hnil in Hpos. inversion Hpos.
  - unfold is_error in Herr. apply negb_false_iff, bool_decide_eq_true in Herr.
    exact Herr.
Qed.

Lemma recover_all_returned self rmap errs ps w flow ps' w' :
  recover_all self rmap errs ps w = Some (Ok (flow, ps'), w') ->
  flow = Returned ->
  exists pos p, particle_at ps' pos = Some p
                /\ Particle.state p = StopExecution.
Proof.
  revert ps w. induction errs as [|pos0 errs IH]; intros ps w Hrun Hflow.
  - cbn in Hrun. injection Hrun as <- _ _. discriminate.
  - cbn [recover_all] in Hrun.
    destruct (particle_at ps pos0) as [p|] eqn:Hat; [|exact (IH _ _ Hrun Hflow)].
    destruct (recover_total self rmap p w) as (r & w1 & Hrec & _ & Hstop).
    unfold bindE in Hrun. rewrite Hrec in Hrun.
    destruct r as [[q|]|e]; [exact (IH _ _ Hrun Hflow)| |discriminate].
    injection Hrun as _ <- _. exists pos0, p. split; [exact Hat|].
    apply Hstop. reflexivity.
Qed.

Lemma recovery_loop_outcome fuel self rmap output_file endtime dt pset w
    flow pset' w' :
  recovery_loop fuel self rmap output_file endtime dt pset w
  = Some (Ok (flow, pset'), w') ->
  match flow with
  | Completed =>
      all_particles (fun p => Particle.state p ∈ [Success; Evaluate])
                    (particles_a pset')
  | Returned =>
      exists pos p, particle_at (particles_a pset') pos = Some p
                    /\ Particle.state p = StopExecution
  end.
Proof.
  revert pset w. induction fuel as [|fuel IH]; intros pset w Hrun.
  - cbn [recovery_loop] in Hrun.
    destruct (error_positions 0 (particles_a pset)) eqn:Herrs; [|discriminate].
    injection Hrun as <- <- _. apply no_error_positions, Herrs.
  - destruct (error_positions 0 (particles_a pset)) as [|pos0 errs] eqn:Herrs.
    + cbn [recovery_loop] in Hrun. rewrite Herrs in Hrun.
      injection Hrun as <- <- _. apply no_error_positions, Herrs.
    + rewrite recovery_loop_turn in Hrun by (rewrite Herrs; discriminate).
      unfold bindE at 1 in Hrun.
      destruct (recover_all self rmap _ (particles_a pset) w)
        as [[[[fl ps1]|e] w1]|] eqn:Hall; [|discriminate|discriminate].
      cbn [fst snd] in Hrun. destruct fl.
      * unfold bindE at 1 in Hrun.
        destruct (remove_deleted output_file endtime _ w1)
          as [[[pset1|e] w2]|]; [|discriminate|discriminate].
        unfold bindE at 1 in Hrun.
        destruct (engine_pass (S fuel) self pset1 endtime dt w2)
          as [[[pset2|e] w3]|]; [|discriminate|discriminate].
        exact (IH _ _ Hrun).
      * injection Hrun as <- <- _.
        eapply recover_all_returned; [exact Hall|reflexivity].
Qed.

(** X3 — how [execute] ends. When the call runs to the end of its body,
    every particle left in the population is in [Success] or [Evaluate]:
    nothing in an error state, in [Repeat] or in [Delete] remains. When
    it returns early, a particle in [StopExecution] is in the
    population. *)
Theorem execute_outcome fuel self pset endtime dt recovery output_file
    execute_once w flow pset' w' :
  execute fuel self pset endtime dt recovery output_file execute_once w
  = Some (Ok (flow, pset'), w') ->
  match flow with
  | Completed =>
      all_particles (fun p => Particle.state p ∈ [Success; Evaluate])
                    (particles_a pset')
  | Returned =>
      exists pos p, particle_at (particles_a pset') pos = Some p
                    /\ Particle.state p = StopExecution
  end.
Proof.
  unfold execute. intros Hrun.
  unfold bindE at 1 in Hrun.
  destruct ((if _ : bool then emitE _ else retE tt) w)
    as [[[[]|e] w0]|]; [|discriminate|discriminate].
  unfold bindE at 1 in Hrun. unfold modify_env at 1 in Hrun.
  unfold bindE at 1 in Hrun.
  destruct (engine_pass fuel self _ endtime dt _)
    as [[[pset1|e] w1]|]; [|discriminate|discriminate].
  unfold bindE at 1 in Hrun.
  destruct (remove_deleted output_file endtime pset1 w1)
    as [[[pset2|e] w2]|]; [|discriminate|discriminate].
  exact (recovery_loop_outcome _ _ _ _ _ _ _ _ _ _ _ Hrun).
Qed.

(** X4 — the recovery loop on a whole population, when no particle asks
    to stop. A particle in [Repeat] is put back to [Evaluate], with no
    recovery kernel called on it; an error particle whose state has no
    entry in the recovery map is marked [Delete]; a particle in
    [Success] or [Evaluate] is left as it is. *)
Theorem recovery_resets_and_deletes self rmap ps w ps' w' pos p :
  recover_all self rmap (error_positions 0 ps) ps w
  = Some (Ok (Completed, ps'), w') ->
  particle_at ps pos = Some p ->
  (Particle.state p = Repeat ->
     particle_at ps' pos = Some (Particle.reset_state p))
  /\ (is_error p = true -> Particle.state p <> Repeat ->
      rmap !! Particle.state p = None ->
      particle_at ps' pos = Some (Particle.delete p))
  /\ (is_error p = false -> particle_at ps' pos = Some p).
Proof.
  intros Hall Hat. repeat split.
  - intros Hrep.
    assert (Herr : is_error p = true).
    { unfold is_error. rewrite Hrep. reflexivity. }
    destruct (recover_all_completed self rmap _ ps w ps' w' pos p
                (error_positions_NoDup 0 ps) Hall
                (error_position ps pos p Hat Herr) Hat)
      as (wb & q & wa & pre & post & Hrec & Hq & _).
    unfold recover in Hrec. rewrite Hrep in Hrec.
    cbn in Hrec. injection Hrec as <- _. exact Hq.
  - intros Herr Hnrep Hnone.
    destruct (recover_all_completed self rmap _ ps w ps' w' pos p
                (error_positions_NoDup 0 ps) Hall
                (error_position ps pos p Hat Herr) Hat)
      as (wb & q & wa & pre & post & Hrec & Hq & _).
    unfold recover in Hrec.
    destruct (bool_decide (Particle.state p = StopExecution)); [discriminate|].
    rewrite bool_decide_eq_false_2 in Hrec by exact Hnrep.
    rewrite Hnone in Hrec. cbn in Hrec. injection Hrec as <- _. exact Hq.
  - intros Herr.
    destruct (recover_all_result self rmap (error_positions 0 ps) ps w)
      as (r & w1 & Hrun & _ & Hout).
    rewrite Hall in Hrun. injection Hrun as <- <-.
    destruct Hout as (_ & Hsame & _). rewrite Hsame; [exact Hat|].
    intros Hin. apply elem_of_error_positions in Hin as (_ & q & Hq & Hqe).
    rewrite Nat.sub_0_r in Hq. destruct pos as [i j]. cbn [fst snd] in Hq.
    rewrite Hat in Hq. injection Hq as <-. congruence.
Qed.

End MoreOrchestration.
(* ===================================================================== *)
(** ** Further properties of the interpreted pass *)
(* ===================================================================== *)

Section MoreNumbers.

Local Open Scope Q_scope.

Lemma sign_cases (x : Q) :
  (x < 0 /\ Np.sign x = -1) \/ (x == 0 /\ Np.sign x = 0) \/ (0 < x /\ Np.sign x = 1).
Proof.
  unfold Np.sign. destruct (x ?= 0) eqn:Hc.
  - right. left. split; [apply Qeq_alt, Hc|reflexivity].
  - left. split; [apply Qlt_alt, Hc|reflexivity].
  - right. right. split; [apply Qgt_alt, Hc|reflexivity].
Qed.

Lemma sign_pos (x : Q) : 0 < x -> Np.sign x = 1.
Proof. intros Hx. destruct (sign_cases x) as [[? ?]|[[? ?]|[? ?]]]; [lra|lra|done]. Qed.

Lemma sign_neg (x : Q) : x < 0 -> Np.sign x = -1.
Proof. intros Hx. destruct (sign_cases x) as [[? ?]|[[? ?]|[? ?]]]; [done|lra|lra]. Qed.

Lemma isclose_zero_iff (x : Q) : Np.isclose x 0 = true <-> Qabs x <= Np.atol.
Proof.
  unfold Np.isclose. rewrite Qle_bool_iff.
  assert (Ha : Qabs (x - 0) == Qabs x) by (apply Qabs_wd; ring).
  assert (Hb : Np.atol + Np.rtol * Qabs 0 == Np.atol) by reflexivity.
  rewrite Ha, Hb. reflexivity.
Qed.

Lemma isclose_zero_false (x : Q) : Np.isclose x 0 = false <-> Np.atol < Qabs x.
Proof.
  rewrite <- not_true_iff_false, isclose_zero_iff. split.
  - apply Qnot_le_lt.
  - apply Qlt_not_le.
Qed.



End MoreNumbers.

Section ForEach.

Context `{Objects}.

Lemma for_each_spec {A S} (R : World -> World -> Prop) (Q : A -> A -> Prop)
    (P : PyException -> Prop) (body : A -> S -> E (A * S))
    (xs : list A) (s : S) (w : World) r w' :
  (forall w, R w w) -> (forall w1 w2 w3, R w1 w2 -> R w2 w3 -> R w1 w3) ->
  (forall x s w r w', body x s w = Some (r, w') ->
     R w w' /\ match r with Ok (y, _) => Q x y | Raise e => P e end) ->
  for_each body xs s w = Some (r, w') ->
  R w w' /\ match r with Ok (ys, _) => Forall2 Q xs ys | Raise e => P e end.
Proof.
  intros Hrefl Htrans Hbody. revert s w r w'.
  induction xs as [|x xs IH]; intros s w r w' Hrun.
  - cbn in Hrun. injection Hrun as <- <-. split; [apply Hrefl|constructor].
  - cbn [for_each] in Hrun. unfold bindE at 1 in Hrun.
    destruct (body x s w) as [[[[y s1]|e] w1]|] eqn:Hx; [| |discriminate].
    + apply Hbody in Hx as [Hw1 Hy]. cbn [snd fst] in Hrun.
      unfold bindE at 1 in Hrun.
      destruct (for_each body xs s1 w1) as [[[[ys s2]|e] w2]|] eqn:Hxs;
        [| |discriminate].
      * apply IH in Hxs as [Hw2 Hys]. injection Hrun as <- <-.
        split; [eapply Htrans; eassumption|]. constructor; assumption.
      * apply IH in Hxs as [Hw2 He]. injection Hrun as <- <-.
        split; [eapply Htrans; eassumption|exact He].
    + apply Hbody in Hx as [Hw1 He]. injection Hrun as <- <-. split; assumption.
Qed.

End ForEach.

Section MorePythonPass.

Context `{Objects} `{!Host} `{!Engine}.

Local Open Scope Q_scope.

Import ErrorCode.

Lemma kernel_calls_only_refl f fs (w : World) : kernel_calls_only f fs w w.
Proof.
  split; [done|]. split; [done|]. exists []. split; [|constructor].
  symmetry. apply app_nil_r.
Qed.

Lemma kernel_calls_only_trans f fs (w1 w2 w3 : World) :
  kernel_calls_only f fs w1 w2 -> kernel_calls_only f fs w2 w3 ->
  kernel_calls_only f fs w1 w3.
Proof.
  intros (Hc1 & Hg1 & evs1 & Hl1 & He1) (Hc2 & Hg2 & evs2 & Hl2 & He2).
  split; [congruence|]. split; [congruence|].
  exists (evs1 ++ evs2). split; [|apply Forall_app; split; assumption].
  rewrite Hl2, Hl1. symmetry. apply app_assoc.
Qed.

Lemma try_kernel_calls self fs sign_dt dt_pos p w :
  kernel_calls_only (Kernel.pyfunc self) fs w (try_kernel self fs sign_dt dt_pos p w).2.
Proof.
  split; [|split].
  - unfold try_kernel. destruct (py_call _ _ _ _ _) as [[e' p'] [r|e]]; reflexivity.
  - unfold try_kernel. destruct (py_call _ _ _ _ _) as [[e' p'] [r|e]]; reflexivity.
  - eexists. split; [apply try_kernel_log|].
    constructor; [|constructor]. eexists _, _. reflexivity.
Qed.

Lemma backup_raises (vs : list PVariable.t) (p : Particle.t)
    (b0 : gmap string PyVal) (e : PyException) :
  backup vs p b0 = Raise e -> exists n, e = AttributeError n.
Proof.
  revert b0. induction vs as [|v vs IH]; intros b0 Hb; [discriminate|].
  cbn [backup] in Hb. destruct (Particle.getattr p (PVariable.name v)).
  - exact (IH _ Hb).
  - injection Hb as <-. eexists. reflexivity.
Qed.

Lemma loop_body_calls self fs ptype endtime dt sign_dt l w r w' :
  loop_body self fs ptype endtime dt sign_dt l w = Some (r, w') ->
  kernel_calls_only (Kernel.pyfunc self) fs w w'
  /\ match r with Ok _ => True | Raise e => exists n, e = AttributeError n end.
Proof.
  unfold loop_body. intros Hrun.
  destruct (backup _ _ _) as [back|e] eqn:Hb.
  - pose proof (try_kernel_calls self fs sign_dt (dt_pos l) (cur l) w) as Hc.
    destruct (try_kernel _ _ _ _ _ _) as [[res p] w1]. cbn [snd] in Hc.
    destruct (bool_decide _); injection Hrun as <- <-; split; done.
  - injection Hrun as <- <-. split; [apply kernel_calls_only_refl|].
    eapply backup_raises, Hb.
Qed.

Lemma while_loop_calls fuel self fs ptype endtime dt sign_dt l w r w' :
  while_loop fuel self fs ptype endtime dt sign_dt l w = Some (r, w') ->
  kernel_calls_only (Kernel.pyfunc self) fs w w'
  /\ match r with Ok _ => True | Raise e => exists n, e = AttributeError n end.
Proof.
  revert l w. induction fuel as [|fuel IH]; intros l w Hrun.
  - cbn [while_loop] in Hrun. destruct (loop_guard dt (cur l)); [discriminate|].
    injection Hrun as <- <-. split; [apply kernel_calls_only_refl|done].
  - cbn [while_loop] in Hrun. destruct (loop_guard dt (cur l)).
    + unfold bindE at 1 in Hrun.
      destruct (loop_body _ _ _ _ _ _ _ _) as [[[[l1 b]|e] w1]|] eqn:Hb;
        [| |discriminate].
      * apply loop_body_calls in Hb as [Hc _]. cbn [fst snd] in Hrun.
        destruct b.
        -- injection Hrun as <- <-. split; done.
        -- apply IH in Hrun as [Hc' Hr].
           split; [eapply kernel_calls_only_trans; eassumption|exact Hr].
      * apply loop_body_calls in Hb as [Hc He]. injection Hrun as <- <-.
        split; assumption.
    + injection Hrun as <- <-. split; [apply kernel_calls_only_refl|done].
Qed.

Lemma run_particle_calls fuel self fs endtime dt sign_dt p back w r w' :
  run_particle fuel self fs endtime dt sign_dt p back w = Some (r, w') ->
  kernel_calls_only (Kernel.pyfunc self) fs w w'
  /\ match r with Ok _ => True | Raise e => exists n, e = AttributeError n end.
Proof.
  unfold run_particle. intros Hrun.
  destruct (_ && _).
  - injection Hrun as <- <-. split; [apply kernel_calls_only_refl|done].
  - unfold bindE in Hrun.
    destruct (while_loop _ _ _ _ _ _ _ _ _) as [[[l|e] w1]|] eqn:Hw;
      [| |discriminate].
    + apply while_loop_calls in Hw as [Hc _]. injection Hrun as <- <-. done.
    + apply while_loop_calls in Hw. injection Hrun as <- <-. exact Hw.
Qed.

Lemma execute_python_frame fuel self pset endtime dt w r w' :
  execute_python fuel self pset endtime dt w = Some (r, w') ->
  kernel_calls_only (Kernel.pyfunc self) (pset_fieldset pset) w w'
  /\ match r with
     | Ok pset' =>
         List.map (@length _) (particles_a pset')
         = List.map (@length _) (particles_a pset)
         /\ pset_fieldset pset' = pset_fieldset pset
     | Raise e => exists n, e = AttributeError n
     end.
Proof.
  unfold execute_python. intros Hrun.
  unfold bindE at 1, modify_env at 1 in Hrun. unfold bindE at 1 in Hrun.
  set (w0 := set_env _ w) in Hrun.
  set (f := Kernel.pyfunc self). set (fs := pset_fieldset pset).
  assert (Hw0 : kernel_calls_only f fs w w0).
  { split; [done|]. split; [done|]. exists []. split; [|constructor].
    symmetry. apply app_nil_r. }
  destruct (for_each _ (particles_a pset) ∅ w0) as [[rr w1]|] eqn:Hfor;
    [|discriminate].
  apply (for_each_spec (kernel_calls_only f fs)
           (fun sub sub' : list Particle.t => length sub' = length sub)
           (fun e => exists n, e = AttributeError n)) in Hfor.
  - destruct Hfor as [Hc Hr]. destruct rr as [[ys s]|e].
    + injection Hrun as <- <-.
      split; [eapply kernel_calls_only_trans; eassumption|].
      split; [|reflexivity]. cbn [with_particles particles_a fst].
      clear -Hr. induction Hr; cbn; [done|]. f_equal; assumption.
    + injection Hrun as <- <-.
      split; [eapply kernel_calls_only_trans; eassumption|exact Hr].
  - apply kernel_calls_only_refl.
  - apply kernel_calls_only_trans.
  - intros sub s0 wa ra wb Hsub.
    apply (for_each_spec (kernel_calls_only f fs)
             (fun _ _ : Particle.t => True)
             (fun e => exists n, e = AttributeError n)) in Hsub.
    + destruct Hsub as [Hc Hr]. split; [exact Hc|].
      destruct ra as [[ys s1]|e]; [|exact Hr].
      symmetry. eapply Forall2_length, Hr.
    + apply kernel_calls_only_refl.
    + apply kernel_calls_only_trans.
    + intros p s1 wc rc wd Hp. apply run_particle_calls in Hp as [Hc Hr].
      split; [exact Hc|]. destruct rc as [[q s2]|e]; [done|exact Hr].
Qed.


End MorePythonPass.

Section SteadyKernels.

Context `{Objects} `{!Host} `{!Engine}.

Local Open Scope Q_scope.

Import ErrorCode.





End SteadyKernels.

Section Horizon.

Context `{Objects} `{!Host} `{!Engine}.

Local Open Scope Q_scope.

Import ErrorCode.

Lemma sign_agrees (s x : Q) :
  s = 1 \/ s = -1 -> (Qeq_bool (Np.sign x) s = true <-> 0 < s * x).
Proof.
  intros Hs.
  destruct (sign_cases x) as [[Hx ->]|[[Hx ->]|[Hx ->]]]; destruct Hs as [-> | ->];
    (split; [intros Hq; try discriminate Hq; lra
            |intros Hq; try reflexivity; exfalso; lra]).
Qed.


Lemma sign_of_step (dt : Q) :
  Np.isclose dt 0 = false -> Np.sign dt = 1 \/ Np.sign dt = -1.
Proof.
  intros Hdt. apply isclose_zero_false in Hdt.
  destruct (sign_cases dt) as [[Hx ->]|[[Hx ->]|[Hx ->]]]; [right; reflexivity| |left; reflexivity].
  exfalso. rewrite Hx in Hdt. revert Hdt. apply Qle_not_lt. discriminate.
Qed.





(** X7 — a particle that is at the horizon, or beyond it in the
    direction of [dt], is skipped: the kernel function is not called on
    it, whatever the fuel, and nothing of the world changes. Its state
    becomes [Success] if its time is at least [endtime] in absolute
    value, and is left as it is otherwise; at the horizon itself it
    always becomes [Success]. *)
Theorem beyond_horizon_is_skipped fuel self fs endtime dt p back w :
  Np.isclose dt 0 = false ->
  0 <= Np.sign dt * (Particle.time p - endtime) ->
  run_particle fuel self fs endtime dt (Np.sign dt) p back w
  = Some (Ok (if Qle_bool (Qabs endtime) (Qabs (Particle.time p))
              then Particle.set_state Success p else p, back), w)
  /\ (Particle.time p == endtime ->
      run_particle fuel self fs endtime dt (Np.sign dt) p back w
      = Some (Ok (Particle.set_state Success p, back), w)).
Proof.
  intros Hdt Hbeyond. pose proof (sign_of_step dt Hdt) as Hs.
  assert (Hrun : run_particle fuel self fs endtime dt (Np.sign dt) p back w
                 = Some (Ok (if Qle_bool (Qabs endtime) (Qabs (Particle.time p))
                             then Particle.set_state Success p else p, back), w)).
  { unfold run_particle.
    assert (Hsign : Qeq_bool (Np.sign (endtime - Particle.time p)) (Np.sign dt) = false).
    { apply not_true_iff_false. intros Hq. apply (sign_agrees _ _ Hs) in Hq. lra. }
    rewrite Hsign, Hdt. reflexivity. }
  split; [exact Hrun|]. intros Hat. rewrite Hrun.
  assert (Hle : Qle_bool (Qabs endtime) (Qabs (Particle.time p)) = true).
  { apply Qle_bool_iff. rewrite Hat. apply Qle_refl. }
  rewrite Hle. reflexivity.
Qed.

(** X8 — a kernel function that returns [None] or [Success] and leaves
    the state alone but changes the particle's step is run again: the
    turn ends in [Repeat] and leaves the loop, the declared variables
    other than [dt] and [state] have their values of before the call,
    and the step the function chose is kept. *)
Theorem changed_step_is_repeated self fs ptype endtime dt sign_dt l w env' pk r :
  has_declared ptype (cur l) ->
  py_call (Kernel.pyfunc self) (env w)
          (Particle.set_dt (sign_dt * dt_pos l) (cur l)) fs
          (Particle.time (cur l)) = (env', pk, Returns r) ->
  r = None \/ r = Some Success ->
  Particle.state pk = Particle.state (cur l) ->
  Np.isclose (Particle.dt pk) (sign_dt * dt_pos l) = false ->
  exists l' w',
    loop_body self fs ptype endtime dt sign_dt l w = Some (Ok (l', true), w')
    /\ (forall fuel, loop_guard dt (cur l) = true ->
          while_loop (S fuel) self fs ptype endtime dt sign_dt l w = Some (Ok l', w'))
    /\ Particle.state (cur l') = Repeat
    /\ Particle.dt (cur l') = Particle.dt pk
    /\ (forall n, declared ptype n -> n ∉ ["dt"; "state"]%string ->
          Particle.getattr (cur l') n = Particle.getattr (cur l) n)
    /\ (declared ptype "time" -> Particle.time (cur l') = Particle.time (cur l)).
Proof.
  intros Hdecl Hcall Hr Hstate Hstep.
  assert (Htry : exists w', try_kernel self fs sign_dt (dt_pos l) (cur l) w
                            = (Repeat, pk, w')).
  { unfold try_kernel. cbn [env add_event].
    change (Particle.time (Particle.set_dt (sign_dt * dt_pos l) (cur l)))
      with (Particle.time (cur l)).
    rewrite Hcall. cbn [Particle.state Particle.set_dt]. rewrite Hstate.
    rewrite (bool_decide_eq_true_2 (Particle.state (cur l) = Particle.state (cur l)))
      by reflexivity.
    rewrite Hstep. destruct Hr as [-> | ->]; eexists; reflexivity. }
  destruct Htry as [w' Htry].
  destruct (backup_ok (PType.variables ptype) (cur l) (p_var_back l) Hdecl)
    as [back Hb].
  assert (Hres : Repeat ∉ [Success; Delete]) by set_solver.
  pose proof (loop_body_retreat self fs ptype endtime dt sign_dt l w back _ _ w'
                Hb Htry Hres) as Hbody.
  destruct (retreat_particle ptype endtime sign_dt Repeat (cur l) pk (p_var_back l)
              back Hb) as (Hs & Hd & _ & Hvars & Htime).
  eexists _, w'. split; [exact Hbody|].
  split. { intros fuel Hg. eapply while_loop_break; eauto. }
  split; [exact Hs|]. split; [exact Hd|]. split; [exact Hvars|].
  intros Ht. rewrite Htime, decide_True by exact Ht. reflexivity.
Qed.

End Horizon.

Section InterpretedExecute.

Context `{Objects} `{!Host} `{!Engine}.

Local Open Scope Q_scope.

Import ErrorCode.

Lemma no_larger_same (ps' ps : list (list Particle.t)) :
  List.map (@length _) ps' = List.map (@length _) ps -> no_larger ps' ps.
Proof.
  unfold no_larger. revert ps. induction ps' as [|s' ps' IH]; intros [|s ps] Hl;
    try discriminate; constructor.
  - injection Hl as Hs _. rewrite Hs. reflexivity.
  - apply IH. injection Hl as _ Hl. exact Hl.
Qed.

Lemma no_larger_trans (ps1 ps2 ps3 : list (list Particle.t)) :
  no_larger ps1 ps2 -> no_larger ps2 ps3 -> no_larger ps1 ps3.
Proof.
  unfold no_larger. intros Ha. revert ps3.
  induction Ha as [|s1 s2 ps1 ps2 Hs Ha IH]; intros ps3 Hb.
  - inversion Hb. constructor.
  - inversion Hb as [|? s3 ? ps3' Hs' Hb']; subst. constructor; [lia|].
    apply IH, Hb'.
Qed.

Lemma no_larger_filter (f : Particle.t -> bool) (ps : list (list Particle.t)) :
  no_larger (List.map (List.filter f) ps) ps.
Proof.
  unfold no_larger. induction ps as [|s ps IH]; cbn; constructor; [|exact IH].
  apply List.filter_length_le.
Qed.

Lemma engine_pass_interpreted fuel self pset endtime dt w pset' w' :
  PType.uses_jit (Kernel.ptype self) = false ->
  engine_pass fuel self pset endtime dt w = Some (Ok pset', w') ->
  no_larger (particles_a pset') (particles_a pset)
  /\ pset_fieldset pset' = pset_fieldset pset.
Proof.
  intros Hjit Hrun. unfold engine_pass in Hrun. rewrite Hjit in Hrun.
  apply execute_python_frame in Hrun as [_ [Hl Hfs]].
  split; [apply no_larger_same, Hl|exact Hfs].
Qed.

Lemma remove_deleted_no_larger output_file endtime pset w pset' w' :
  remove_deleted output_file endtime pset w = Some (Ok pset', w') ->
  no_larger (particles_a pset') (particles_a pset)
  /\ pset_fieldset pset' = pset_fieldset pset.
Proof.
  intros Hrun.
  destruct (remove_deleted_filter output_file endtime pset w)
    as (pset1 & w1 & Hrem & Hps & Hfs).
  rewrite Hrun in Hrem. injection Hrem as <- <-.
  rewrite Hps. split; [apply no_larger_filter|exact Hfs].
Qed.

Lemma recovery_loop_no_larger fuel self rmap output_file endtime dt pset w
    flow pset' w' :
  PType.uses_jit (Kernel.ptype self) = false ->
  recovery_loop fuel self rmap output_file endtime dt pset w
  = Some (Ok (flow, pset'), w') ->
  no_larger (particles_a pset') (particles_a pset)
  /\ pset_fieldset pset' = pset_fieldset pset.
Proof.
  intros Hjit. revert pset w. induction fuel as [|fuel IH]; intros pset w Hrun.
  - cbn [recovery_loop] in Hrun.
    destruct (error_positions 0 (particles_a pset)) eqn:Herrs; [|discriminate].
    injection Hrun as _ <- _. split; [apply no_larger_same|]; reflexivity.
  - destruct (error_positions 0 (particles_a pset)) as [|pos0 errs] eqn:Herrs.
    + cbn [recovery_loop] in Hrun. rewrite Herrs in Hrun.
      injection Hrun as _ <- _. split; [apply no_larger_same|]; reflexivity.
    + rewrite recovery_loop_turn in Hrun by (rewrite Herrs; discriminate).
      unfold bindE at 1 in Hrun.
      destruct (recover_all_result self rmap (error_positions 0 (particles_a pset))
                  (particles_a pset) w) as (r & w1 & Hall & _ & Hout).
      rewrite Hall in Hrun. destruct r as [[fl ps1]|e]; [|discriminate].
      destruct Hout as [Hlen _]. cbn [fst snd] in Hrun. destruct fl.
      * unfold bindE at 1 in Hrun.
        destruct (remove_deleted output_file endtime _ w1)
          as [[[pset1|e] w2]|] eqn:Hrem; [|discriminate|discriminate].
        apply remove_deleted_no_larger in Hrem as [Hn1 Hf1].
        unfold bindE at 1 in Hrun.
        destruct (engine_pass (S fuel) self pset1 endtime dt w2)
          as [[[pset2|e] w3]|] eqn:Hpass; [|discriminate|discriminate].
        apply (engine_pass_interpreted _ _ _ _ _ _ _ _ Hjit) in Hpass as [Hn2 Hf2].
        apply IH in Hrun as [Hn3 Hf3].
        split; [|rewrite Hf3, Hf2, Hf1; reflexivity].
        eapply no_larger_trans; [exact Hn3|].
        eapply no_larger_trans; [exact Hn2|].
        eapply no_larger_trans; [exact Hn1|].
        apply no_larger_same, Hlen.
      * injection Hrun as _ <- _. split; [|reflexivity].
        apply no_larger_same, Hlen.
Qed.

(** X9 — with the interpreted engine, [execute] never adds a particle:
    the population it returns has the same sub-batches, none of them
    longer than before, and the same field set. *)
Theorem interpreted_execute_never_adds fuel self pset endtime dt recovery
    output_file execute_once w flow pset' w' :
  PType.uses_jit (Kernel.ptype self) = false ->
  execute fuel self pset endtime dt recovery output_file execute_once w
  = Some (Ok (flow, pset'), w') ->
  no_larger (particles_a pset') (particles_a pset)
  /\ pset_fieldset pset' = pset_fieldset pset.
Proof.
  intros Hjit Hrun. unfold execute in Hrun.
  unfold bindE at 1 in Hrun.
  destruct ((if _ : bool then emitE _ else retE tt) w)
    as [[[[]|e] w0]|]; [|discriminate|discriminate].
  unfold bindE at 1 in Hrun. unfold modify_env at 1 in Hrun.
  unfold bindE at 1 in Hrun.
  destruct (engine_pass fuel self _ endtime dt _)
    as [[[pset1|e] w1]|] eqn:Hpass; [|discriminate|discriminate].
  apply (engine_pass_interpreted _ _ _ _ _ _ _ _ Hjit) in Hpass as [Hn1 Hf1].
  unfold bindE at 1 in Hrun.
  destruct (remove_deleted output_file endtime pset1 w1)
    as [[[pset2|e] w2]|] eqn:Hrem; [|discriminate|discriminate].
  apply remove_deleted_no_larger in Hrem as [Hn2 Hf2].
  apply (recovery_loop_no_larger _ _ _ _ _ _ _ _ _ _ _ Hjit) in Hrun as [Hn3 Hf3].
  split; [|rewrite Hf3, Hf2, Hf1; reflexivity].
  eapply no_larger_trans; [exact Hn3|].
  eapply no_larger_trans; [exact Hn2|].
  eapply no_larger_trans; [exact Hn1|].
  apply no_larger_same. cbn [with_particles particles_a].
  rewrite List.map_map. apply List.map_ext. intros sub. apply List.length_map.
Qed.

End InterpretedExecute.
(* ===================================================================== *)
(** ** The further properties on concrete populations *)
(* ===================================================================== *)

Section MoreOnToy.

Import Toy.

Local Open Scope Q_scope.

(** The caller maps the out-of-bounds error only: its kernel serves the
    through-surface error too. *)
Lemma recovery_map_resolution_witness :
  resolve_recovery (Some rmap_repair) !! ErrorCode.ErrorOutOfBounds = Some move
  /\ resolve_recovery (Some rmap_repair) !! ErrorCode.ErrorThroughSurface = Some move.
Proof.
  destruct (@recovery_map_resolution Toy.objects Toy.engine rmap_repair)
    as (Hown & Hsurface & _).
  split; [apply Hown|apply Hsurface]; vm_compute; reflexivity.
Defined.

(** A sub-batch with a deleted particle between two others, and a
    sub-batch without one. *)
Lemma sweep_reports_then_removes_witness :
  exists pset' w',
    remove_deleted true 10
      (with_particles [[fresh; p_gone; p_done]; [fresh]] (pop [])) world0 = Some (Ok pset', w')
    /\ particles_a pset' = [[fresh; p_done]; [fresh]]
    /\ log w' = [OutputWritten [Some [p_gone]; None] 10].
Proof.
  destruct (@sweep_reports_then_removes Toy.objects true 10
              (with_particles [[fresh; p_gone; p_done]; [fresh]] (pop [])) world0)
    as (pset' & Hrun & Hps & _).
  eexists pset', _. split; [exact Hrun|]. split; [rewrite Hps|]; reflexivity.
Defined.

(** Two particles moved to the horizon: the call runs to its end and
    both are in [Success]. *)
Lemma execute_outcome_witness :
  exists pset' w',
    execute 20 k_move (pop [fresh; fresh]) 10 1 None false false world0
    = Some (Ok (Completed, pset'), w')
    /\ all_particles (fun p => Particle.state p ∈ [ErrorCode.Success; ErrorCode.Evaluate])
                     (particles_a pset').
Proof.
  assert (Hrun : exists pset' w',
             execute 20 k_move (pop [fresh; fresh]) 10 1 None false false world0
             = Some (Ok (Completed, pset'), w'))
    by (eexists _, _; vm_compute; reflexivity).
  destruct Hrun as (pset' & w' & Hrun). exists pset', w'. split; [exact Hrun|].
  exact (@execute_outcome Toy.objects Toy.host Toy.engine _ _ _ _ _ _ _ _ _ _ _ _ Hrun).
Defined.

(** A particle in [Repeat], one in [Error], for which the map has no
    kernel, and one that is done. *)
Lemma recovery_resets_and_deletes_witness :
  exists ps' w',
    recover_all k_move rmap_repair
                (error_positions 0 [[p_repeat; p_error; p_done]])
                [[p_repeat; p_error; p_done]] world0
    = Some (Ok (Completed, ps'), w')
    /\ particle_at ps' (0, 0)%nat = Some (Particle.reset_state p_repeat)
    /\ particle_at ps' (0, 1)%nat = Some (Particle.delete p_error)
    /\ particle_at ps' (0, 2)%nat = Some p_done.
Proof.
  assert (Hall : exists ps' w',
             recover_all k_move rmap_repair
                         (error_positions 0 [[p_repeat; p_error; p_done]])
                         [[p_repeat; p_error; p_done]] world0
             = Some (Ok (Completed, ps'), w'))
    by (eexists _, _; vm_compute; reflexivity).
  destruct Hall as (ps' & w' & Hall). exists ps', w'. split; [exact Hall|].
  split; [|split].
  - apply (@recovery_resets_and_deletes Toy.objects Toy.host _ _ _ _ _ _
             (0, 0)%nat p_repeat Hall eq_refl); reflexivity.
  - apply (@recovery_resets_and_deletes Toy.objects Toy.host _ _ _ _ _ _
             (0, 1)%nat p_error Hall eq_refl);
      [reflexivity|discriminate|vm_compute; reflexivity].
  - apply (@recovery_resets_and_deletes Toy.objects Toy.host _ _ _ _ _ _
             (0, 2)%nat p_done Hall eq_refl); reflexivity.
Defined.




(** A particle at the horizon needs no fuel. *)
Lemma beyond_horizon_is_skipped_witness :
  run_particle 0 k_move 0%nat 10 1 (Np.sign 1) (Particle.reset_state p_done) ∅ world0
  = Some (Ok (p_done, ∅), world0).
Proof.
  destruct (@beyond_horizon_is_skipped Toy.objects Toy.host 0%nat k_move
              0%nat 10 1 (Particle.reset_state p_done) ∅ world0)
    as [_ Hat]; [reflexivity|vm_compute; discriminate|].
  rewrite Hat; reflexivity.
Defined.

(** The kernel function sets [lon] to 4 and the step to 5: the turn ends
    in [Repeat], [lon] is 0 again and the step is 5. *)
Lemma changed_step_is_repeated_witness :
  exists l' w',
    while_loop 1 k_hurry 0%nat scipy 10 1 1 loop0 world0 = Some (Ok l', w')
    /\ Particle.state (cur l') = ErrorCode.Repeat
    /\ Particle.dt (cur l') = 5
    /\ Particle.getattr (cur l') "lon" = Some (VFloat 0).
Proof.
  edestruct (@changed_step_is_repeated Toy.objects Toy.host k_hurry 0%nat
               scipy 10 1 1 loop0 world0)
    as (l' & w' & _ & Hloop & Hstate & Hdt & Hvars & _);
    [exact fresh_has_declared | vm_compute; reflexivity | left; reflexivity
    | reflexivity | reflexivity |].
  exists l', w'. split; [apply (Hloop 0%nat); vm_compute; reflexivity|].
  split; [exact Hstate|]. split; [exact Hdt|].
  rewrite Hvars; [reflexivity|unfold declared; simpl; set_solver|].
  intros Hin; repeat (apply elem_of_cons in Hin as [Hin|Hin]; [discriminate|]).
  apply elem_of_nil in Hin. destruct Hin.
Defined.

(** The particle leaves the domain and its recovery kernel deletes it. *)
Lemma interpreted_execute_never_adds_witness :
  exists pset' w',
    execute 5 k_out_of_bounds (pop [fresh; p_late]) 10 1 (Some rmap_delete)
            false false world0 = Some (Ok (Completed, pset'), w')
    /\ no_larger (particles_a pset') [[fresh; p_late]].
Proof.
  assert (Hrun : exists pset' w',
             execute 5 k_out_of_bounds (pop [fresh; p_late]) 10 1 (Some rmap_delete)
                     false false world0 = Some (Ok (Completed, pset'), w'))
    by (eexists _, _; vm_compute; reflexivity).
  destruct Hrun as (pset' & w' & Hrun). exists pset', w'. split; [exact Hrun|].
  refine (proj1 (@interpreted_execute_never_adds Toy.objects Toy.host Toy.engine
                   5%nat k_out_of_bounds _ _ _ _ _ _ _ _ _ _ _ Hrun)).
  vm_compute. reflexivity.
Defined.

End MoreOnToy.
(* ===================================================================== *)
(** ** Further properties of construction *)
(* ===================================================================== *)

Section MoreConstruction.

Context `{Objects} `{!Host}.

Lemma has_key_keys (d : list (string * Field)) (k : string) :
  Kernel.has_key d k = true <-> k ∈ keys d.
Proof.
  unfold Kernel.has_key, keys. rewrite List.existsb_exists, list_elem_of_In, List.in_map_iff.
  split.
  - intros (kv & Hin & Hk). apply bool_decide_eq_true in Hk. eauto.
  - intros (kv & Hk & Hin). exists kv. split; [exact Hin|].
    apply bool_decide_eq_true. exact Hk.
Qed.

Lemma keys_app {A} (d e : list (string * A)) : keys (d ++ e) = keys d ++ keys e.
Proof. apply List.map_app. Qed.

Lemma add_component_spec (d : list (string * Field)) (c : string * option Field) :
  exists extra,
    Kernel.add_component d c = d ++ extra
    /\ (base.NoDup (keys d) -> base.NoDup (keys (d ++ extra)))
    /\ ("not_defined"%string ∉ keys extra)
    /\ (c.1 <> "not_defined"%string -> is_Some c.2 -> c.1 ∈ keys (d ++ extra))
    /\ (forall kf, kf ∈ extra -> (kf.1, Some kf.2) = c).
Proof.
  unfold Kernel.add_component. destruct c as [n [fld|]]; cbn [fst snd].
  - destruct (Kernel.has_key d n) eqn:Hhas.
    + exists []. rewrite app_nil_r. split; [done|]. split; [done|].
      split; [apply not_elem_of_nil|]. split; [|intros kf Hkf; inversion Hkf].
      intros _ _. apply has_key_keys, Hhas.
    + destruct (decide (n = "not_defined"%string)) as [->|Hnd].
      * exists []. rewrite app_nil_r. split; [done|]. split; [done|].
        split; [apply not_elem_of_nil|]. split; [done|intros kf Hkf; inversion Hkf].
      * exists [(n, fld)]. split; [done|]. rewrite keys_app. cbn [keys List.map fst].
        split.
        { intros Hnd'. apply list.NoDup_app. split; [exact Hnd'|].
          split; [|apply NoDup_singleton].
          intros k Hk Hk'. apply list_elem_of_singleton in Hk'. subst k.
          apply has_key_keys in Hk. congruence. }
        split. { intros Hin. apply list_elem_of_singleton in Hin. congruence. }
        split. { intros _ _. apply elem_of_app. right. apply list_elem_of_singleton. done. }
        intros kf Hkf. apply list_elem_of_singleton in Hkf. subst kf. done.
  - exists []. rewrite app_nil_r.
    split; [destruct (Kernel.has_key d n); [|destruct (decide _)]; done|].
    split; [done|]. split; [apply not_elem_of_nil|].
    split; [intros _ [x Hx]; discriminate|intros kf Hkf; inversion Hkf].
Qed.

Lemma fold_components_spec (cs : list (string * option Field))
    (d : list (string * Field)) :
  (forall c, c ∈ cs -> c.1 <> "not_defined"%string -> is_Some c.2) ->
  exists extra,
    fold_left Kernel.add_component cs d = d ++ extra
    /\ (base.NoDup (keys d) -> base.NoDup (keys (d ++ extra)))
    /\ ("not_defined"%string ∉ keys extra)
    /\ (forall c, c ∈ cs -> c.1 <> "not_defined"%string -> c.1 ∈ keys (d ++ extra))
    /\ (forall kf, kf ∈ extra -> (kf.1, Some kf.2) ∈ cs).
Proof.
  revert d. induction cs as [|c cs IH]; intros d Hsome.
  - exists []. rewrite app_nil_r. split; [done|]. split; [done|].
    split; [apply not_elem_of_nil|]. split; [intros c Hc; inversion Hc|].
    intros kf Hkf. inversion Hkf.
  - cbn [fold_left].
    destruct (add_component_spec d c) as (e1 & -> & Hnd1 & Hno1 & Hin1 & Hfrom1).
    destruct (IH (d ++ e1)) as (e2 & -> & Hnd2 & Hno2 & Hin2 & Hfrom2).
    { intros c' Hc'. apply Hsome. right. exact Hc'. }
    exists (e1 ++ e2). rewrite (app_assoc d e1 e2). split; [reflexivity|].
    split; [auto|]. split.
    { rewrite keys_app. intros Hin. apply elem_of_app in Hin as [Hin|Hin]; contradiction. }
    split.
    { intros c' Hc' Hname. apply elem_of_cons in Hc' as [->|Hc'].
      - rewrite keys_app. apply elem_of_app. left.
        apply Hin1; [exact Hname|]. apply Hsome; [left|exact Hname].
      - apply Hin2; assumption. }
    intros kf Hkf. apply elem_of_app in Hkf as [Hkf|Hkf].
    + rewrite (Hfrom1 kf Hkf). left.
    + right. apply Hfrom2, Hkf.
Qed.

Lemma components_named (v : VectorField) (c : string * option Field) :
  c ∈ Kernel.components v -> c.1 <> "not_defined"%string -> is_Some c.2.
Proof.
  unfold Kernel.components. intros Hc Hname.
  repeat (apply elem_of_cons in Hc as [->|Hc]); cbn [fst snd] in *; eauto.
  - destruct (W v); [eauto|contradiction].
  - inversion Hc.
Qed.

(** X10 — how the components of the vector fields join the field
    arguments (lines 140-145). The field arguments of the code generator
    stay as they are, in their order, and an entry that is already there
    under a component's name is kept; new entries follow, each under the
    name of a component [U], [V] or [W] of one of the vector fields, no
    name twice; every named component is an argument afterwards, and
    nothing is ever entered under [not_defined]. *)
Theorem vector_components_join (d : list (string * Field))
    (vs : list (string * VectorField)) :
  base.NoDup (keys d) ->
  exists extra,
    Kernel.add_vector_fields d vs = d ++ extra
    /\ base.NoDup (keys (d ++ extra))
    /\ ("not_defined"%string ∉ keys extra)
    /\ (forall n v c, (n, v) ∈ vs -> c ∈ Kernel.components v ->
          c.1 <> "not_defined"%string -> c.1 ∈ keys (d ++ extra))
    /\ (forall k f, (k, f) ∈ extra ->
          exists n v, (n, v) ∈ vs /\ (k, Some f) ∈ Kernel.components v).
Proof.
  unfold Kernel.add_vector_fields. revert d.
  induction vs as [|[n v] vs IH]; intros d Hnd.
  - exists []. rewrite app_nil_r. split; [done|]. split; [done|].
    split; [apply not_elem_of_nil|]. split; [intros ? ? ? Hin; inversion Hin|].
    intros k f Hin. inversion Hin.
  - cbn [fold_left snd].
    destruct (fold_components_spec (Kernel.components v) d (components_named v))
      as (e1 & -> & Hnd1 & Hno1 & Hin1 & Hfrom1).
    destruct (IH (d ++ e1) (Hnd1 Hnd)) as (e2 & -> & Hnd2 & Hno2 & Hin2 & Hfrom2).
    exists (e1 ++ e2). rewrite (app_assoc d e1 e2). split; [reflexivity|].
    split; [exact Hnd2|].
    split.
    { rewrite keys_app. intros Hin. apply elem_of_app in Hin as [Hin|Hin]; contradiction. }
    split.
    { intros n' v' c Hv Hc Hname. apply elem_of_cons in Hv as [Heq|Hv].
      - injection Heq as -> ->. rewrite keys_app. apply elem_of_app. left.
        apply Hin1; assumption.
      - eapply Hin2; eassumption. }
    intros k f Hin. apply elem_of_app in Hin as [Hin|Hin].
    + exists n, v. split; [left|]. apply (Hfrom1 (k, f) Hin).
    + destruct (Hfrom2 k f Hin) as (n' & v' & Hv & Hc).
      exists n', v'. split; [right; exact Hv|exact Hc].
Qed.


(** *** The constructor without a callable *)

(** The world after [exec] has defined the function of [tree]. *)
Lemma init_no_callable fs pt fname fcode tree_arg fvars c_include del w :
  Kernel.__init__ fs pt None fname fcode tree_arg fvars c_include del w =
  match fname with
  | None => (Raise (AttributeError "__name__"), w)
  | Some s =>
      if decide (s = EmptyString) then (Raise (AttributeError "__name__"), w)
      else
        match fcode with
        | None => (Raise (AttributeError "__code__"), w)
        | Some c =>
            if decide (c = EmptyString) then (Raise (AttributeError "__code__"), w)
            else
              match tree_for tree_arg c with
              | None => (Raise (OtherException "SyntaxError" "invalid syntax"), w)
              | Some tr =>
                  let w1 := {| clock_reads := clock_reads w;
                               globals := <[def_name tr := compiled tr]> (globals w);
                               env := env w; log := log w |} in
                  match globals w1 !! s with
                  | None => (Raise (KeyError s), w1)
                  | Some f =>
                      if decide (length (argspec_args f) = 3%nat)
                      then finish fs pt del s fvars c tr f c_include w1
                      else (Raise ArityError, w1)
                  end
              end
        end
  end.
Proof.
  unfold Kernel.__init__, finish, tree_for. run_m.
  destruct fname as [s|]; [|reflexivity].
  destruct (decide (s = EmptyString)); [reflexivity|]. simpl.
  destruct fcode as [c|]; [|reflexivity].
  destruct (decide (c = EmptyString)); [reflexivity|]. simpl.
  destruct tree_arg as [tr|]; simpl;
    [|destruct (parse (Indent.fix_indentation c)) as [tr|]; simpl; [|reflexivity]].
  all: unfold compiled;
    destruct (<[def_name tr := _]> (globals w) !! s) as [f|]; simpl; [|reflexivity];
    destruct (decide (length (argspec_args f) = 3%nat)); simpl; [|reflexivity];
    destruct fvars as [vs|];
    (destruct (PType.uses_jit pt); simpl; [|reflexivity];
     destruct (Kernel.generate_jit _ _ _ _ _ _ _ _) as [[?|?] ?]; reflexivity).
Qed.

(** *** The constructor and the clock *)

Lemma warned_clock fs f (w : World) : clock_reads (warned fs f w) = clock_reads w.
Proof. unfold warned. destruct (_ && _); reflexivity. Qed.

(** Whatever its arguments, a constructor call that returns has gone
    through the steps after the arity assertion, and has not read the
    clock or called the code generator before them. *)
Lemma init_finish fs pt pyfunc fname fcode tree fvars c_include del w k w' :
  Kernel.__init__ fs pt pyfunc fname fcode tree fvars c_include del w = (Ok k, w') ->
  exists fn fv fc tr f w1,
    finish fs pt del fn fv fc tr f c_include w1 = (Ok k, w')
    /\ clock_reads w1 = clock_reads w
    /\ codegen_calls w1 = codegen_calls w.
Proof.
  destruct pyfunc as [f|].
  - rewrite init_callable. cbv zeta.
    destruct (source_for f fcode) as [text|]; [|discriminate].
    destruct (tree_for tree text) as [tr|]; [|discriminate].
    destruct (decide _); [|discriminate].
    intros Hfin. eexists _, _, _, _, _, _. split; [exact Hfin|].
    split; [apply warned_clock|apply warned_codegen].
  - rewrite init_no_callable.
    destruct fname as [s|]; [|discriminate].
    destruct (decide (s = EmptyString)); [discriminate|].
    destruct fcode as [c|]; [|discriminate].
    destruct (decide (c = EmptyString)); [discriminate|].
    destruct (tree_for tree c) as [tr|]; [|discriminate]. cbv zeta.
    destruct (_ !! s) as [f|]; [|discriminate].
    destruct (decide _); [|discriminate].
    intros Hfin. eexists _, _, _, _, _, _. split; [exact Hfin|].
    split; reflexivity.
Qed.

(** X11 — a kernel for an interpreted particle type. Its construction
    reads no clock and calls no code generator, and the kernel has none
    of the attributes of the compiled path: evaluating its cache key
    raises [AttributeError], and leaves the clock alone. *)
Theorem interpreted_kernel_has_no_key fs pt pyfunc fname fcode tree fvars
    c_include del w k w' :
  PType.uses_jit pt = false ->
  Kernel.__init__ fs pt pyfunc fname fcode tree fvars c_include del w = (Ok k, w') ->
  Kernel.jit k = None
  /\ Kernel.ptype k = pt
  /\ clock_reads w' = clock_reads w
  /\ codegen_calls w' = codegen_calls w
  /\ (forall w2, Kernel._cache_key k w2 = (Raise (AttributeError "field_args"), w2)).
Proof.
  intros Hjit Hinit.
  destruct (init_finish _ _ _ _ _ _ _ _ _ _ _ _ Hinit)
    as (fn & fv & fc & tr & f & w1 & Hfin & Hclock & Hgen).
  unfold finish in Hfin. rewrite Hjit in Hfin. injection Hfin as <- <-.
  repeat split; assumption.
Qed.

(** The names of the three files and the reads of the clock on the
    compiled path. *)
Lemma generate_jit_files fs pt fname tree fvars kname c_include w j w' :
  Kernel.generate_jit fs pt fname tree fvars kname c_include w = (Ok j, w') ->
  exists base,
    Kernel.src_file j = (base ++ ".c")%string
    /\ Kernel.lib_file j = (base ++ "." ++ (if win32 then "dll" else "so"))%string
    /\ Kernel.log_file j = (base ++ ".log")%string
    /\ match MPI with
       | None =>
           base = path_join get_cache_dir
                    (Kernel.cache_key_at kname pt (Kernel.field_args j)
                       (clock (clock_reads w)) ++ "_0")%string
           /\ clock_reads w' = S (clock_reads w)
       | Some comm =>
           if (Get_rank comm =? 0)%Z
           then base = (bcast comm
                          (Some (path_join get_cache_dir
                                   (Kernel.cache_key_at kname pt (Kernel.field_args j)
                                      (clock (clock_reads w))))) ++ "_"
                          ++ PyFormat.d (Get_rank comm))%string
                /\ clock_reads w' = S (clock_reads w)
           else base = (bcast comm None ++ "_" ++ PyFormat.d (Get_rank comm))%string
                /\ clock_reads w' = clock_reads w
       end.
Proof.
  unfold Kernel.generate_jit, Kernel.basename_of. run_m.
  destruct (kernelgen fs pt tree fvars) as [g|e]; simpl; [|discriminate].
  destruct MPI as [comm|]; simpl.
  - destruct (Get_rank comm =? 0)%Z; simpl; intros Hj; injection Hj as <- <-;
      eexists; repeat split; reflexivity.
  - intros Hj; injection Hj as <- <-. eexists; repeat split; reflexivity.
Qed.

(** X12 — the files of a compiled kernel. The source, library and log
    files share one base name, which the constructor settles once.
    Without cooperating processes the base name is the cache key taken
    at the first reading of the clock, followed by [_0], in the cache
    directory. With them, rank 0 reads the clock and broadcasts the
    path; the other ranks read no clock and use what the broadcast
    delivers; every rank appends its own rank. *)
Theorem compiled_kernel_files fs pt pyfunc fname fcode tree fvars
    c_include del w k w' :
  PType.uses_jit pt = true ->
  Kernel.__init__ fs pt pyfunc fname fcode tree fvars c_include del w = (Ok k, w') ->
  exists j base,
    Kernel.jit k = Some j
    /\ Kernel.src_file j = (base ++ ".c")%string
    /\ Kernel.lib_file j = (base ++ "." ++ (if win32 then "dll" else "so"))%string
    /\ Kernel.log_file j = (base ++ ".log")%string
    /\ match MPI with
       | None =>
           base = path_join get_cache_dir
                    (Kernel.cache_key_at (Kernel.name k) pt (Kernel.field_args j)
                       (clock (clock_reads w)) ++ "_0")%string
           /\ clock_reads w' = S (clock_reads w)
       | Some comm =>
           if (Get_rank comm =? 0)%Z
           then base = (bcast comm
                          (Some (path_join get_cache_dir
                                   (Kernel.cache_key_at (Kernel.name k) pt
                                      (Kernel.field_args j)
                                      (clock (clock_reads w))))) ++ "_"
                          ++ PyFormat.d (Get_rank comm))%string
                /\ clock_reads w' = S (clock_reads w)
           else base = (bcast comm None ++ "_" ++ PyFormat.d (Get_rank comm))%string
                /\ clock_reads w' = clock_reads w
       end.
Proof.
  intros Hjit Hinit.
  destruct (init_finish _ _ _ _ _ _ _ _ _ _ _ _ Hinit)
    as (fn & fv & fc & tr & f & w1 & Hfin & Hclock & _).
  unfold finish in Hfin. rewrite Hjit in Hfin.
  destruct (Kernel.generate_jit _ _ _ _ _ _ _ _) as [[j|e] w2] eqn:Hgen;
    [|discriminate].
  injection Hfin as <- <-.
  destruct (generate_jit_files _ _ _ _ _ _ _ _ _ _ Hgen)
    as (base & Hsrc & Hlib & Hlog & Hbase).
  exists j, base. split; [reflexivity|]. split; [exact Hsrc|].
  split; [exact Hlib|]. split; [exact Hlog|].
  cbn [Kernel.name assemble]. rewrite <- Hclock. exact Hbase.
Qed.



(** *** Merging and the user's module *)




(** X15 — adding a plain function on the right. [k + f] wraps [f] in a
    kernel over the field set and particle type of [k] and merges it
    after [k]: the name is [k]'s followed by [f]'s, the body [k]'s
    statements followed by those of [f]. The wrapper is built with the
    default [delete_cfiles], so the sum keeps the setting of [k]; adding
    the wrapper itself gives the same kernel. *)
Theorem add_callable (k : Kernel.t) (f : PyFunction) (text : string)
    (tree : FunctionDef) (w : World) :
  fn_source f = Some text ->
  parse (Indent.fix_indentation text) = Some tree ->
  length (argspec_args f) = 3%nat ->
  jit_ready (Kernel.fieldset k) (Kernel.ptype k) tree (Some (co_varnames f)) ->
  mergeable k (wrapped k f text tree None) ->
  exists j w1 k' w',
    let kf := wrapped k f text tree j in
    Kernel.wrap k (inr f) w = (Ok kf, w1)
    /\ Kernel.__add__ k (inr f) w = (Ok k', w')
    /\ Kernel.__add__ k (inl kf) w1 = (Ok k', w')
    /\ Kernel.merge k kf w1 = (Ok k', w')
    /\ Kernel.funcname k' = (Kernel.funcname k ++ __name__ f)%string
    /\ def_body (Kernel.py_ast k') = def_body (Kernel.py_ast k) ++ def_body tree
    /\ Kernel.delete_cfiles k' = Kernel.delete_cfiles k
    /\ Kernel.fieldset k' = Kernel.fieldset k
    /\ Kernel.ptype k' = Kernel.ptype k.
Proof.
  intros Hsrc Hparse Hlen Hready Hm.
  assert (Hwrap : exists j w1,
             Kernel.wrap k (inr f) w = (Ok (wrapped k f text tree j), w1)).
  { unfold Kernel.wrap. rewrite init_callable. cbv zeta.
    unfold source_for, tree_for. rewrite Hsrc, Hparse.
    destruct (decide _); [|contradiction].
    edestruct finish_ok as (j & w1 & Hfin & _); [exact Hready|].
    exists j, w1. exact Hfin. }
  destruct Hwrap as (j & w1 & Hwrap).
  assert (Hm' : mergeable k (wrapped k f text tree j)) by exact Hm.
  destruct (merge_ok k _ w1 Hm') as (j' & w' & Hmerge & _).
  exists j, w1. eexists _, w'. cbv zeta.
  split; [exact Hwrap|].
  split. { unfold Kernel.__add__, bind. rewrite Hwrap. exact Hmerge. }
  split. { unfold Kernel.__add__, bind. simpl. exact Hmerge. }
  split; [exact Hmerge|].
  simpl. rewrite andb_true_r. auto.
Qed.

End MoreConstruction.
(* ===================================================================== *)
(** ** The further properties of construction on concrete kernels *)
(* ===================================================================== *)

Section MoreConstructionOnToy.

Import Toy.

(** The generator lists [U] already; the vector field [UV] adds [V]
    only. *)
Lemma vector_components_join_witness :
  Kernel.add_vector_fields [("U"%string, U UV)] [("UV"%string, UV)]
  = [("U"%string, U UV); ("V"%string, V UV)]
  /\ exists extra,
       Kernel.add_vector_fields [("U"%string, U UV)] [("UV"%string, UV)]
       = [("U"%string, U UV)] ++ extra
       /\ base.NoDup (keys ([("U"%string, U UV)] ++ extra))
       /\ "V"%string ∈ keys ([("U"%string, U UV)] ++ extra).
Proof.
  split; [vm_compute; reflexivity|].
  destruct (vector_components_join [("U"%string, U UV)] [("UV"%string, UV)]) as (extra & Heq & Hnd & _ & Hin & _).
  { cbn. apply NoDup_singleton. }
  exists extra. split; [exact Heq|]. split; [exact Hnd|].
  apply (Hin "UV"%string UV ("V"%string, Some (V UV))).
  - left.
  - cbn. right. left.
  - discriminate.
Defined.

Lemma interpreted_kernel_has_no_key_witness :
  exists k w',
    Kernel.__init__ 0%nat scipy (Some move) None None None None EmptyString true world0
    = (Ok k, w')
    /\ Kernel._cache_key k w' = (Raise (AttributeError "field_args"), w')
    /\ clock_reads w' = 0%nat.
Proof.
  assert (Hinit : exists k w',
             Kernel.__init__ 0%nat scipy (Some move) None None None None EmptyString
                             true world0 = (Ok k, w'))
    by (eexists _, _; vm_compute; reflexivity).
  destruct Hinit as (k & w' & Hinit). exists k, w'. split; [exact Hinit|].
  destruct (@interpreted_kernel_has_no_key Toy.objects Toy.host 0%nat scipy
              _ _ _ _ _ _ _ _ _ _ eq_refl Hinit) as (_ & _ & Hclock & _ & Hkey).
  split; [apply Hkey|exact Hclock].
Defined.

Lemma compiled_kernel_files_witness :
  exists k w' j base,
    Kernel.__init__ 0%nat jit (Some move) None None None None EmptyString true world0
    = (Ok k, w')
    /\ Kernel.jit k = Some j
    /\ Kernel.src_file j = (base ++ ".c")%string
    /\ Kernel.lib_file j = (base ++ ".so")%string
    /\ Kernel.log_file j = (base ++ ".log")%string
    /\ clock_reads w' = 1%nat.
Proof.
  assert (Hinit : exists k w',
             Kernel.__init__ 0%nat jit (Some move) None None None None EmptyString
                             true world0 = (Ok k, w'))
    by (eexists _, _; vm_compute; reflexivity).
  destruct Hinit as (k & w' & Hinit).
  destruct (@compiled_kernel_files Toy.objects Toy.host 0%nat jit
              _ _ _ _ _ _ _ _ _ _ eq_refl Hinit) as (j & base & Hj & Hsrc & Hlib & Hlog & _ & Hclock).
  exists k, w', j, base. repeat split; assumption.
Defined.



Lemma add_callable_witness :
  exists k',
    (Kernel.__add__ jit_age (inr move) world0).1 = Ok k'
    /\ Kernel.funcname k' = "agemove"%string
    /\ def_body (Kernel.py_ast k') = [Assign "age" 2; Assign "lon" 1].
Proof.
  assert (Hm : mergeable jit_age (wrapped jit_age move "move" (fn_def move) None))
    by toy_mergeable.
  assert (Hready : jit_ready (Kernel.fieldset jit_age) (Kernel.ptype jit_age)
                     (fn_def move) (Some (co_varnames move)))
    by (intros _; eexists; reflexivity).
  assert (Hparse : parse (Indent.fix_indentation "move") = Some (fn_def move))
    by (vm_compute; reflexivity).
  destruct (add_callable jit_age move "move" (fn_def move) world0
              eq_refl Hparse eq_refl Hready Hm)
    as (j & w1 & k' & w' & _ & Hadd & _ & _ & Hname & Hbody & _).
  exists k'. rewrite Hadd. repeat split; assumption.
Defined.

End MoreConstructionOnToy.
(* ===================================================================== *)
(** ** [fix_indentation] *)
(* ===================================================================== *)

Section Indentation.

Import Indent.

Local Open Scope string_scope.

Lemma app_cons (c : ascii) (s t : string) : String c s ++ t = String c (s ++ t).
Proof. reflexivity. Qed.

Lemma app_nil (t : string) : EmptyString ++ t = t.
Proof. reflexivity. Qed.

Lemma split_lines_cons (s : string) : exists l ls, split_lines s = l :: ls.
Proof.
  induction s as [|c s (l & ls & IH)]; [eexists _, _; reflexivity|].
  cbn [split_lines]. destruct (Ascii.eqb c newline); [eexists _, _; reflexivity|].
  rewrite IH. eexists _, _; reflexivity.
Qed.

Lemma join_cons (l : string) (m : string) (ls : list string) :
  join_lines (l :: m :: ls) = l ++ String newline (join_lines (m :: ls)).
Proof. reflexivity. Qed.

Lemma join_cons_char (c : ascii) (l : string) (ls : list string) :
  join_lines (String c l :: ls) = String c (join_lines (l :: ls)).
Proof. destruct ls; reflexivity. Qed.

Lemma join_split (s : string) : join_lines (split_lines s) = s.
Proof.
  induction s as [|c s IH]; [reflexivity|].
  cbn [split_lines]. destruct (Ascii.eqb c newline) eqn:Hc.
  - apply Ascii.eqb_eq in Hc. subst c.
    destruct (split_lines_cons s) as (l & ls & Hs). rewrite Hs in *.
    rewrite join_cons, IH. reflexivity.
  - destruct (split_lines_cons s) as (l & ls & Hs). rewrite Hs in *.
    rewrite join_cons_char, IH. reflexivity.
Qed.

Lemma split_no_newline (l : string) : no_newline l = true -> split_lines l = [l].
Proof.
  induction l as [|c l IH]; [reflexivity|].
  cbn [no_newline split_lines]. intros Hl. apply andb_true_iff in Hl as [Hc Hl].
  apply negb_true_iff in Hc. rewrite Hc, (IH Hl). reflexivity.
Qed.

Lemma split_line_break (l rest : string) :
  no_newline l = true ->
  split_lines (l ++ String newline rest) = l :: split_lines rest.
Proof.
  induction l as [|c l IH]; intros Hl.
  - rewrite app_nil. cbn [split_lines]. rewrite Ascii.eqb_refl. reflexivity.
  - cbn [no_newline] in Hl. apply andb_true_iff in Hl as [Hc Hl].
    apply negb_true_iff in Hc. rewrite app_cons. cbn [split_lines].
    rewrite Hc, (IH Hl). reflexivity.
Qed.

Lemma split_join (l : string) (ls : list string) :
  forallb no_newline (l :: ls) = true ->
  split_lines (join_lines (l :: ls)) = l :: ls.
Proof.
  revert l. induction ls as [|m ls IH]; intros l Hall.
  - cbn in Hall. apply andb_true_iff in Hall as [Hl _].
    apply split_no_newline, Hl.
  - cbn [forallb] in Hall. apply andb_true_iff in Hall as [Hl Hrest].
    rewrite join_cons, split_line_break by exact Hl.
    rewrite IH by exact Hrest. reflexivity.
Qed.

Lemma split_lines_no_newline (s : string) :
  forallb no_newline (split_lines s) = true.
Proof.
  induction s as [|c s IH]; [reflexivity|].
  cbn [split_lines]. destruct (Ascii.eqb c newline) eqn:Hc; [exact IH|].
  destruct (split_lines s) as [|l ls]; cbn [forallb no_newline] in *.
  - rewrite Hc. reflexivity.
  - rewrite Hc. exact IH.
Qed.

Lemma drop_no_newline (n : nat) (l : string) :
  no_newline l = true -> no_newline (drop n l) = true.
Proof.
  revert l. induction n as [|n IH]; intros [|c l] Hl; try exact Hl.
  cbn [drop]. apply IH. cbn [no_newline] in Hl.
  apply andb_true_iff in Hl as [_ Hl]. exact Hl.
Qed.

Lemma replace_first_no_newline (old l : string) :
  no_newline l = true -> no_newline (replace_first old l) = true.
Proof.
  induction l as [|c l IH]; intros Hl.
  - cbn [replace_first]. destruct (String.prefix old EmptyString); [|reflexivity].
    apply drop_no_newline. reflexivity.
  - cbn [replace_first]. destruct (String.prefix old (String c l)).
    + apply drop_no_newline, Hl.
    + cbn [no_newline] in Hl |- *. apply andb_true_iff in Hl as [Hc Hl].
      rewrite Hc, (IH Hl). reflexivity.
Qed.

Lemma prefix_app (ind rest : string) : String.prefix ind (ind ++ rest) = true.
Proof.
  induction ind as [|c ind IH]; [destruct rest; reflexivity|].
  rewrite app_cons. cbn [String.prefix]. destruct (ascii_dec c c); [exact IH|contradiction].
Qed.

Lemma drop_app (ind rest : string) : drop (String.length ind) (ind ++ rest) = rest.
Proof.
  induction ind as [|c ind IH]; [reflexivity|].
  rewrite app_cons. cbn [String.length drop]. exact IH.
Qed.

Lemma replace_first_prefix (ind rest : string) :
  replace_first ind (ind ++ rest) = rest.
Proof.
  destruct (ind ++ rest) as [|c l] eqn:Heq; cbn [replace_first];
    rewrite <- Heq, prefix_app, drop_app; reflexivity.
Qed.

Lemma length_app (s t : string) :
  String.length (s ++ t) = (String.length s + String.length t)%nat.
Proof. induction s as [|c s IH]; [reflexivity|]. rewrite app_cons. cbn. rewrite IH. reflexivity. Qed.

Lemma app_assoc_string (s t u : string) : (s ++ t) ++ u = s ++ t ++ u.
Proof. induction s as [|c s IH]; [reflexivity|]. rewrite !app_cons, IH. reflexivity. Qed.

Lemma app_inv_head_string (s t u : string) : s ++ t = s ++ u -> t = u.
Proof.
  induction s as [|c s IH]; intros Heq; [exact Heq|].
  rewrite !app_cons in Heq. injection Heq as Heq. apply IH, Heq.
Qed.

(** The white space a text starts with is empty, or begins with one
    white-space character, of one, two or three bytes, after which the
    count goes on. *)
Lemma leading_space_step (s : string) :
  leading_space s = EmptyString
  \/ exists c s',
       s = c ++ s' /\ c <> EmptyString
       /\ forall t, leading_space (c ++ t) = c ++ leading_space t.
Proof.
  destruct s as [|a s1]; [left; reflexivity|].
  destruct (is_space a) eqn:Ha.
  { right. exists (String a EmptyString), s1. split; [reflexivity|].
    split; [discriminate|]. intros t. rewrite !app_cons, !app_nil.
    cbn [leading_space]. rewrite Ha. reflexivity. }
  destruct s1 as [|b s2]; [left; cbn [leading_space]; rewrite Ha; reflexivity|].
  destruct (is_space2 a b) eqn:Hb.
  { right. exists (String a (String b EmptyString)), s2. split; [reflexivity|].
    split; [discriminate|]. intros t. rewrite !app_cons, !app_nil.
    cbn [leading_space]. rewrite Ha, Hb. reflexivity. }
  destruct s2 as [|c s3];
    [left; cbn [leading_space]; rewrite Ha, Hb; reflexivity|].
  destruct (is_space3 a b c) eqn:Hc.
  { right. exists (String a (String b (String c EmptyString))), s3.
    split; [reflexivity|]. split; [discriminate|]. intros t.
    rewrite !app_cons, !app_nil. cbn [leading_space]. rewrite Ha, Hb, Hc.
    reflexivity. }
  left. cbn [leading_space]. rewrite Ha, Hb, Hc. reflexivity.
Qed.

Lemma length_pos (c : string) : c <> EmptyString -> (0 < String.length c)%nat.
Proof. destruct c; [contradiction|cbn; lia]. Qed.

Lemma leading_space_split (l : string) :
  exists rest, l = leading_space l ++ rest /\ leading_space rest = EmptyString.
Proof.
  remember (String.length l) as n eqn:Hn.
  assert (Hle : (String.length l <= n)%nat) by lia. clear Hn. revert l Hle.
  induction n as [|n IH]; intros l Hle.
  - destruct l; [|cbn in Hle; lia]. exists EmptyString. split; reflexivity.
  - destruct (leading_space_step l) as [Hnone|(c & s' & -> & Hc & Hstep)].
    + exists l. split; [rewrite Hnone; reflexivity|exact Hnone].
    + rewrite length_app in Hle. apply length_pos in Hc.
      destruct (IH s') as (rest & Hs' & Hrest); [lia|].
      exists rest. split; [|exact Hrest].
      rewrite Hstep, app_assoc_string, <- Hs'. reflexivity.
Qed.

Lemma all_space_iff (s : string) : all_space s = true <-> leading_space s = s.
Proof. unfold all_space. apply bool_decide_eq_true. Qed.

Lemma leading_space_app (ind rest : string) :
  all_space ind = true -> leading_space rest = EmptyString ->
  leading_space (ind ++ rest) = ind.
Proof.
  intros Hind Hrest. apply all_space_iff in Hind.
  remember (String.length ind) as n eqn:Hn.
  assert (Hle : (String.length ind <= n)%nat) by lia. clear Hn. revert ind Hind Hle.
  induction n as [|n IH]; intros ind Hind Hle.
  - destruct ind; [exact Hrest|cbn in Hle; lia].
  - destruct (leading_space_step ind) as [Hnone|(c & s' & -> & Hc & Hstep)].
    + rewrite Hnone in Hind. subst ind. exact Hrest.
    + rewrite Hstep in Hind. apply app_inv_head_string in Hind.
      rewrite length_app in Hle. apply length_pos in Hc.
      rewrite app_assoc_string, Hstep, (IH s' Hind) by lia. reflexivity.
Qed.

Lemma fix_indentation_eq (s : string) :
  fix_indentation s
  = join_lines (match re_indent_match (first_line s) with
                | Some indent => List.map (replace_first indent) (split_lines s)
                | None => split_lines s
                end).
Proof. reflexivity. Qed.

Lemma re_indent_match_None (l : string) :
  re_indent_match l = None <-> leading_space l = EmptyString.
Proof.
  unfold re_indent_match. destruct (leading_space l); split; congruence.
Qed.

Lemma re_indent_match_Some (l ind : string) :
  re_indent_match l = Some ind -> leading_space l = ind /\ ind <> EmptyString.
Proof.
  unfold re_indent_match. destruct (leading_space l); [discriminate|].
  intros Heq. injection Heq as <-. split; [reflexivity|discriminate].
Qed.

Lemma first_line_fixed (s : string) :
  leading_space (first_line (fix_indentation s)) = EmptyString
  /\ (leading_space (first_line s) = EmptyString -> fix_indentation s = s).
Proof.
  rewrite fix_indentation_eq. unfold first_line.
  destruct (split_lines_cons s) as (l & ls & Hs).
  pose proof (split_lines_no_newline s) as Hnl. rewrite Hs in *. cbn [hd].
  destruct (re_indent_match l) as [ind|] eqn:Hind.
  - apply re_indent_match_Some in Hind as [Hind Hne]. split; [|congruence].
    cbn [List.map]. rewrite split_join.
    + cbn [hd]. destruct (leading_space_split l) as (rest & Hl & Hrest).
      rewrite Hind in Hl. rewrite Hl at 1. rewrite replace_first_prefix. exact Hrest.
    + change (forallb no_newline (List.map (replace_first ind) (l :: ls)) = true).
      rewrite List.forallb_forall in Hnl |- *. intros x Hx.
      apply List.in_map_iff in Hx as (y & <- & Hy).
      apply replace_first_no_newline, Hnl, Hy.
  - apply re_indent_match_None in Hind. rewrite <- Hs, join_split, Hs. cbn [hd].
    split; [exact Hind|]. intros _. reflexivity.
Qed.

(** X16 — [fix_indentation] twice is [fix_indentation] once: the first
    line of its result does not start with white space. A text whose
    first line does not start with white space is returned as it is. *)
Theorem fix_indentation_idempotent (s : string) :
  fix_indentation (fix_indentation s) = fix_indentation s
  /\ leading_space (first_line (fix_indentation s)) = EmptyString
  /\ (leading_space (first_line s) = EmptyString -> fix_indentation s = s).
Proof.
  destruct (first_line_fixed s) as [Hfirst Hsame].
  split; [|split; assumption].
  apply (proj2 (first_line_fixed (fix_indentation s))), Hfirst.
Qed.

(** X17 — a definition written inside another block is brought to the
    margin: when every line starts with the white space in front of the
    first line, that white space is taken off every line, and what
    follows it stays, deeper indentation included. *)
Theorem fix_indentation_dedents (indent first : string) (rest : list string) :
  indent <> EmptyString ->
  all_space indent = true -> no_newline indent = true ->
  leading_space first = EmptyString ->
  forallb no_newline (first :: rest) = true ->
  fix_indentation (join_lines (List.map (String.append indent) (first :: rest)))
  = join_lines (first :: rest).
Proof.
  intros Hne Hspace Hnl Hfirst Hlines.
  assert (Hnl' : forallb no_newline (List.map (String.append indent) (first :: rest))
                 = true).
  { rewrite List.forallb_forall in Hlines |- *. intros x Hx.
    apply List.in_map_iff in Hx as (y & <- & Hy). specialize (Hlines y Hy).
    clear -Hnl Hlines. induction indent as [|c ind IH]; [exact Hlines|].
    cbn [no_newline] in Hnl. apply andb_true_iff in Hnl as [Hc Hind].
    rewrite app_cons. cbn [no_newline]. rewrite Hc, (IH Hind). reflexivity. }
  rewrite fix_indentation_eq. unfold first_line.
  cbn [List.map] in Hnl' |- *. rewrite split_join by exact Hnl'. cbn [hd].
  unfold re_indent_match. rewrite leading_space_app by assumption.
  destruct indent as [|c ind]; [contradiction|].
  f_equal. cbn [List.map]. rewrite replace_first_prefix. f_equal.
  rewrite List.map_map. rewrite <- (List.map_id rest) at 2.
  apply List.map_ext. intros l. apply replace_first_prefix.
Qed.

End Indentation.

Section IndentationExamples.

Local Open Scope string_scope.

(** A text at the margin is returned as it is, inner indentation
    included. *)
Lemma fix_indentation_idempotent_witness :
  Indent.fix_indentation (join_lines ["def k(p, f, t):"; "    p.lon += 1"])
  = join_lines ["def k(p, f, t):"; "    p.lon += 1"].
Proof.
  apply (fix_indentation_idempotent (join_lines ["def k(p, f, t):"; "    p.lon += 1"])).
  reflexivity.
Defined.

(** A definition indented by four blanks, with a body indented by
    eight. *)
Lemma fix_indentation_dedents_witness :
  Indent.fix_indentation (join_lines ["    def k(p, f, t):"; "        p.lon += 1"])
  = join_lines ["def k(p, f, t):"; "    p.lon += 1"].
Proof.
  apply (fix_indentation_dedents "    " "def k(p, f, t):" ["    p.lon += 1"]);
    [discriminate|reflexivity..].
Defined.

(** A line indented by a no-break space, U+00A0, which takes the two
    bytes 194 and 160, and a line indented by an ideographic space,
    U+3000, which takes the three bytes 227, 128 and 128. *)
Lemma fix_indentation_unicode_space :
  let nbsp := String (ascii_of_nat 194) (String (ascii_of_nat 160) EmptyString) in
  let wide := String (ascii_of_nat 227)
                (String (ascii_of_nat 128) (String (ascii_of_nat 128) EmptyString)) in
  Indent.fix_indentation (nbsp ++ "x = 1") = "x = 1"
  /\ Indent.fix_indentation (wide ++ " y = 2") = "y = 2".
Proof. split; vm_compute; reflexivity. Qed.

End IndentationExamples.
(* ===================================================================== *)
(** ** The life of a compiled library *)
(* ===================================================================== *)

Section LibraryLifecycle.

Context `{Objects} `{!Host} `{!Toolchain}.

Lemma string_app_inv_head (s t u : string) : (s ++ t = s ++ u)%string -> t = u.
Proof.
  induction s as [|c s IH]; intros Heq; [exact Heq|].
  apply IH. change (String c (s ++ t) = String c (s ++ u))%string in Heq.
  congruence.
Qed.

Lemma files_of_distinct (base : string) (j : Kernel.Jit) :
  files_of base j ->
  Kernel.src_file j <> Kernel.lib_file j
  /\ Kernel.src_file j <> Kernel.log_file j
  /\ Kernel.lib_file j <> Kernel.log_file j.
Proof.
  intros (-> & -> & ->).
  repeat split; intros Heq; apply string_app_inv_head in Heq;
    destruct win32; discriminate.
Qed.

Lemma remove_all_three (fs : gmap string string) (a b c : string) :
  a <> b -> a <> c -> b <> c ->
  is_Some (fs !! a) -> is_Some (fs !! b) -> is_Some (fs !! c) ->
  remove_all [a; b; c] fs = (Ok tt, delete c (delete b (delete a fs))).
Proof.
  intros Hab Hac Hbc [x Ha] [y Hb] [z Hc]. cbn [remove_all]. rewrite Ha.
  rewrite lookup_delete_ne by exact Hab. rewrite Hb.
  rewrite !lookup_delete_ne by congruence. rewrite Hc. reflexivity.
Qed.

Lemma set_lib_None (self : KernelObject) : _lib self = None -> set_lib None self = self.
Proof. destruct self as [k l f]. cbn. intros ->. reflexivity. Qed.

Lemma del_none (self : KernelObject) (p : Process) :
  _lib self = None -> __del__ self p = (Ok tt, self, p).
Proof. intros Hlib. unfold __del__. rewrite Hlib. reflexivity. Qed.

(** What [__del__] leaves. *)
Lemma del_effect (self : KernelObject) (p : Process) :
  let r := __del__ self p in
  _lib r.1.2 = None
  /\ _function r.1.2 = _function self
  /\ this r.1.2 = this self
  /\ libraries r.2 = match _lib self with
                     | Some h => delete h (libraries p)
                     | None => libraries p
                     end
  /\ world r.2 = world p
  /\ (_lib self = None -> r = (Ok tt, self, p))
  /\ __del__ r.1.2 r.2 = (Ok tt, r.1.2, r.2).
Proof.
  cbv zeta.
  assert (Hfacts : _lib (__del__ self p).1.2 = None
                   /\ _function (__del__ self p).1.2 = _function self
                   /\ this (__del__ self p).1.2 = this self
                   /\ libraries (__del__ self p).2
                      = match _lib self with
                        | Some h => delete h (libraries p)
                        | None => libraries p
                        end
                   /\ world (__del__ self p).2 = world p).
  { unfold __del__. destruct (_lib self) as [h|] eqn:Hlib.
    - cbn [this set_lib].
      destruct (Kernel.jit (this self)) as [j|];
        [destruct (isfile _ _ && _)|]; repeat split; reflexivity.
    - repeat split; try reflexivity. exact Hlib. }
  destruct Hfacts as (Hnone & Hfun & Hthis & Hlibs & Hworld).
  split; [exact Hnone|]. split; [exact Hfun|]. split; [exact Hthis|].
  split; [exact Hlibs|]. split; [exact Hworld|].
  split; [intros Hlib; apply del_none, Hlib|apply del_none, Hnone].
Qed.

(** X18 — destroying a kernel object. Whatever the outcome, the object
    references no library afterwards and the reference it held is
    closed; [_function], bound by [load_lib], is not reset and still
    points into the closed library. A kernel that holds no library is
    left alone, files included, so destroying a kernel twice does
    nothing the second time. *)
Theorem teardown_once (self : KernelObject) (p : Process) :
  let r := __del__ self p in
  _lib r.1.2 = None
  /\ _function r.1.2 = _function self
  /\ this r.1.2 = this self
  /\ libraries r.2 = match _lib self with
                     | Some h => delete h (libraries p)
                     | None => libraries p
                     end
  /\ world r.2 = world p
  /\ (_lib self = None -> r = (Ok tt, self, p))
  /\ __del__ r.1.2 r.2 = (Ok tt, r.1.2, r.2).
Proof. apply del_effect. Qed.

(** What [__del__] does to the files. *)
Lemma del_files (self : KernelObject) (p : Process) (h : nat)
    (j : Kernel.Jit) (base : string) :
  _lib self = Some h -> Kernel.jit (this self) = Some j -> files_of base j ->
  is_Some (files p !! Kernel.lib_file j) ->
  let closed := close_library h p in
  (Kernel.delete_cfiles (this self) = false ->
     __del__ self p = (Ok tt, set_lib None self, closed))
  /\ (Kernel.delete_cfiles (this self) = true ->
      is_Some (files p !! Kernel.src_file j) ->
      is_Some (files p !! Kernel.log_file j) ->
      __del__ self p
      = (Ok tt, set_lib None self, with_files (without_files j (files p)) closed))
  /\ (Kernel.delete_cfiles (this self) = true ->
      files p !! Kernel.src_file j = None ->
      __del__ self p
      = (Raise (OtherException "FileNotFoundError" (Kernel.src_file j)),
         set_lib None self, closed))
  /\ (Kernel.delete_cfiles (this self) = true ->
      is_Some (files p !! Kernel.src_file j) ->
      files p !! Kernel.log_file j = None ->
      __del__ self p
      = (Raise (OtherException "FileNotFoundError" (Kernel.log_file j)),
         set_lib None self,
         with_files (delete (Kernel.lib_file j) (delete (Kernel.src_file j) (files p)))
                    closed)).
Proof.
  intros Hlib Hjit Hnames Hfile closed.
  destruct (files_of_distinct base j Hnames) as (Hsl & Hsg & Hlg).
  unfold __del__. rewrite Hlib. cbn [this set_lib]. rewrite Hjit.
  cbn [files close_library]. unfold isfile.
  rewrite (bool_decide_eq_true_2 _ Hfile). cbn [andb].
  split; [|split; [|split]].
  - intros ->. reflexivity.
  - intros -> Hsrc Hlog.
    rewrite (remove_all_three _ _ _ _ Hsl Hsg Hlg Hsrc Hfile Hlog). reflexivity.
  - intros -> Hsrc. cbn [remove_all]. rewrite Hsrc. reflexivity.
  - intros -> [x Hsrc] Hlog. destruct Hfile as [y Hfile]. cbn [remove_all].
    rewrite Hsrc. rewrite lookup_delete_ne by exact Hsl. rewrite Hfile.
    rewrite !lookup_delete_ne by congruence. rewrite Hlog. reflexivity.
Qed.

(** X19 — the files of a destroyed kernel. With a library loaded and
    its file on disk: when the kernel was built with [delete_cfiles]
    off, no file is removed; when it is on and the source and log files
    are there too, the three files are removed and nothing else; when
    the source file is missing, [os.remove] raises and the library file
    stays; when the log file is missing, it raises after the source and
    library files are gone. The library is closed in every case. *)
Theorem teardown_files (self : KernelObject) (p : Process) (h : nat)
    (j : Kernel.Jit) (base : string) :
  _lib self = Some h -> Kernel.jit (this self) = Some j -> files_of base j ->
  is_Some (files p !! Kernel.lib_file j) ->
  let closed := close_library h p in
  (Kernel.delete_cfiles (this self) = false ->
     __del__ self p = (Ok tt, set_lib None self, closed))
  /\ (Kernel.delete_cfiles (this self) = true ->
      is_Some (files p !! Kernel.src_file j) ->
      is_Some (files p !! Kernel.log_file j) ->
      __del__ self p
      = (Ok tt, set_lib None self, with_files (without_files j (files p)) closed))
  /\ (Kernel.delete_cfiles (this self) = true ->
      files p !! Kernel.src_file j = None ->
      __del__ self p
      = (Raise (OtherException "FileNotFoundError" (Kernel.src_file j)),
         set_lib None self, closed))
  /\ (Kernel.delete_cfiles (this self) = true ->
      is_Some (files p !! Kernel.src_file j) ->
      files p !! Kernel.log_file j = None ->
      __del__ self p
      = (Raise (OtherException "FileNotFoundError" (Kernel.log_file j)),
         set_lib None self,
         with_files (delete (Kernel.lib_file j) (delete (Kernel.src_file j) (files p)))
                    closed)).
Proof. apply del_files. Qed.


Lemma basename_of_key (k : Kernel.t) (j : Kernel.Jit) (w : World) :
  Kernel.jit k = Some j ->
  exists base w',
    Kernel.basename_of (Kernel._cache_key k) w = (Ok base, w')
    /\ globals w' = globals w /\ env w' = env w /\ log w' = log w
    /\ match MPI with
       | None =>
           base = path_join get_cache_dir
                    (Kernel.cache_key_at (Kernel.name k) (Kernel.ptype k)
                       (Kernel.field_args j) (clock (clock_reads w)) ++ "_0")%string
           /\ clock_reads w' = S (clock_reads w)
       | Some comm =>
           if (Get_rank comm =? 0)%Z
           then base = (bcast comm
                          (Some (path_join get_cache_dir
                                   (Kernel.cache_key_at (Kernel.name k) (Kernel.ptype k)
                                      (Kernel.field_args j)
                                      (clock (clock_reads w))))) ++ "_"
                          ++ PyFormat.d (Get_rank comm))%string
                /\ clock_reads w' = S (clock_reads w)
           else base = (bcast comm None ++ "_" ++ PyFormat.d (Get_rank comm))%string
                /\ clock_reads w' = clock_reads w
       end.
Proof.
  intros Hjit. unfold Kernel.basename_of, Kernel._cache_key. rewrite Hjit. run_m.
  destruct MPI as [comm|]; simpl.
  - destruct (Get_rank comm =? 0)%Z; simpl; eexists _, _; repeat split; reflexivity.
  - eexists _, _; repeat split; reflexivity.
Qed.

(** X20 — invalidating the library of a compiled kernel. The library,
    if one is loaded, is closed first. When the library file is not on
    disk, that is all: the names stay, the clock is not read, and a
    source or log file that is there is left. When the three files are
    on disk they are removed, and the kernel gets three new names over
    one new base name, taken from a new reading of the clock; the
    generated code and the argument lists are kept, and [_function] is
    not reset. *)
Theorem invalidate_renames (self : KernelObject) (p : Process)
    (j : Kernel.Jit) (base : string) :
  Kernel.jit (this self) = Some j -> files_of base j ->
  let closed := match _lib self with
                | Some h => close_library h p
                | None => p
                end in
  (files p !! Kernel.lib_file j = None ->
     remove_lib self p = (Ok tt, set_lib None self, closed))
  /\ (is_Some (files p !! Kernel.src_file j) ->
      is_Some (files p !! Kernel.lib_file j) ->
      is_Some (files p !! Kernel.log_file j) ->
      exists base' w' j',
        Kernel.basename_of (Kernel._cache_key (this self)) (world p) = (Ok base', w')
        /\ remove_lib self p
           = (Ok tt, rename base' (set_lib None self),
              with_world w' (with_files (without_files j (files p)) closed))
        /\ Kernel.jit (this (rename base' (set_lib None self))) = Some j'
        /\ files_of base' j'
        /\ jit_static j' = jit_static j
        /\ _lib (rename base' (set_lib None self)) = None
        /\ _function (rename base' (set_lib None self)) = _function self
        /\ (MPI = None ->
            base' = path_join get_cache_dir
                      (Kernel.cache_key_at (Kernel.name (this self))
                         (Kernel.ptype (this self)) (Kernel.field_args j)
                         (clock (clock_reads (world p))) ++ "_0")%string
            /\ clock_reads w' = S (clock_reads (world p)))).
Proof.
  intros Hjit Hnames closed.
  destruct (files_of_distinct base j Hnames) as (Hsl & Hsg & Hlg).
  assert (Hstep : remove_lib self p
                  = match Kernel.jit (this (set_lib None self)) with
                    | None => (Raise (AttributeError "lib_file"), set_lib None self, closed)
                    | Some j =>
                        if isfile (files closed) (Kernel.lib_file j) then
                          match remove_all [Kernel.src_file j; Kernel.lib_file j;
                                            Kernel.log_file j] (files closed) with
                          | (Raise e, fs) =>
                              (Raise e, set_lib None self, with_files fs closed)
                          | (Ok _, fs) =>
                              match Kernel.basename_of
                                      (Kernel._cache_key (this (set_lib None self)))
                                      (world (with_files fs closed)) with
                              | (Raise e, w) =>
                                  (Raise e, set_lib None self,
                                   with_world w (with_files fs closed))
                              | (Ok basename, w) =>
                                  (Ok tt, rename basename (set_lib None self),
                                   with_world w (with_files fs closed))
                              end
                          end
                        else (Ok tt, set_lib None self, closed)
                    end).
  { unfold remove_lib. subst closed. destruct (_lib self) as [h|] eqn:Hlib.
    - reflexivity.
    - rewrite (set_lib_None self Hlib). reflexivity. }
  assert (Hfiles : files closed = files p).
  { subst closed. destruct (_lib self); reflexivity. }
  assert (Hworld : forall fs, world (with_files fs closed) = world p).
  { intros fs. subst closed. destruct (_lib self); reflexivity. }
  rewrite Hstep. cbn [this set_lib]. rewrite Hjit, Hfiles. unfold isfile. split.
  - intros Hnone. rewrite bool_decide_eq_false_2; [reflexivity|].
    rewrite Hnone. intros [x Hx]. discriminate.
  - intros Hsrc Hlib Hlog. rewrite (bool_decide_eq_true_2 _ Hlib).
    rewrite (remove_all_three _ _ _ _ Hsl Hsg Hlg Hsrc Hlib Hlog).
    rewrite Hworld.
    destruct (basename_of_key (this self) j (world p) Hjit)
      as (base' & w' & Hbase & _ & _ & _ & Hmpi).
    rewrite Hbase. exists base', w'. unfold rename. cbn [this set_lib]. rewrite Hjit.
    eexists. split; [reflexivity|]. split; [reflexivity|].
    cbn [this Kernel.jit]. split; [reflexivity|].
    split; [repeat split; reflexivity|]. split; [reflexivity|].
    split; [reflexivity|]. split; [reflexivity|].
    intros Hnone. rewrite Hnone in Hmpi. exact Hmpi.
Qed.


(** X22 — compiled, loaded, destroyed. When the compiler succeeds and
    leaves the source, library and log files, and the library loads and
    exports [particle_loop], a kernel built with [delete_cfiles] on goes
    through [compile], [load_lib] and [__del__] without error, and at
    the end its three files are gone, every other file the compiler
    left is there, and no reference to a library is open that was not
    open before. *)
Theorem compile_load_destroy (self : KernelObject) (p : Process)
    (j : Kernel.Jit) (base : string) (fs2 : gmap string string) (image : string) :
  Kernel.jit (this self) = Some j -> files_of base j -> _lib self = None ->
  Kernel.delete_cfiles (this self) = true ->
  writable (Kernel.src_file j) = true ->
  compiler_compile (<[Kernel.src_file j := Kernel.ccode j]> (files p))
                   (Kernel.src_file j) (Kernel.lib_file j) (Kernel.log_file j)
  = (Ok tt, fs2) ->
  is_Some (fs2 !! Kernel.src_file j) ->
  fs2 !! Kernel.lib_file j = Some image ->
  is_Some (fs2 !! Kernel.log_file j) ->
  loadable image = true -> exports_particle_loop image = true ->
  libraries p !! handles p = None ->
  exists self1 p1 self2 p2 self3 p3,
    compile self p = (Ok tt, self1, p1)
    /\ load_lib self1 p1 = (Ok tt, self2, p2)
    /\ __del__ self2 p2 = (Ok tt, self3, p3)
    /\ _lib self2 = Some (handles p)
    /\ libraries p2 !! handles p = Some (Kernel.lib_file j)
    /\ _lib self3 = None
    /\ this self3 = this self
    /\ files p3 = without_files j fs2
    /\ libraries p3 = libraries p.
Proof.
  intros Hjit Hnames Hlib Hdel Hwrite Hcc Hsrc Himage Hlog Hloadable Hexports Hfresh.
  eexists _, _, _, _, _, _.
  split. { unfold compile. rewrite Hjit, Hwrite, Hcc. reflexivity. }
  split.
  { unfold load_lib. cbn [files]. rewrite Hjit, Himage, Hloadable, Hexports.
    reflexivity. }
  cbn [handles libraries].
  assert (Hfile : is_Some (fs2 !! Kernel.lib_file j)) by eauto.
  destruct (del_files
              (set_function (Some (handles p)) (set_lib (Some (handles p)) self))
              {| world := world p; files := fs2;
                 libraries := <[handles p := Kernel.lib_file j]> (libraries p);
                 handles := S (handles p);
                 infos := infos p ++ [("Compiled " ++ Kernel.name (this self)
                                         ++ " ==> " ++ Kernel.lib_file j)%string] |}
              (handles p) j base eq_refl Hjit Hnames Hfile) as (_ & Hgone & _).
  split. { apply Hgone; assumption. }
  split; [reflexivity|]. split; [apply lookup_insert_eq|].
  split; [reflexivity|]. split; [reflexivity|]. split; [reflexivity|].
  cbn [libraries with_files close_library].
  rewrite delete_insert_eq. apply delete_id, Hfresh.
Qed.

(** X23 — a kernel for an interpreted particle type has no files:
    [compile], [load_lib] and [remove_lib] raise [AttributeError] on the
    first attribute of the compiled path they read and change nothing,
    and destroying the kernel does nothing. *)
Theorem interpreted_kernel_has_no_library fs pt pyfunc fname fcode tree fvars
    c_include del w k w' (p : Process) :
  PType.uses_jit pt = false ->
  Kernel.__init__ fs pt pyfunc fname fcode tree fvars c_include del w = (Ok k, w') ->
  compile (new k) p = (Raise (AttributeError "src_file"), new k, p)
  /\ load_lib (new k) p = (Raise (AttributeError "lib_file"), new k, p)
  /\ remove_lib (new k) p = (Raise (AttributeError "lib_file"), new k, p)
  /\ __del__ (new k) p = (Ok tt, new k, p).
Proof.
  intros Hjit Hinit.
  destruct (init_finish _ _ _ _ _ _ _ _ _ _ _ _ Hinit)
    as (fn & fv & fc & tr & f & w1 & Hfin & _).
  unfold finish in Hfin. rewrite Hjit in Hfin. injection Hfin as <- _.
  repeat split.
Qed.

End LibraryLifecycle.
(* ===================================================================== *)
(** ** The life of a library on a concrete kernel *)
(* ===================================================================== *)

Section LifecycleOnToy.

Import Toy.

Lemma j_move_jit : Kernel.jit jit_move = Some j_move.
Proof. vm_compute. reflexivity. Defined.

Lemma j_move_files : files_of base_move j_move.
Proof. repeat split; vm_compute; reflexivity. Defined.

(** A kernel that never loaded its library is left alone. *)
Lemma teardown_once_witness :
  __del__ (new jit_move) process0 = (Ok tt, new jit_move, process0).
Proof.
  destruct (@teardown_once Toy.objects (new jit_move) process0)
    as (_ & _ & _ & _ & _ & Hnone & _).
  apply Hnone. reflexivity.
Defined.

(** The compiled and loaded kernel is destroyed: its three files are
    removed and its library is closed. *)
Lemma teardown_files_witness :
  exists self3 p3,
    __del__ loaded_move.1 loaded_move.2 = (Ok tt, self3, p3)
    /\ files loaded_move.2 !! Kernel.lib_file j_move = Some ("lib:" ++ Kernel.ccode j_move)%string
    /\ files p3 = ∅ /\ libraries p3 = ∅ /\ _lib self3 = None.
Proof.
  destruct (@teardown_files Toy.objects Toy.host loaded_move.1 loaded_move.2
              0%nat j_move base_move) as (_ & Hgone & _).
  - vm_compute. reflexivity.
  - exact j_move_jit.
  - exact j_move_files.
  - vm_compute. eauto.
  - eexists _, _. split.
    + apply Hgone; [reflexivity|vm_compute; eauto|vm_compute; eauto].
    + split; [vm_compute; reflexivity|]. split; [vm_compute; reflexivity|].
      split; vm_compute; reflexivity.
Defined.

(** The loaded kernel is invalidated: its files go, and it is renamed
    after the second reading of the clock. *)
Lemma invalidate_renames_witness :
  exists self' p' j',
    remove_lib loaded_move.1 loaded_move.2 = (Ok tt, self', p')
    /\ Kernel.jit (this self') = Some j'
    /\ Kernel.lib_file j' <> Kernel.lib_file j_move
    /\ files p' = ∅ /\ libraries p' = ∅ /\ _lib self' = None
    /\ clock_reads (world p') = 2%nat.
Proof.
  destruct (@invalidate_renames Toy.objects Toy.host loaded_move.1 loaded_move.2
              j_move base_move j_move_jit j_move_files) as (_ & Hnew).
  destruct Hnew as (base' & w' & j' & Hbase & Hrun & Hj & Hnames & _ & Hlib & _ & Hmpi);
    [vm_compute; eauto|vm_compute; eauto|vm_compute; eauto|].
  destruct (Hmpi eq_refl) as (Hb & Hclock).
  eexists _, _, j'. split; [exact Hrun|]. split; [exact Hj|].
  split.
  { destruct Hnames as (_ & -> & _). rewrite Hb. vm_compute. discriminate. }
  split; [vm_compute; reflexivity|]. split; [vm_compute; reflexivity|].
  split; [exact Hlib|]. cbn [world with_world]. rewrite Hclock. vm_compute. reflexivity.
Defined.


Lemma compile_load_destroy_witness :
  exists self1 p1 self2 p2 self3 p3,
    compile (new jit_move) process0 = (Ok tt, self1, p1)
    /\ load_lib self1 p1 = (Ok tt, self2, p2)
    /\ __del__ self2 p2 = (Ok tt, self3, p3)
    /\ _lib self2 = Some 0%nat /\ _lib self3 = None
    /\ files p3 = ∅ /\ libraries p3 = ∅.
Proof.
  assert (Hcc : compiler_compile
                  (<[Kernel.src_file j_move := Kernel.ccode j_move]> (files process0))
                  (Kernel.src_file j_move) (Kernel.lib_file j_move)
                  (Kernel.log_file j_move) = (Ok tt, fs_move))
    by (vm_compute; reflexivity).
  assert (Hsrc : is_Some (fs_move !! Kernel.src_file j_move)) by (vm_compute; eauto).
  assert (Himage : fs_move !! Kernel.lib_file j_move
                   = Some ("lib:" ++ Kernel.ccode j_move)%string)
    by (vm_compute; reflexivity).
  assert (Hlog : is_Some (fs_move !! Kernel.log_file j_move)) by (vm_compute; eauto).
  assert (Hload : loadable ("lib:" ++ Kernel.ccode j_move)%string = true)
    by (vm_compute; reflexivity).
  assert (Hdel : Kernel.delete_cfiles (this (new jit_move)) = true)
    by (vm_compute; reflexivity).
  destruct (@compile_load_destroy Toy.objects Toy.host Toy.toolchain
              (new jit_move) process0 j_move base_move fs_move
              ("lib:" ++ Kernel.ccode j_move)%string
              j_move_jit j_move_files eq_refl Hdel eq_refl Hcc Hsrc Himage Hlog
              Hload eq_refl eq_refl)
    as (self1 & p1 & self2 & p2 & self3 & p3 & Hc & Hl & Hd & Hh & _ & Hn & _
        & Hf & Hlibs).
  exists self1, p1, self2, p2, self3, p3.
  split; [exact Hc|]. split; [exact Hl|]. split; [exact Hd|].
  split; [exact Hh|]. split; [exact Hn|].
  split; [rewrite Hf; vm_compute; reflexivity|exact Hlibs].
Defined.

Lemma interpreted_kernel_has_no_library_witness :
  exists k w',
    Kernel.__init__ 0%nat scipy (Some move) None None None None EmptyString true world0
    = (Ok k, w')
    /\ load_lib (new k) process0 = (Raise (AttributeError "lib_file"), new k, process0)
    /\ remove_lib (new k) process0
       = (Raise (AttributeError "lib_file"), new k, process0).
Proof.
  assert (Hinit : exists k w',
             Kernel.__init__ 0%nat scipy (Some move) None None None None EmptyString
                             true world0 = (Ok k, w'))
    by (eexists _, _; vm_compute; reflexivity).
  destruct Hinit as (k & w' & Hinit). exists k, w'. split; [exact Hinit|].
  destruct (@interpreted_kernel_has_no_library Toy.objects Toy.host Toy.toolchain
              0%nat scipy _ _ _ _ _ _ _ _ _ _ process0 eq_refl Hinit)
    as (_ & Hload & Hremove & _).
  split; assumption.
Defined.

End LifecycleOnToy.
(* ===================================================================== *)
(** ** [execute] with [dt = 0] *)
(* ===================================================================== *)

Section ZeroStep.

Context `{Objects} `{!Host} `{!Engine}.

Local Open Scope Q_scope.

Import ErrorCode.














End ZeroStep.

Section ZeroStepOnToy.

Import Toy.

Local Open Scope Q_scope.







End ZeroStepOnToy.

(* ===================================================================== *)
(** ** The time index of a field *)
(* ===================================================================== *)

Section TimeIndex.

Import FieldData.

Local Open Scope Q_scope.

Lemma first_true_spec (bs : list bool) :
  match first_true bs with
  | Some i => bs !! i = Some true /\ forall j, (j < i)%nat -> bs !! j = Some false
  | None => forall j b, bs !! j = Some b -> b = false
  end.
Proof.
  induction bs as [|b bs IH]; [intros j b Hj; discriminate|].
  cbn [first_true]. destruct b.
  - split; [reflexivity|]. intros j Hj. lia.
  - destruct (first_true bs) as [i|]; cbn [fmap option_fmap option_map].
    + destruct IH as [Hi Hbefore]. split; [exact Hi|].
      intros [|j] Hj; [reflexivity|]. apply Hbefore. lia.
    + intros [|j] b Hj; [cbn in Hj; congruence|]. exact (IH j b Hj).
Qed.

Lemma lookup_map_ge (ts : list Q) (t : Q) (j : nat) :
  List.map (fun x => Qle_bool t x) ts !! j = (fun x => Qle_bool t x) <$> ts !! j.
Proof.
  revert j. induction ts as [|x ts IH]; intros [|j]; try reflexivity. apply IH.
Qed.

(** X24 — the snapshot [time_index] selects, computed afresh. On an
    empty time axis the call raises. Otherwise the index is within the
    axis; when some time stamp is at or after the time asked for, it is
    the first such stamp, every earlier one being before that time; when
    every stamp is before the time asked for, the index is 0, the first
    snapshot and not the last. *)
Theorem time_index_first (ts : list Q) (t : Q) :
  (ts = [] -> exists e, argmax_ge ts t = Raise e)
  /\ (ts <> [] ->
      exists i,
        argmax_ge ts t = Ok i /\ (i < length ts)%nat
        /\ (forall j x, ts !! j = Some x -> t <= x ->
              (i <= j)%nat
              /\ (exists y, ts !! i = Some y /\ t <= y)
              /\ (forall k z, (k < i)%nat -> ts !! k = Some z -> z < t))
        /\ ((forall j x, ts !! j = Some x -> x < t) -> i = O)).
Proof.
  split; [intros ->; eexists; reflexivity|].
  intros Hne. destruct ts as [|x0 ts0]; [contradiction|].
  set (ts := x0 :: ts0) in *.
  unfold argmax_ge. fold ts. change (match ts with [] => _ | _ :: _ => ?b end) with b.
  pose proof (first_true_spec (List.map (fun x => Qle_bool t x) ts)) as Hspec.
  destruct (first_true (List.map (fun x => Qle_bool t x) ts)) as [i|]; cbn [default].
  - destruct Hspec as [Hi Hbefore]. rewrite lookup_map_ge in Hi.
    destruct (ts !! i) as [y|] eqn:Hy; [|discriminate].
    cbn in Hi. injection Hi as Hi. apply Qle_bool_iff in Hi.
    exists i. split; [reflexivity|]. split; [eapply lookup_lt_Some, Hy|].
    split.
    + intros j x Hj Hx. split.
      * destruct (le_lt_dec i j) as [Hle|Hlt]; [exact Hle|].
        specialize (Hbefore j Hlt). rewrite lookup_map_ge, Hj in Hbefore.
        cbn in Hbefore. injection Hbefore as Hbefore.
        apply Qle_bool_iff in Hx. congruence.
      * split; [eauto|]. intros k z Hk Hz.
        specialize (Hbefore k Hk). rewrite lookup_map_ge, Hz in Hbefore.
        cbn in Hbefore. injection Hbefore as Hbefore.
        apply Qnot_le_lt. intros Hle. apply Qle_bool_iff in Hle. congruence.
    + intros Hall. exfalso. specialize (Hall i y Hy). lra.
  - exists O. split; [reflexivity|]. split; [cbn; lia|]. split; [|reflexivity].
    intros j x Hj Hx. exfalso.
    specialize (Hspec j (Qle_bool t x)). rewrite lookup_map_ge, Hj in Hspec.
    specialize (Hspec eq_refl). apply Qle_bool_iff in Hx. congruence.
Qed.

Lemma argmax_ge_compat (ts : list Q) (k t : Q) :
  k == t -> argmax_ge ts k = argmax_ge ts t.
Proof.
  intros Heq. unfold argmax_ge. destruct ts as [|x0 ts0]; [reflexivity|].
  do 3 f_equal. apply List.map_ext. intros x.
  apply eq_true_iff_eq. rewrite !Qle_bool_iff, Heq. reflexivity.
Qed.

(** X25 — the cache of [time_index] cannot be seen. On a field whose
    cache holds a result of [np.argmax] on its time axis, as it does
    from the constructor on, [time_index] gives what [np.argmax] gives
    on the time asked for, leaves the time axis as it is, and leaves
    the cache in the same condition; an exception is not cached. *)
Theorem time_index_cache_is_transparent (f : FieldData.t) (t : Q) :
  coherent f ->
  (time_index f t).1 = argmax_ge (time f) t
  /\ time (time_index f t).2 = time f
  /\ coherent (time_index f t).2
  /\ coherent (__init__ None)
  /\ (forall ts, coherent (__init__ (Some ts))).
Proof.
  intros Hf.
  assert (Hcompute :
            forall r f', match argmax_ge (time f) t with
                         | Ok v => (Ok v, {| time := time f;
                                             time_index_cache := Some (t, v) |})
                         | Raise e => (Raise e, f)
                         end = (r, f') ->
                         r = argmax_ge (time f) t /\ time f' = time f /\ coherent f').
  { intros r f' Heq. destruct (argmax_ge (time f) t) as [v|e] eqn:Hv;
      injection Heq as <- <-.
    - split; [reflexivity|]. split; [reflexivity|].
      intros k v' Hk. cbn in Hk. injection Hk as <- <-. exact Hv.
    - split; [reflexivity|]. split; [reflexivity|exact Hf]. }
  assert (Hrun : (time_index f t).1 = argmax_ge (time f) t
                 /\ time (time_index f t).2 = time f
                 /\ coherent (time_index f t).2).
  { unfold time_index. destruct (time_index_cache f) as [[k v]|] eqn:Hcache.
    - destruct (Qeq_bool k t) eqn:Hk.
      + apply Qeq_bool_iff in Hk. cbn [fst snd].
        split; [|split; [reflexivity|exact Hf]].
        rewrite <- (argmax_ge_compat (time f) k t Hk). symmetry. apply Hf, Hcache.
      + apply Hcompute. apply surjective_pairing.
    - apply Hcompute. apply surjective_pairing. }
  destruct Hrun as (Hr & Ht & Hc). split; [exact Hr|]. split; [exact Ht|].
  split; [exact Hc|]. split; [intros k v Hk; discriminate|].
  intros ts k v Hk. discriminate.
Qed.

End TimeIndex.

Section TimeIndexExamples.

Import FieldData.

Local Open Scope Q_scope.

(** Snapshots at 0, 10 and 20: the time 5 selects the snapshot at 10,
    and the time 25, after the last one, selects the snapshot at 0. *)
Lemma time_index_first_witness :
  argmax_ge [0; 10; 20] 5 = Ok 1%nat /\ argmax_ge [0; 10; 20] 25 = Ok 0%nat.
Proof.
  destruct (time_index_first [0; 10; 20] 25) as [_ Hfull].
  destruct Hfull as (i & Hi & _ & _ & Hzero); [discriminate|].
  split; [reflexivity|]. rewrite Hi. f_equal. apply Hzero.
  intros [|[|[|j]]] x Hx; cbn in Hx; try discriminate; injection Hx as <-;
    reflexivity.
Defined.

(** Two calls in a row, the second answered from the cache. *)
Lemma time_index_cache_is_transparent_witness :
  let f1 := (time_index (__init__ (Some [0; 10; 20])) 5).2 in
  (time_index f1 5).1 = Ok 1%nat /\ (time_index f1 (10 # 2)).1 = Ok 1%nat
  /\ (time_index f1 25).1 = Ok 0%nat.
Proof.
  cbv zeta.
  destruct (time_index_cache_is_transparent (__init__ (Some [0; 10; 20])) 5)
    as (_ & _ & Hc & _); [intros k v Hk; discriminate|].
  destruct (time_index_cache_is_transparent _ 5 Hc) as (H5 & _).
  destruct (time_index_cache_is_transparent _ (10 # 2) Hc) as (H5' & _).
  destruct (time_index_cache_is_transparent _ 25 Hc) as (H25 & _).
  rewrite H5, H5', H25. repeat split; reflexivity.
Defined.

End TimeIndexExamples.
